(** * Senate disclosure extractor: a shallow embedding of
      [robust_senate_extractor.py] and of [establish_session_once],
      [process_direct_url], [extract_report_links_dynamic] and
      [process_reports] from [enhanced_senate_scraper_with_direct_url.py].

    Conventions of the embedding.
    - A Python [str] is a [string]; every character is read as the code point
      with the same number (0..255).  [\s], [\d], [str.lower] and [str.strip]
      are the Python 3 (Unicode) ones restricted to that range.
    - A Python [dict] with string keys is a [gmap string _].
    - A parsed document (BeautifulSoup tree) is a [node]; the HTML parser
      itself belongs to the library and is an operation of the environment,
      which returns the tree or raises when it rejects the markup.
    - Methods that talk to the browser, the HTTP session, the clock or the
      file system run in the monad [M]: state passing over the environment
      with Python exceptions as a result; the calls of the extractor are
      recorded in a trace (the scraper's section says which of its own are).
      Only subclasses of [Exception] are modelled; [time.sleep] and the
      logger never raise, and log lines are not part of the trace. *)

From Stdlib Require Import Ascii String NArith ZArith List Bool Lia.
From stdpp Require Import base option list gmap strings pretty.

Local Open Scope string_scope.
Local Open Scope list_scope.
Local Set Warnings "-register-all,-clear-no-such-hyp".

(* ================================================================== *)
(** * Characters and strings as Python sees them                       *)
(* ================================================================== *)

Module PyStr.

Definition code (c : ascii) : N := N_of_ascii c.

Definition in_range (lo hi c : ascii) : bool :=
  (code lo <=? code c)%N && (code c <=? code hi)%N.

(** [str.isspace] on one character, which is also what [\s] accepts. *)
Definition is_space (c : ascii) : bool :=
  let n := code c in
  ((9 <=? n) && (n <=? 13) || (28 <=? n) && (n <=? 32)
   || (n =? 133) || (n =? 160))%N.

(** [\d]: the only decimal digits below 256 are 0-9. *)
Definition is_digit (c : ascii) : bool := in_range "0" "9" c.

Definition is_upper_AZ (c : ascii) : bool := in_range "A" "Z" c.

(** [str.lower] on one character. *)
Definition lower_char (c : ascii) : ascii :=
  let n := code c in
  if ((65 <=? n) && (n <=? 90)
      || (192 <=? n) && (n <=? 222) && negb (n =? 215))%N
  then ascii_of_N (n + 32) else c.

(** The ASCII upper-case partner, used by [re.IGNORECASE]. *)
Definition upper_char (c : ascii) : ascii :=
  let n := code c in
  if ((97 <=? n) && (n <=? 122))%N then ascii_of_N (n - 32) else c.

Fixpoint lower (s : string) : string :=
  match s with
  | EmptyString => EmptyString
  | String c s' => String (lower_char c) (lower s')
  end.

Fixpoint lstrip (s : string) : string :=
  match s with
  | String c s' => if is_space c then lstrip s' else s
  | EmptyString => EmptyString
  end.

(** [rstrip] keeps a character when it is not white space or when something
    that is kept follows it. *)
Fixpoint rstrip (s : string) : string :=
  match s with
  | EmptyString => EmptyString
  | String c s' =>
      match rstrip s' with
      | EmptyString => if is_space c then EmptyString else String c EmptyString
      | r => String c r
      end
  end.

Definition strip (s : string) : string := rstrip (lstrip s).

(** [s.startswith(p)] *)
Fixpoint startswith (p s : string) : bool :=
  match p, s with
  | EmptyString, _ => true
  | String a p', String b s' => Ascii.eqb a b && startswith p' s'
  | String _ _, EmptyString => false
  end.

(** [p in s] for strings. *)
Fixpoint contains (p s : string) : bool :=
  startswith p s ||
  match s with
  | EmptyString => false
  | String _ s' => contains p s'
  end.

(** [sep.join(l)] *)
Fixpoint join (sep : string) (l : list string) : string :=
  match l with
  | [] => EmptyString
  | [x] => x
  | x :: rest => x +:+ sep +:+ join sep rest
  end.

(** [s[:n]] for [0 <= n]. *)
Fixpoint take (n : nat) (s : string) : string :=
  match n, s with
  | S n', String c s' => String c (take n' s')
  | _, _ => EmptyString
  end.

End PyStr.

(* ================================================================== *)
(** * The fragment of [re] used by the extractor                       *)
(* ================================================================== *)

Module Re.
Import PyStr.

(** Members of a character set [[...]]. *)
Inductive cset :=
| CChar (c : ascii)
| CRange (lo hi : ascii)
| CSpace
| CDigit.

(** Patterns.  Repetition is only ever applied to a character set in the
    source, and [?] only to a non-capturing group; groups are numbered by
    their opening parenthesis. *)
Inductive regex :=
| RSet (items : list cset)
| RSeq (r1 r2 : regex)
| RAlt (r1 r2 : regex)
| RRep (items : list cset) (lo : nat) (hi : option nat)
| ROpt (r : regex)
| RGroup (n : nat) (r : regex).

Definition cset_item (i : cset) (c : ascii) : bool :=
  match i with
  | CChar a => Ascii.eqb a c
  | CRange lo hi => in_range lo hi c
  | CSpace => is_space c
  | CDigit => is_digit c
  end.

(** With [ic] (re.IGNORECASE) a character is accepted when it or its
    other-case partner is. *)
Definition cset_mem (ic : bool) (items : list cset) (c : ascii) : bool :=
  existsb (fun i => cset_item i c
                    || ic && (cset_item i (lower_char c)
                              || cset_item i (upper_char c))) items.

Definition caps := list (nat * string).

Fixpoint group (n : nat) (cs : caps) : option string :=
  match cs with
  | [] => None
  | (m, v) :: rest => if Nat.eqb m n then Some v else group n rest
  end.

Section Matcher.
Context {R : Type}.
Variable ic : bool.

(** Greedy [[items]{lo,hi}]: take as many characters as allowed, then give
    them back one at a time until the rest of the pattern matches. *)
Fixpoint rep (items : list cset) (lo : nat) (hi : option nat)
         (k : string -> option R) (n : nat) (s : string) : option R :=
  let stop := if (lo <=? n)%nat then k s else None in
  match s with
  | String c s' =>
      if match hi with Some h => (n <? h)%nat | None => true end
         && cset_mem ic items c
      then match rep items lo hi k (S n) s' with
           | Some x => Some x
           | None => stop
           end
      else stop
  | EmptyString => stop
  end.

(** Backtracking matcher anchored at the start of [s]; [k] is the rest of
    the pattern.  Alternatives are tried left to right. *)
Fixpoint rmatch (r : regex) (s : string) (cs : caps)
         (k : string -> caps -> option R) : option R :=
  match r with
  | RSet items =>
      match s with
      | String c s' => if cset_mem ic items c then k s' cs else None
      | EmptyString => None
      end
  | RSeq r1 r2 => rmatch r1 s cs (fun s1 c1 => rmatch r2 s1 c1 k)
  | RAlt r1 r2 =>
      match rmatch r1 s cs k with
      | Some x => Some x
      | None => rmatch r2 s cs k
      end
  | RRep items lo hi => rep items lo hi (fun s' => k s' cs) 0 s
  | ROpt r1 =>
      match rmatch r1 s cs k with
      | Some x => Some x
      | None => k s cs
      end
  | RGroup n r1 =>
      rmatch r1 s cs
        (fun s' c' => k s' ((n, take (String.length s - String.length s') s) :: c'))
  end.
End Matcher.

(** A match: its groups and the input left after it. *)
Definition match_at (ic : bool) (r : regex) (s : string) : option (caps * string) :=
  rmatch ic r s [] (fun s' cs => Some (cs, s')).

(** [re.search(r, s)]: the leftmost match; only the groups are used. *)
Fixpoint search (ic : bool) (r : regex) (s : string) : option caps :=
  match match_at ic r s with
  | Some (cs, _) => Some cs
  | None =>
      match s with
      | EmptyString => None
      | String _ s' => search ic r s'
      end
  end.

(** [re.findall(r, s)]: the non-overlapping matches from left to right.
    [skip] counts the characters of the last match still to be passed.
    The source calls it with one pattern, which matches no empty string; for
    such patterns the next search starts right after the previous match. *)
Fixpoint findall_from (ic : bool) (r : regex) (skip : nat) (s : string)
  : list caps :=
  match skip, s with
  | S n, String _ s' => findall_from ic r n s'
  | S _, EmptyString => []
  | O, _ =>
      match match_at ic r s with
      | Some (cs, rest) =>
          cs :: match s with
                | EmptyString => []
                | String _ s' =>
                    findall_from ic r
                      (Nat.pred (String.length s - String.length rest)) s'
                end
      | None =>
          match s with
          | EmptyString => []
          | String _ s' => findall_from ic r 0 s'
          end
      end
  end.

Definition findall (ic : bool) (r : regex) (s : string) : list caps :=
  findall_from ic r 0 s.

(** The text of a group in a [findall] tuple (the empty string when the
    group took no part in the match). *)
Definition group_text (n : nat) (cs : caps) : string :=
  default EmptyString (group n cs).

(** Pattern builders. *)
Definition chr (c : ascii) : regex := RSet [CChar c].

Fixpoint lit_from (c : ascii) (s : string) : regex :=
  match s with
  | EmptyString => chr c
  | String d s' => RSeq (chr c) (lit_from d s')
  end.

(** A literal word of at least one character. *)
Definition lit (s : string) : regex :=
  match s with
  | EmptyString => RRep [] 0 (Some 0)
  | String c s' => lit_from c s'
  end.

Definition plus (items : list cset) : regex := RRep items 1 None.
Definition star (items : list cset) : regex := RRep items 0 None.
Definition between (items : list cset) (lo hi : nat) : regex :=
  RRep items lo (Some hi).

Fixpoint seqs (rs : list regex) : regex :=
  match rs with
  | [] => RRep [] 0 (Some 0)
  | [r] => r
  | r :: rest => RSeq r (seqs rest)
  end.

Fixpoint alts (rs : list regex) : regex :=
  match rs with
  | [] => RSet []
  | [r] => r
  | r :: rest => RAlt r (alts rest)
  end.

End Re.

(* ================================================================== *)
(** * Values and dictionaries                                          *)
(* ================================================================== *)

(** The values stored in a transaction or a report dictionary. *)
Inductive pyval :=
| PNone
| PStr (s : string)
| PInt (z : Z)
| PBool (b : bool).

(** Python exceptions that the modelled code can meet.  [ExtError] stands for
    any exception (a subclass of [Exception]) raised by the browser driver,
    the HTTP client or the file system. *)
Inductive exn :=
| IndexError
| KeyError (k : string)
| ExtError (what : string).

Inductive res (A : Type) :=
| Ok (a : A)
| Raise (e : exn).
Arguments Ok {A} a.
Arguments Raise {A} e.

#[export] Instance pyval_eq_dec : EqDecision pyval.
Proof. solve_decision. Defined.
#[export] Instance exn_eq_dec : EqDecision exn.
Proof. solve_decision. Defined.
#[export] Instance res_eq_dec {A} `{EqDecision A} : EqDecision (res A).
Proof. solve_decision. Defined.

Definition res_bind {A B} (x : res A) (f : A -> res B) : res B :=
  match x with
  | Ok a => f a
  | Raise e => Raise e
  end.

Declare Scope res_scope.
Delimit Scope res_scope with res.
Notation "x <- c ;; k" := (res_bind c (fun x => k))
  (at level 100, c at next level, right associativity) : res_scope.

(** [l[i]] for [0 <= i]. *)
Definition py_index {A} (l : list A) (i : nat) : res A :=
  match l !! i with
  | Some x => Ok x
  | None => Raise IndexError
  end.

(* ================================================================== *)
(** * FieldExtractors                                                  *)
(* ================================================================== *)

Module Fields.
Import PyStr Re.

Definition upper5 : regex := between [CRange "A" "Z"] 1 5.

(** [r'[(\[]([A-Z]{1,5})[)\]]'] *)
Definition ticker_bracketed : regex :=
  seqs [RSet [CChar "("; CChar "["]; RGroup 1 upper5; RSet [CChar ")"; CChar "]"]].

(** [r'([A-Z]{1,5})\s*-'] *)
Definition ticker_then_hyphen : regex :=
  seqs [RGroup 1 upper5; star [CSpace]; chr "-"].

(** [r'-\s*([A-Z]{1,5})'] *)
Definition hyphen_then_ticker : regex :=
  seqs [chr "-"; star [CSpace]; RGroup 1 upper5].

(** [match.group(1)] of a search; [None] when there is no match. *)
Definition search_group1 (ic : bool) (r : regex) (s : string) : option string :=
  match search ic r s with
  | Some cs => group 1 cs
  | None => None
  end.

Definition extract_ticker (asset_text : string) : option string :=
  match search_group1 false ticker_bracketed asset_text with
  | Some t => Some t
  | None =>
      match search_group1 false ticker_then_hyphen asset_text with
      | Some t => Some t
      | None =>
          match search_group1 false hyphen_then_ticker asset_text with
          | Some t => Some t
          | None => None
          end
      end
  end.

(** [any(indicator in text for indicator in indicators)] *)
Definition any_in (indicators : list string) (text : string) : bool :=
  existsb (fun i => contains i text) indicators.

Definition identify_transaction_owner (asset_text : string) : string :=
  let asset_text := lower asset_text in
  if any_in ["spouse"; "husband"; "wife"; "joint"; "spousal"] asset_text
  then "spouse"
  else if any_in ["child"; "son"; "daughter"; "dependent"; "minor"] asset_text
  then "child"
  else if any_in ["family"; "trust"; "estate"] asset_text
  then "family"
  else "self".

End Fields.

(* ================================================================== *)
(** * Parsed documents                                                 *)
(* ================================================================== *)

Module Dom.
Import PyStr Re.

(** A BeautifulSoup tree: text strings and tags with their attributes.  The
    document itself is a tag (named "[document]"). *)
Inductive node :=
| Text (s : string)
| Elem (tag : string) (attrs : gmap string string) (children : list node).

(** [tag.descendants], in document order. *)
Fixpoint descendants (n : node) : list node :=
  match n with
  | Text _ => []
  | Elem _ _ cs => flat_map (fun c => c :: descendants c) cs
  end.

Definition has_tag (names : list string) (n : node) : bool :=
  match n with
  | Text _ => false
  | Elem t _ _ => existsb (String.eqb t) names
  end.

(** [tag.find_all(names)] *)
Definition find_all (names : list string) (n : node) : list node :=
  List.filter (has_tag names) (descendants n).

(** The strings below a tag, in document order. *)
Fixpoint all_strings (n : node) : list string :=
  match n with
  | Text s => [s]
  | Elem _ _ cs => flat_map all_strings cs
  end.

Definition nonempty (s : string) : bool :=
  match s with
  | EmptyString => false
  | String _ _ => true
  end.

(** [tag.get_text(strip=True)]: every string stripped, the empty ones
    dropped, the rest concatenated. *)
Definition get_text_strip (n : node) : string :=
  join "" (List.filter nonempty (map strip (all_strings n))).

Definition attr (name : string) (n : node) : option string :=
  match n with
  | Text _ => None
  | Elem _ attrs _ => attrs !! name
  end.

(** The white-space separated words of an attribute value; [cur] is the word
    being read. *)
Fixpoint words_from (cur : string) (s : string) : list string :=
  match s with
  | EmptyString => if nonempty cur then [cur] else []
  | String c s' =>
      if is_space c
      then (if nonempty cur then cur :: words_from "" s' else words_from "" s')
      else words_from (cur +:+ String c "") s'
  end.

Definition classes (n : node) : list string :=
  match attr "class" n with
  | Some v => words_from "" v
  | None => []
  end.

(** A [class_=compiled_pattern] filter: some class of the tag is matched by
    [pattern.search], or else the whole class string is. *)
Definition class_search (ic : bool) (r : regex) (n : node) : bool :=
  match classes n with
  | [] => false
  | cl => existsb (fun c => bool_decide (is_Some (search ic r c))) cl
          || bool_decide (is_Some (search ic r (join " " cl)))
  end.

(** [soup.find(name, {'id': id})] *)
Definition find_by_id (name id : string) (n : node) : option node :=
  List.find (fun e => has_tag [name] e && bool_decide (attr "id" e = Some id))
            (descendants n).

End Dom.

(* ================================================================== *)
(** * ParserChain: the three strategies                                *)
(* ================================================================== *)

Module Parsers.
Import PyStr Re Dom Fields.
Local Open Scope res_scope.

Definition opt_str (o : option string) : pyval :=
  match o with
  | Some s => PStr s
  | None => PNone
  end.

(** The fixed synonym table of [create_header_map], in its order. *)
Definition field_mappings : list (string * list string) :=
  [ ("asset", ["asset"; "security"; "name"; "description"]);
    ("transaction_type", ["transaction"; "type"; "action"]);
    ("date", ["date"; "transaction date"]);
    ("amount", ["amount"; "value"]);
    ("owner", ["owner"]);
    ("ticker", ["ticker"; "symbol"]) ].

(** Index of the first element accepted by [p], counting from [i]. *)
Fixpoint first_index {A} (p : A -> bool) (l : list A) (i : nat) : option nat :=
  match l with
  | [] => None
  | x :: rest => if p x then Some i else first_index p rest (S i)
  end.

Definition create_header_map (headers : list string) : gmap string nat :=
  fold_left
    (fun header_map '(field, possible_names) =>
       match first_index (any_in possible_names) headers 0 with
       | Some idx => <[field := idx]> header_map
       | None => header_map
       end)
    field_mappings ∅.

(** One [if field in header_map: transaction[field] = cell_texts[...]] block. *)
Definition copy_cell (field : string) (cell_texts : list string)
           (header_map : gmap string nat) (transaction : gmap string pyval)
  : res (gmap string pyval) :=
  match header_map !! field with
  | Some idx =>
      v <- py_index cell_texts idx ;;
      Ok (<[field := PStr v]> transaction)
  | None => Ok transaction
  end.

(** The [if 'asset' in header_map:] block. *)
Definition asset_block (cell_texts : list string)
           (header_map : gmap string nat) (transaction : gmap string pyval)
  : res (gmap string pyval) :=
  match header_map !! "asset" with
  | Some idx =>
      asset <- py_index cell_texts idx ;;
      Ok (<["ticker" := opt_str (extract_ticker asset)]>
            (<["asset" := PStr asset]> transaction))
  | None => Ok transaction
  end.

(** The [if 'owner' in header_map:] block. *)
Definition owner_block (cell_texts : list string)
           (header_map : gmap string nat) (transaction : gmap string pyval)
  : res (gmap string pyval) :=
  match header_map !! "owner" with
  | Some idx =>
      owner <- py_index cell_texts idx ;;
      Ok (<["relationship" := PStr (identify_transaction_owner owner)]>
            (<["owner" := PStr owner]> transaction))
  | None => Ok transaction
  end.

Definition extract_transaction_from_cells
           (cells : list node) (header_map : gmap string nat)
  : res (gmap string pyval) :=
  let cell_texts := map get_text_strip cells in
  let transaction : gmap string pyval :=
    <["cell_count" := PInt (Z.of_nat (length cells))]>
      (<["raw_text" := PStr (join " | " cell_texts)]> ∅) in
  transaction <- asset_block cell_texts header_map transaction ;;
  transaction <- copy_cell "transaction_type" cell_texts header_map transaction ;;
  transaction <- copy_cell "date" cell_texts header_map transaction ;;
  transaction <- copy_cell "amount" cell_texts header_map transaction ;;
  owner_block cell_texts header_map transaction.

(** Truth value of a dictionary. *)
Definition dict_truthy {V} (d : gmap string V) : bool :=
  negb (bool_decide (d = ∅)).

(** The loop over the data rows of one table. *)
Fixpoint rows_loop (rows : list node) (header_map : gmap string nat)
         (transactions : list (gmap string pyval))
  : res (list (gmap string pyval)) :=
  match rows with
  | [] => Ok transactions
  | row :: rest =>
      let cells := find_all ["td"; "th"] row in
      if (3 <=? length cells)%nat
      then transaction <- extract_transaction_from_cells cells header_map ;;
           rows_loop rest header_map
             (if dict_truthy transaction
              then transactions ++ [transaction] else transactions)
      else rows_loop rest header_map transactions
  end.

(** The loop over the tables of the document. *)
Fixpoint tables_loop (tables : list node)
         (transactions : list (gmap string pyval))
  : res (list (gmap string pyval)) :=
  match tables with
  | [] => Ok transactions
  | table :: more =>
      match find_all ["tr"] table with
      | row0 :: ((_ :: _) as data_rows) =>
          let header_cells := find_all ["th"; "td"] row0 in
          let headers := map (fun th => lower (get_text_strip th)) header_cells in
          let header_map := create_header_map headers in
          if dict_truthy header_map
          then transactions <- rows_loop data_rows header_map transactions ;;
               tables_loop more transactions
          else tables_loop more transactions
      | _ => tables_loop more transactions
      end
  end.

Definition parse_tables (soup : node) : res (list (gmap string pyval)) :=
  tables_loop (find_all ["table"] soup) [].

(** [r'transaction|asset'], compiled with [re.I]. *)
Definition transaction_class : regex := alts [lit "transaction"; lit "asset"].

Definition is_likely_transaction (text : string) : bool :=
  let keywords :=
    ["purchase"; "sale"; "exchange"; "asset"; "security"; "$"; "ticker"] in
  existsb (fun keyword => contains (lower keyword) (lower text)) keywords.

Definition letters_space : list cset :=
  [CRange "A" "Z"; CRange "a" "z"; CSpace].

(** [r'([A-Za-z\s]+(?:Inc|Corp|LLC|Ltd|ETF)?)'] *)
Definition asset_re : regex :=
  RGroup 1
    (RSeq (plus letters_space)
          (ROpt (alts [lit "Inc"; lit "Corp"; lit "LLC"; lit "Ltd"; lit "ETF"]))).

(** [r'(Purchase|Sale|Exchange)'] *)
Definition type_words : regex :=
  alts [lit "Purchase"; lit "Sale"; lit "Exchange"].

(** [r'\d{1,2}/\d{1,2}/\d{4}'] *)
Definition date_shape : regex :=
  seqs [between [CDigit] 1 2; chr "/"; between [CDigit] 1 2; chr "/";
        between [CDigit] 4 4].

(** [r'\$[\d,]+-\$[\d,]+|\$[\d,]+'] *)
Definition amount_shape : regex :=
  let dollars := RSeq (chr "$") (plus [CDigit; CChar ","]) in
  RAlt (seqs [dollars; chr "-"; dollars]) dollars.

Definition parse_transaction_text (text : string) : option (gmap string pyval) :=
  let asset_match := search_group1 false asset_re text in
  let type_match := search_group1 true (RGroup 1 type_words) text in
  let date_match := search_group1 false (RGroup 1 date_shape) text in
  let amount_match := search_group1 false (RGroup 1 amount_shape) text in
  match asset_match, type_match, date_match, amount_match with
  | Some asset, Some type, Some date, Some amount =>
      Some (<["relationship" := PStr "self"]>
           (<["owner" := PStr "self"]>
           (<["ticker" := opt_str (extract_ticker asset)]>
           (<["amount" := PStr amount]>
           (<["date" := PStr date]>
           (<["transaction_type" := PStr type]>
           (<["asset" := PStr (strip asset)]> ∅)))))))
  | _, _, _, _ => None
  end.

Fixpoint divs_loop (divs : list node) (transactions : list (gmap string pyval))
  : list (gmap string pyval) :=
  match divs with
  | [] => transactions
  | div :: rest =>
      let text := get_text_strip div in
      if is_likely_transaction text
      then match parse_transaction_text text with
           | Some transaction =>
               divs_loop rest
                 (if dict_truthy transaction
                  then transactions ++ [transaction] else transactions)
           | None => divs_loop rest transactions
           end
      else divs_loop rest transactions
  end.

Definition parse_alternative (soup : node) : list (gmap string pyval) :=
  let transaction_divs :=
    List.filter (class_search true transaction_class) (find_all ["div"] soup) in
  divs_loop transaction_divs [].

(** [r'([A-Za-z\s]+)\s*(Purchase|Sale|Exchange)\s*(\d{1,2}/\d{1,2}/\d{4})\s*(\$[\d,]+-\$[\d,]+|\$[\d,]+)'] *)
Definition transaction_pattern : regex :=
  seqs [RGroup 1 (plus letters_space); star [CSpace];
        RGroup 2 type_words; star [CSpace];
        RGroup 3 date_shape; star [CSpace];
        RGroup 4 amount_shape].

Definition regex_transaction (m : caps) : gmap string pyval :=
  let asset := group_text 1 m in
  let transaction_type := group_text 2 m in
  let date := group_text 3 m in
  let amount := group_text 4 m in
  <["relationship" := PStr "self"]>
  (<["owner" := PStr "self"]>
  (<["ticker" := opt_str (extract_ticker asset)]>
  (<["amount" := PStr amount]>
  (<["date" := PStr date]>
  (<["transaction_type" := PStr transaction_type]>
  (<["asset" := PStr (strip asset)]> ∅)))))).

Definition parse_with_regex (html_content : string) : list (gmap string pyval) :=
  map regex_transaction (findall true transaction_pattern html_content).

End Parsers.

(* ================================================================== *)
(** * The environment and the monad of the methods                     *)
(* ================================================================== *)

(** What [requests] hands back. *)
Record response := { status_code : Z; text : string }.

(** Calls that leave the program, and calls of the object's own methods.
    [EAttempt n] marks the start of iteration [n] of the retry loop (where
    the source logs "Attempt n+1"); other log lines are not recorded. *)
Inductive event :=
| ECall (method : string)
| EAttempt (n : Z)
| EDriverGet (url : string)
| ETitle
| EPageSource
| EWaitClickable (id : string)
| EClick
| EGetCookies
| ECookieSet (name value : string)
| ESessionGet (url : string)
| ESessionPost (url : string) (data : gmap string string)
| ESleep (seconds : Z)
| ENow
| EWriteFile (path : string).

#[export] Instance event_eq_dec : EqDecision event.
Proof. solve_decision. Defined.

(** The capabilities the extractor is given: the browser driver, the HTTP
    session, the HTML parser, the clock and the file system.  [W] is the
    state of the outside world; each operation may raise. *)
Class Env (W : Type) := {
  driver_get : string -> W -> res unit * W;
  driver_title : W -> res string * W;
  driver_page_source : W -> res string * W;
  wait_clickable : string -> W -> res nat * W;
  element_click : nat -> W -> res unit * W;
  driver_get_cookies : W -> res (list (gmap string string)) * W;
  cookies_set : string -> string -> W -> res unit * W;
  session_get : string -> W -> res response * W;
  session_post : string -> gmap string string -> W -> res response * W;
  time_sleep : Z -> W -> W;
  datetime_now_isoformat : W -> string * W;
  write_file : string -> string -> W -> res unit * W;
  BeautifulSoup : string -> res Dom.node;
  urljoin : string -> string -> string
}.

(** The object: the world behind its driver and session, and the flag of the
    subclass. *)
Record state (W : Type) := {
  world : W;
  session_established : bool
}.
Arguments world {W} s.
Arguments session_established {W} s.

(** A method run: its result (or exception), the state after it and the
    calls it made, in order. *)
Definition M (W A : Type) : Type := state W -> res A * state W * list event.

Definition ret {W A} (a : A) : M W A := fun s => (Ok a, s, []).

Definition bind {W A B} (m : M W A) (f : A -> M W B) : M W B :=
  fun s =>
    match m s with
    | (Ok a, s1, t1) => let '(r, s2, t2) := f a s1 in (r, s2, t1 ++ t2)
    | (Raise e, s1, t1) => (Raise e, s1, t1)
    end.

(** [try: m  except Exception as e: h e] *)
Definition try_except {W A} (m : M W A) (h : exn -> M W A) : M W A :=
  fun s =>
    match m s with
    | (Ok a, s1, t1) => (Ok a, s1, t1)
    | (Raise e, s1, t1) => let '(r, s2, t2) := h e s1 in (r, s2, t1 ++ t2)
    end.

Definition lift {W A} (r : res A) : M W A := fun s => (r, s, []).

Definition log {W} (ev : event) : M W unit := fun s => (Ok tt, s, [ev]).

(** A call to the outside, recorded as [ev]. *)
Definition perform {W A} (ev : event) (op : W -> res A * W) : M W A :=
  fun s =>
    let '(r, w) := op (world s) in
    (r, {| world := w; session_established := session_established s |}, [ev]).

Definition set_session_established {W} (b : bool) : M W unit :=
  fun s => (Ok tt, {| world := world s; session_established := b |}, []).

Definition get_session_established {W} : M W bool :=
  fun s => (Ok (session_established s), s, []).

Declare Scope m_scope.
Delimit Scope m_scope with M.
Notation "x <- c ;; k" := (bind c (fun x => k))
  (at level 100, c at next level, right associativity) : m_scope.
Notation "c ;;; k" := (bind c (fun _ => k))
  (at level 100, right associativity) : m_scope.

(** [d[k]] on a dictionary of strings. *)
Definition dict_item (d : gmap string string) (k : string) : res string :=
  match d !! k with
  | Some v => Ok v
  | None => Raise (KeyError k)
  end.

(** The report dictionary built by [process_report]. *)
Record report := {
  name : string;
  link : string;
  date_filed : option string;
  office : option string;
  report_type : option string;
  transactions : list (gmap string pyval);
  transaction_count : Z;
  extraction_date : string;
  extraction_success : bool
}.

#[export] Instance report_eq_dec : EqDecision report.
Proof. solve_decision. Defined.

(* ================================================================== *)
(** * The extractor object                                             *)
(* ================================================================== *)

Module Extractor.
Import PyStr Dom Parsers.
Local Open Scope m_scope.

Definition base_url : string := "https://efdsearch.senate.gov".
Definition gate_url : string := base_url +:+ "/search/".
Definition home_marker : string := "eFD: Home".
Definition no_transactions_marker : string := "No transactions".
Definition consent_data : gmap string string := {["agree_statement" := "agree"]}.

(** The default of the [max_retries] parameter. *)
Definition default_max_retries : Z := 5.

Section Methods.
Context {W : Type} {env : Env W}.

Definition sleep (seconds : Z) : M W unit :=
  perform (ESleep seconds) (fun w => (Ok tt, time_sleep seconds w)).

(** [for cookie in cookies: self.session.cookies.set(cookie['name'], cookie['value'])] *)
Fixpoint transfer_cookies (cookies : list (gmap string string)) : M W unit :=
  match cookies with
  | [] => ret tt
  | cookie :: rest =>
      n <- lift (dict_item cookie "name") ;;
      v <- lift (dict_item cookie "value") ;;
      perform (ECookieSet n v) (cookies_set n v) ;;;
      transfer_cookies rest
  end.

(** Strategy 1: load the gate page in the browser, tick the agreement box,
    copy the browser's cookies into the HTTP session. *)
Definition selenium_consent : M W unit :=
  perform (EDriverGet gate_url) (driver_get gate_url) ;;;
  sleep 2 ;;;
  agreement_checkbox <-
    perform (EWaitClickable "agree_statement") (wait_clickable "agree_statement") ;;
  perform EClick (element_click agreement_checkbox) ;;;
  cookies <- perform EGetCookies driver_get_cookies ;;
  transfer_cookies cookies.

(** Strategy 2: request the gate page, find the agreement form and post it.
    [target] builds the address of the post from the form's action.
    [true] when the post was answered with 200. *)
Definition requests_consent (target : string -> string) : M W bool :=
  response <- perform (ESessionGet gate_url) (session_get gate_url) ;;
  if contains "agree_statement" (text response)
  then
    soup <- lift (BeautifulSoup (text response)) ;;
    match find_by_id "form" "agreement_form" soup with
    | Some agreement_form =>
        match attr "action" agreement_form with
        | Some action =>
            if nonempty action
            then
              response <- perform (ESessionPost (target action) consent_data)
                                  (session_post (target action) consent_data) ;;
              ret (status_code response =? 200)%Z
            else ret false
        | None => ret false
        end
    | None => ret false
    end
  else ret false.

Definition establish_session : M W bool :=
  log (ECall "establish_session") ;;;
  done1 <- try_except (selenium_consent ;;; ret true) (fun _ => ret false) ;;
  if done1 then ret true
  else try_except (requests_consent (urljoin base_url)) (fun _ => ret false).

(** The subclass method: the same two strategies behind the
    [session_established] flag. *)
Definition establish_session_once : M W bool :=
  log (ECall "establish_session_once") ;;;
  established <- get_session_established ;;
  if negb established
  then
    done1 <- try_except
               (selenium_consent ;;; set_session_established true ;;; ret true)
               (fun _ => ret false) ;;
    if done1 then ret true
    else
      try_except
        (posted <- requests_consent (fun action => base_url +:+ action) ;;
         if posted then set_session_established true ;;; ret true
         else ret false)
        (fun _ => ret false)
  else ret true.

(** Strategy 1 of an iteration: the browser, with one session refresh and
    one more load when it lands on the home page.  [Some html] when the
    iteration returns the document, [None] when the loop goes on
    ([continue]). *)
Definition render_fetch (url : string) : M W (option string) :=
  perform (EDriverGet url) (driver_get url) ;;;
  sleep 3 ;;;
  title <- perform ETitle driver_title ;;
  if contains home_marker title
  then
    establish_session ;;;
    perform (EDriverGet url) (driver_get url) ;;;
    sleep 3 ;;;
    title <- perform ETitle driver_title ;;
    if contains home_marker title
    then ret None
    else html_content <- perform EPageSource driver_page_source ;;
         ret (Some html_content)
  else html_content <- perform EPageSource driver_page_source ;;
       ret (Some html_content).

(** Strategy 2 of an iteration: a plain HTTP request. *)
Definition direct_fetch (url : string) : M W (option string) :=
  response <- perform (ESessionGet url) (session_get url) ;;
  if (status_code response =? 200)%Z
  then ret (Some (text response))
  else ret None.

(** The [except Exception] handler of an iteration. *)
Definition backoff (max_retries attempt : Z) : M W (option string) :=
  (if (attempt <? max_retries - 1)%Z then sleep (2 ^ attempt) else ret tt) ;;;
  ret None.

(** One iteration of the retry loop. *)
Definition attempt_body (url : string) (max_retries attempt : Z)
  : M W (option string) :=
  try_except
    (log (EAttempt attempt) ;;;
     if (attempt <? 3)%Z then render_fetch url else direct_fetch url)
    (fun _ => backoff max_retries attempt).

Fixpoint attempts_loop (url : string) (max_retries : Z) (attempts : list Z)
  : M W (option string) :=
  match attempts with
  | [] => ret None
  | attempt :: rest =>
      r <- attempt_body url max_retries attempt ;;
      match r with
      | Some html_content => ret (Some html_content)
      | None => attempts_loop url max_retries rest
      end
  end.

(** [range(n)] *)
Definition range (n : Z) : list Z := map Z.of_nat (seq 0 (Z.to_nat n)).

Definition download_report_with_enhanced_retry
           (report_data : gmap string string) (max_retries : Z)
  : M W (option string) :=
  log (ECall "download_report_with_enhanced_retry") ;;;
  url <- lift (dict_item report_data "link") ;;
  _ <- lift (dict_item report_data "name") ;;
  attempts_loop url max_retries (range max_retries).

(** A strategy of the chain, called as a method. *)
Definition invoke {A} (method : string) (r : res A) : M W A :=
  log (ECall method) ;;; lift r.

Definition extract_transactions_with_fallback (html_content : string)
  : M W (list (gmap string pyval)) :=
  log (ECall "extract_transactions_with_fallback") ;;;
  soup <- lift (BeautifulSoup html_content) ;;
  transactions <- invoke "parse_tables" (parse_tables soup) ;;
  transactions <-
    (if bool_decide (transactions = [])
     then invoke "parse_alternative" (Ok (parse_alternative soup))
     else ret transactions) ;;
  transactions <-
    (if bool_decide (transactions = [])
     then invoke "parse_with_regex" (Ok (parse_with_regex html_content))
     else ret transactions) ;;
  ret transactions.

(** The dictionary literal of [process_report]. *)
Definition report_result (report_data : gmap string string)
           (name link : string)
           (transactions : list (gmap string pyval))
           (html_content now : string) : report :=
  {| name := name;
     link := link;
     date_filed := report_data !! "date_filed";
     office := report_data !! "office";
     report_type := report_data !! "report_type";
     transactions := transactions;
     transaction_count := Z.of_nat (length transactions);
     extraction_date := now;
     extraction_success :=
       (0 <? Z.of_nat (length transactions))%Z
       || contains no_transactions_marker html_content |}.

(** [name.replace(' ', '_')] *)
Fixpoint replace_spaces (s : string) : string :=
  match s with
  | EmptyString => EmptyString
  | String c s' =>
      String (if Ascii.eqb c " " then "_"%char else c) (replace_spaces s')
  end.

Definition raw_html_path (name : string) : string :=
  "C:\EMPIRE\SATORI_Scraper\data\raw\senate\" +:+ replace_spaces name +:+ ".html".

Definition process_report (report_data : gmap string string)
  : M W (option report) :=
  log (ECall "process_report") ;;;
  _ <- lift (dict_item report_data "name") ;;
  downloaded <-
    download_report_with_enhanced_retry report_data default_max_retries ;;
  match downloaded with
  | Some (String _ _ as html_content) =>
      transactions <- extract_transactions_with_fallback html_content ;;
      name <- lift (dict_item report_data "name") ;;
      link <- lift (dict_item report_data "link") ;;
      now <- perform ENow (fun w => let '(t, w') := datetime_now_isoformat w in
                                    (Ok t, w')) ;;
      let result := report_result report_data name link transactions
                                  html_content now in
      perform (EWriteFile (raw_html_path name))
              (write_file (raw_html_path name) html_content) ;;;
      ret (Some result)
  | _ => ret None
  end.

End Methods.
End Extractor.

(* ================================================================== *)
(** * Statements in the words of the specification                     *)
(* ================================================================== *)

Module Spec.

(** [p] occurs in [s]. *)
Definition occurs_in (p s : string) : Prop :=
  exists pre post, s = pre +:+ p +:+ post.

(** The first non-empty list of [ls], the empty list when there is none. *)
Fixpoint first_nonempty {A} (ls : list (list A)) : list A :=
  match ls with
  | [] => []
  | [] :: rest => first_nonempty rest
  | l :: _ => l
  end.

(** A transaction carries a [raw_text] that is a non-empty string. *)
Definition raw_text_populated (t : gmap string pyval) : Prop :=
  exists s, t !! "raw_text" = Some (PStr s) /\ s <> EmptyString.

(** The first [Some] of a list of attempts. *)
Fixpoint first_some {A} (l : list (option A)) : option A :=
  match l with
  | [] => None
  | Some a :: _ => Some a
  | None :: rest => first_some rest
  end.

Definition is_attempt (e : event) : bool :=
  match e with
  | EAttempt _ => true
  | _ => false
  end.

(** Iterations of the retry loop started in a trace. *)
Definition attempts_made (tr : list event) : nat :=
  length (List.filter is_attempt tr).

Definition is_call (method : string) (e : event) : bool :=
  match e with
  | ECall m => String.eqb m method
  | _ => false
  end.

(** Calls of a method of the object in a trace. *)
Definition calls_of (method : string) (tr : list event) : nat :=
  length (List.filter (is_call method) tr).

Definition is_fetch (url : string) (e : event) : bool :=
  match e with
  | EDriverGet u => String.eqb u url
  | _ => false
  end.

(** Calls to the outside: everything but the markers [ECall] and [EAttempt]. *)
Definition is_outside (e : event) : bool :=
  match e with
  | ECall _ | EAttempt _ => false
  | _ => true
  end.

(** Every character of [s] is accepted by [p]. *)
Fixpoint all_chars (p : ascii -> bool) (s : string) : bool :=
  match s with
  | EmptyString => true
  | String c s' => p c && all_chars p s'
  end.

(** What a pattern means: [denotes ic r w cs cs'] when the word [w] has the
    shape [r] and the groups go from [cs] to [cs'] on the way. *)
Inductive denotes (ic : bool) : Re.regex -> string -> Re.caps -> Re.caps -> Prop :=
| D_set items c cs :
    Re.cset_mem ic items c = true ->
    denotes ic (Re.RSet items) (String c EmptyString) cs cs
| D_seq r1 r2 w1 w2 cs cs1 cs2 :
    denotes ic r1 w1 cs cs1 -> denotes ic r2 w2 cs1 cs2 ->
    denotes ic (Re.RSeq r1 r2) (w1 +:+ w2) cs cs2
| D_alt_l r1 r2 w cs cs' :
    denotes ic r1 w cs cs' -> denotes ic (Re.RAlt r1 r2) w cs cs'
| D_alt_r r1 r2 w cs cs' :
    denotes ic r2 w cs cs' -> denotes ic (Re.RAlt r1 r2) w cs cs'
| D_rep items lo hi w cs :
    all_chars (Re.cset_mem ic items) w = true ->
    (lo <= String.length w)%nat ->
    (forall h, hi = Some h -> (String.length w <= h)%nat) ->
    denotes ic (Re.RRep items lo hi) w cs cs
| D_opt_some r w cs cs' :
    denotes ic r w cs cs' -> denotes ic (Re.ROpt r) w cs cs'
| D_opt_none r cs :
    denotes ic (Re.ROpt r) EmptyString cs cs
| D_group n r w cs cs' :
    denotes ic r w cs cs' -> denotes ic (Re.RGroup n r) w cs ((n, w) :: cs').

(** One to five capital letters A-Z. *)
Definition upper_code (k : string) : Prop :=
  (1 <= String.length k <= 5)%nat /\ all_chars PyStr.is_upper_AZ k = true.

(** [k] stands in [t] between an opening and a closing bracket. *)
Definition bracketed_code (t k : string) : Prop :=
  exists pre o c post,
    t = pre +:+ String o (k +:+ String c post)
    /\ (o = "("%char \/ o = "["%char) /\ (c = ")"%char \/ c = "]"%char)
    /\ upper_code k.

(** [k] stands in [t] before a hyphen, white space allowed in between. *)
Definition code_then_hyphen (t k : string) : Prop :=
  exists pre ws post,
    t = pre +:+ k +:+ ws +:+ String "-" post
    /\ all_chars PyStr.is_space ws = true /\ upper_code k.

(** [k] stands in [t] after a hyphen, white space allowed in between. *)
Definition hyphen_then_code (t k : string) : Prop :=
  exists pre ws post,
    t = pre +:+ String "-" (ws +:+ k +:+ post)
    /\ all_chars PyStr.is_space ws = true /\ upper_code k.

(** A data row is long enough for a table with [n_headers] header cells: it
    is skipped (fewer than three cells) or has a cell under every header. *)
Definition row_fits (n_headers : nat) (row : Dom.node) : Prop :=
  let cells := Dom.find_all ["td"; "th"] row in
  (3 <= length cells -> n_headers <= length cells)%nat.

Definition table_fits (table : Dom.node) : Prop :=
  match Dom.find_all ["tr"] table with
  | row0 :: data_rows =>
      Forall (row_fits (length (Dom.find_all ["th"; "td"] row0))) data_rows
  | [] => True
  end.

(** The object with the world replaced. *)
Definition with_world {W} (s : state W) (w : W) : state W :=
  {| world := w; session_established := session_established s |}.

(** Every call in the trace of [m] satisfies [P], and [m] leaves the
    [session_established] flag alone. *)
Definition behaves {W A} (P : event -> Prop) (m : M W A) : Prop :=
  forall s, Forall P (m s).2
            /\ session_established (m s).1.2 = session_established s.

(** [m] ends without an exception from every state. *)
Definition total {W A} (m : M W A) : Prop :=
  forall s, exists a, (m s).1.1 = Ok a.

End Spec.

(* ================================================================== *)
(** * Concrete documents and a small world                             *)
(* ================================================================== *)

Module Scenarios.
Import Dom.

Definition cell (tag text : string) : node := Elem tag ∅ [Text text].
Definition tr (tag : string) (texts : list string) : node :=
  Elem "tr" ∅ (map (cell tag) texts).
Definition document (body : list node) : node := Elem "[document]" ∅ body.

(** The table of the specification's scenario. *)
Definition jane_doe_headers : list string :=
  ["First Name"; "Last Name"; "Asset"; "Transaction Type"; "Date"].
Definition jane_doe_row : list string :=
  ["Jane"; "Doe"; "Apple Inc (AAPL) - Purchase"; "Purchase"; "01/02/2023"].
Definition jane_doe_doc : node :=
  document [Elem "table" ∅ [tr "th" jane_doe_headers; tr "td" jane_doe_row]].

(** [<table><tr><th>Asset</th><th>Type</th><th>Date</th><th>Amount</th></tr>
     <tr><td>Apple Inc (AAPL)</td><td>Purchase</td><td>01/02/2023</td></tr></table>]:
    four mapped columns, a data row of three cells. *)
Definition short_row_doc : node :=
  document [Elem "table" ∅
              [tr "th" ["Asset"; "Type"; "Date"; "Amount"];
               tr "td" ["Apple Inc (AAPL)"; "Purchase"; "01/02/2023"]]].

(** A table whose rows all have their cells. *)
Definition full_row_doc : node :=
  document [Elem "table" ∅
              [tr "th" ["Asset"; "Type"; "Date"; "Amount"];
               tr "td" ["Apple Inc (AAPL)"; "Purchase"; "01/02/2023"; "$1,001"]]].

(** What the table tier makes of the scenario's row. *)
Definition jane_doe_transaction : gmap string pyval :=
  <["date" := PStr "01/02/2023"]>
  (<["transaction_type" := PStr "Purchase"]>
  (<["ticker" := PNone]>
  (<["asset" := PStr "Jane"]>
  (<["cell_count" := PInt 5]>
  (<["raw_text" :=
       PStr "Jane | Doe | Apple Inc (AAPL) - Purchase | Purchase | 01/02/2023"]>
     ∅))))).

Definition goldman_text : string :=
  "Goldman Sachs Group Purchase 03/04/2022 $1,001-$15,000".

(** [<div class="transaction">Spouse Apple Inc <b>Purchase</b> 1/2/2023 $1,000</div>] *)
Definition spouse_div_doc : node :=
  document [Elem "div" {["class" := "transaction"]}
              [Text "Spouse Apple Inc "; Elem "b" ∅ [Text "Purchase"];
               Text " 1/2/2023 $1,000"]].

Definition self_owned (asset type date amount : string) : gmap string pyval :=
  <["relationship" := PStr "self"]>
  (<["owner" := PStr "self"]>
  (<["ticker" := PNone]>
  (<["amount" := PStr amount]>
  (<["date" := PStr date]>
  (<["transaction_type" := PStr type]>
  (<["asset" := PStr asset]> ∅)))))).

(** What the heuristic tier makes of [spouse_div_doc]. *)
Definition spouse_transaction : gmap string pyval :=
  self_owned "Spouse Apple IncPurchase" "Purchase" "1/2/2023" "$1,000".

(** What the regex tier makes of [goldman_text]. *)
Definition goldman_transaction : gmap string pyval :=
  self_owned "Goldman Sachs Group" "Purchase" "03/04/2022" "$1,001-$15,000".

(** What the table tier makes of [full_row_doc]. *)
Definition full_row_transaction : gmap string pyval :=
  <["amount" := PStr "$1,001"]>
  (<["date" := PStr "01/02/2023"]>
  (<["transaction_type" := PStr "Purchase"]>
  (<["ticker" := PStr "AAPL"]>
  (<["asset" := PStr "Apple Inc (AAPL)"]>
  (<["cell_count" := PInt 4]>
  (<["raw_text" := PStr "Apple Inc (AAPL) | Purchase | 01/02/2023 | $1,001"]>
     ∅)))))).

(** A world for examples: the browser is reachable or not, shows the queued
    titles one after the other, and serves one page; the gate never offers a
    clickable box and the HTTP session answers with [http_status].  Its
    parser reads a document as one string of text, which is what the HTML
    parser makes of a document without tags. *)
Record toy := {
  online : bool;
  titles : list string;
  page : string;
  http_status : Z
}.

Definition net_down : exn := ExtError "WebDriverException".

#[export] Instance toy_env : Env toy := {|
  driver_get _ w := (if online w then Ok tt else Raise net_down, w);
  driver_title w :=
    match titles w with
    | t :: rest =>
        (Ok t, {| online := online w; titles := rest; page := page w;
                  http_status := http_status w |})
    | [] => (Ok EmptyString, w)
    end;
  driver_page_source w := (Ok (page w), w);
  wait_clickable _ w := (Raise (ExtError "TimeoutException"), w);
  element_click _ w := (Ok tt, w);
  driver_get_cookies w := (Ok [], w);
  cookies_set _ _ w := (Ok tt, w);
  session_get _ w :=
    (if online w
     then Ok {| status_code := http_status w; text := page w |}
     else Raise (ExtError "ConnectionError"), w);
  session_post _ _ w :=
    (if online w
     then Ok {| status_code := http_status w; text := page w |}
     else Raise (ExtError "ConnectionError"), w);
  time_sleep _ w := w;
  datetime_now_isoformat w := ("2024-01-01T00:00:00", w);
  write_file _ _ w := (Ok tt, w);
  BeautifulSoup html := Ok (document [Text html]);
  urljoin base action := base +:+ action
|}.

Definition toy_state (w : toy) (established : bool) : state toy :=
  {| world := w; session_established := established |}.

Definition offline : toy :=
  {| online := false; titles := []; page := EmptyString; http_status := 503 |}.

(** The browser is sent to the home page twice in a row. *)
Definition bounced_twice : toy :=
  {| online := true; titles := ["eFD: Home"; "eFD: Home"];
     page := goldman_text; http_status := 200 |}.

(** [bounced_twice] after its first title has been read. *)
Definition bounced_once : toy :=
  {| online := true; titles := ["eFD: Home"];
     page := goldman_text; http_status := 200 |}.

Definition some_url : string :=
  "https://efdsearch.senate.gov/search/view/ptr/1/".

Definition some_report : gmap string string :=
  {["link" := some_url; "name" := "Jane Doe"]}.

(** The report of [some_report] when the document is [goldman_text]. *)
Definition goldman_report : report :=
  Extractor.report_result some_report "Jane Doe" some_url
    [goldman_transaction] goldman_text "2024-01-01T00:00:00".

End Scenarios.

(* ================================================================== *)
(** * The scraper object (the subclass)                                *)
(* ================================================================== *)

(** [process_direct_url], [extract_report_links_dynamic] and
    [process_reports] of [enhanced_senate_scraper_with_direct_url.py].

    - The JSON that the results table and the search API hand over is read
      as a list of records, each a list of strings; an answer of another
      shape is an exception of the operation that reads it.
    - The traces keep to the calls of [event]: the clock, the page source,
      the posts and the files written are recorded; creating a directory,
      waiting for the processing indicator, running the script and writing
      into a file that is already open are run against the world without a
      mark in the trace ([unrecorded]). *)

(** [str(v)] of a value. *)
Definition py_str (v : pyval) : string :=
  match v with
  | PNone => "None"
  | PStr s => s
  | PInt z => pretty z
  | PBool b => if b then "True" else "False"
  end.

(** The batch summary of [process_reports]. *)
Record summary := {
  batch_name : string;
  processing_date : string;
  total_reports : Z;
  successful_reports : Z;
  total_transactions : Z;
  reports : list report
}.

(** What [json.dump] is given. *)
Inductive dumped :=
| DReport (r : report)
| DSummary (b : summary).

(** What the scraper needs beyond [Env]. *)
Class ScraperEnv (W : Type) := {
  (** [str(self.raw_dir)] *)
  raw_dir : string;
  (** [str(Path(dir) / name)] *)
  path_join : string -> string -> string;
  (** [datetime.now().strftime(fmt)] *)
  datetime_now_strftime : string -> W -> string * W;
  (** [Path(dir).mkdir(exist_ok=True)] *)
  mkdir_exist_ok : string -> W -> res unit * W;
  (** [with open(path, 'w', encoding='utf-8') as f: json.dump(obj, f, indent=2)] *)
  json_dump_file : string -> dumped -> W -> res unit * W;
  (** [open(path, "w", encoding="utf-8")] *)
  open_for_writing : string -> W -> res unit * W;
  (** [f.write(content)] on the file opened at [path] *)
  file_write : string -> string -> W -> res unit * W;
  (** [WebDriverWait(driver, 5).until(EC.presence_of_element_located((By.ID, id)))] *)
  wait_presence : string -> W -> res unit * W;
  (** [WebDriverWait(driver, 30).until(EC.invisibility_of_element_located((By.ID, id)))] *)
  wait_invisibility : string -> W -> res unit * W;
  (** [json.loads(driver.execute_script(script))] *)
  execute_script_json : string -> W -> res (list (list string)) * W;
  (** [response.json().get('data', [])] *)
  response_json_data : response -> res (list (list string))
}.

(** How a strategy of [extract_report_links_dynamic] ends: with
    [return reports], or by falling through to the next one; either way with
    the list as it stands. *)
Inductive flow :=
| Return (reports : list (gmap string string))
| Continue (reports : list (gmap string string)).

Module Scraper.
Import PyStr Dom Parsers Extractor.
Local Open Scope m_scope.

(** A call to the outside that leaves no mark in the trace. *)
Definition unrecorded {W A} (op : W -> res A * W) : M W A :=
  fun s =>
    let '(r, w) := op (world s) in
    (r, {| world := w; session_established := session_established s |}, []).

(** The report data that [process_direct_url] makes up for an address. *)
Definition direct_report_data (url : string) : gmap string string :=
  <["report_type" := "Periodic Transaction Report"]>
  (<["office" := "Unknown"]>
  (<["date_filed" := "Unknown"]>
  (<["link" := url]>
  (<["name" := "Direct URL Report"]> ∅)))).

Definition with_name (result : report) (new_name : string) : report :=
  {| name := new_name;
     link := link result;
     date_filed := date_filed result;
     office := office result;
     report_type := report_type result;
     transactions := transactions result;
     transaction_count := transaction_count result;
     extraction_date := extraction_date result;
     extraction_success := extraction_success result |}.

(** The renaming of the result after the owner of its first transaction. *)
Definition name_after_owner (result : report) : report :=
  match transactions result with
  | first_transaction :: _ =>
      match first_transaction !! "owner" with
      | Some owner =>
          with_name result ("Direct URL Report (" +:+ py_str owner +:+ ")")
      | None => result
      end
  | [] => result
  end.

(** [name.replace(',', '')] *)
Fixpoint remove_commas (s : string) : string :=
  match s with
  | EmptyString => EmptyString
  | String c s' =>
      if Ascii.eqb c "," then remove_commas s' else String c (remove_commas s')
  end.

Definition report_file_name (name : string) : string :=
  remove_commas (replace_spaces name) +:+ ".json".

(** [sum(r['transaction_count'] for r in processed_reports)] *)
Definition sum_counts (processed_reports : list report) : Z :=
  fold_left Z.add (map transaction_count processed_reports) 0%Z.

Definition batch_summary (batch_name now : string)
           (reports : list (gmap string string))
           (processed_reports : list report) : summary :=
  {| batch_name := batch_name;
     processing_date := now;
     total_reports := Z.of_nat (length reports);
     successful_reports := Z.of_nat (length processed_reports);
     total_transactions := sum_counts processed_reports;
     reports := processed_reports |}.

Definition results_page_path (stamp : string) : string :=
  "C:\EMPIRE\SATORI_Scraper\results_page_" +:+ stamp +:+ ".html".

Definition api_url : string := base_url +:+ "/search/report/data/".

(** The form that strategy 2 posts. *)
Definition api_data (start_date end_date : string) : gmap string string :=
  <["last_name" := EmptyString]>
  (<["first_name" := EmptyString]>
  (<["office_id" := EmptyString]>
  (<["senator_state" := EmptyString]>
  (<["candidate_state" := EmptyString]>
  (<["submitted_end_date" := end_date +:+ " 23:59:59"]>
  (<["submitted_start_date" := start_date +:+ " 00:00:00"]>
  (<["filer_types" := "[]"]>
  (<["report_types" := "[7]"]> ∅)))))))).

(** A report of the search results. *)
Definition found_report (name office report_type date_filed link : string)
  : gmap string string :=
  <["link" := link]>
  (<["date_filed" := date_filed]>
  (<["report_type" := report_type]>
  (<["office" := office]>
  (<["name" := name]> ∅)))).

Section Methods.
Context {W : Type} {env : Env W} {senv : ScraperEnv W}.

Definition now_strftime (fmt : string) : M W string :=
  perform ENow (fun w => let '(t, w') := datetime_now_strftime fmt w in
                         (Ok t, w')).

Definition now_isoformat : M W string :=
  perform ENow (fun w => let '(t, w') := datetime_now_isoformat w in
                         (Ok t, w')).

Definition process_direct_url (url : string) : M W (option report) :=
  log (ECall "process_direct_url") ;;;
  established <- establish_session_once ;;
  if negb established then ret None
  else
    let report_data := direct_report_data url in
    result <- process_report report_data ;;
    match result with
    | Some result =>
        let result := name_after_owner result in
        stamp <- now_strftime "%Y%m%d_%H%M%S" ;;
        let filename := "direct_url_" +:+ stamp +:+ ".json" in
        let filepath := path_join raw_dir filename in
        perform (EWriteFile filepath) (json_dump_file filepath (DReport result)) ;;;
        ret (Some result)
    | None => ret None
    end.

(** The link of the first [<a>] of a piece of HTML:
    [f"{self.base_url}{link_elem['href']}"], or [None]; the parser may
    reject the piece. *)
Definition link_of (link_html : string) : res (option string) :=
  (soup <- BeautifulSoup link_html ;;
   Ok (match find_all ["a"] soup with
       | link_elem :: _ =>
           match attr "href" link_elem with
           | Some href => Some (base_url +:+ href)
           | None => None
           end
       | [] => None
       end))%res.

(** One record of the DataTable (strategy 1): the report it stands for, if
    it has a link. *)
Definition js_record (record : list string) : res (option (gmap string string)) :=
  (link <- (if (5 <=? length record)%nat
           then link_html <- py_index record 3 ;; link_of link_html
           else Ok None) ;;
  match link with
  | Some link =>
      r1 <- py_index record 1 ;;
      r0 <- py_index record 0 ;;
      r2 <- py_index record 2 ;;
      r3 <- py_index record 3 ;;
      r4 <- py_index record 4 ;;
      Ok (Some (found_report (r1 +:+ " " +:+ r0) r2 (strip r3) r4 link))
  | None => Ok None
  end)%res.

(** One record of the API answer (strategy 2). *)
Definition api_record (record : list string) : res (option (gmap string string)) :=
  (link <- (if (5 <=? length record)%nat
           then link_html <- py_index record 4 ;; link_of link_html
           else Ok None) ;;
  match link with
  | Some link =>
      r1 <- py_index record 1 ;;
      r0 <- py_index record 0 ;;
      r2 <- py_index record 2 ;;
      r3 <- py_index record 3 ;;
      r5 <- py_index record 5 ;;
      Ok (Some (found_report (r1 +:+ " " +:+ r0) r2 r3 r5 link))
  | None => Ok None
  end)%res.

(** [for record in data: ...] with [reports.append(report)]: the list as it
    stands when the loop ends or is left by an exception. *)
Fixpoint records_loop (body : list string -> res (option (gmap string string)))
         (data : list (list string)) (reports : list (gmap string string))
  : res unit * list (gmap string string) :=
  match data with
  | [] => (Ok tt, reports)
  | record :: rest =>
      match body record with
      | Ok (Some report) => records_loop body rest (reports ++ [report])
      | Ok None => records_loop body rest reports
      | Raise e => (Raise e, reports)
      end
  end.

(** One row of the results table (strategy 3). *)
Definition table_row (row : node) : res (option (gmap string string)) :=
  (let cells := find_all ["td"; "th"] row in
  if (5 <=? length cells)%nat
  then
    c0 <- py_index cells 0 ;;
    c1 <- py_index cells 1 ;;
    let name := get_text_strip c0 +:+ " " +:+ get_text_strip c1 in
    c2 <- py_index cells 2 ;;
    let office := get_text_strip c2 in
    report_type_cell <- py_index cells 3 ;;
    match find_all ["a"] report_type_cell with
    | link_elem :: _ =>
        match attr "href" link_elem with
        | Some href =>
            let report_type := get_text_strip link_elem in
            c4 <- py_index cells 4 ;;
            let date_filed := get_text_strip c4 in
            Ok (Some (found_report name office report_type date_filed
                                   (base_url +:+ href)))
        | None => Ok None
        end
    | [] => Ok None
    end
  else Ok None)%res.

(** [for i, row in enumerate(rows): try: ... except Exception: ...] *)
Fixpoint result_rows_loop (rows : list node) (reports : list (gmap string string))
  : list (gmap string string) :=
  match rows with
  | [] => reports
  | row :: rest =>
      match table_row row with
      | Ok (Some report) => result_rows_loop rest (reports ++ [report])
      | Ok None => result_rows_loop rest reports
      | Raise _ => result_rows_loop rest reports
      end
  end.

Definition list_truthy {A} (l : list A) : bool :=
  match l with
  | [] => false
  | _ :: _ => true
  end.

(** The "No matching reports" row. *)
Definition no_matching (rows : list node) : bool :=
  match rows with
  | [row] => contains "no matching filed reports" (lower (get_text_strip row))
  | _ => false
  end.

Definition save_results_page : M W unit :=
  stamp <- now_strftime "%Y%m%d_%H%M%S" ;;
  let html_path := results_page_path stamp in
  perform (EWriteFile html_path) (open_for_writing html_path) ;;;
  page_source <- perform EPageSource driver_page_source ;;
  unrecorded (file_write html_path page_source).

Definition wait_for_processing : M W unit :=
  unrecorded (wait_presence "filedReports_processing") ;;;
  unrecorded (wait_invisibility "filedReports_processing").

Definition js_script : string :=
  "
            var table = #filedReports.DataTable();
            var data = table.data().toArray();
            return JSON.stringify(data);
            ".

(** Strategy 1: the records of the DataTable. *)
Definition js_strategy (reports : list (gmap string string)) : M W flow :=
  try_except
    (data <- unrecorded (execute_script_json js_script) ;;
     match records_loop js_record data reports with
     | (Ok _, reports) =>
         if list_truthy reports then ret (Return reports)
         else ret (Continue reports)
     | (Raise _, reports) => ret (Continue reports)
     end)
    (fun _ => ret (Continue reports)).

(** Strategy 2: the request that the DataTable makes. *)
Definition api_strategy (start_date end_date : string)
           (reports : list (gmap string string)) : M W flow :=
  try_except
    (response <- perform (ESessionPost api_url (api_data start_date end_date))
                         (session_post api_url (api_data start_date end_date)) ;;
     if (status_code response =? 200)%Z
     then
       data <- lift (response_json_data response) ;;
       match records_loop api_record data reports with
       | (Ok _, reports) =>
           if list_truthy reports then ret (Return reports)
           else ret (Continue reports)
       | (Raise _, reports) => ret (Continue reports)
       end
     else ret (Continue reports))
    (fun _ => ret (Continue reports)).

(** Strategy 3: the rows of the table as it is in the page. *)
Definition table_strategy (reports : list (gmap string string))
  : M W (list (gmap string string)) :=
  try_except
    (page_source <- perform EPageSource driver_page_source ;;
     soup <- lift (BeautifulSoup page_source) ;;
     match find_by_id "table" "filedReports" soup with
     | None => ret reports
     | Some table =>
         let rows :=
           match find_all ["tbody"] table with
           | tbody :: _ => find_all ["tr"] tbody
           | [] => tail (find_all ["tr"] table)
           end in
         if no_matching rows then ret reports
         else ret (result_rows_loop rows reports)
     end)
    (fun _ => ret reports).

Definition extract_report_links_dynamic (start_date end_date : string)
  : M W (list (gmap string string)) :=
  log (ECall "extract_report_links_dynamic") ;;;
  try_except save_results_page (fun _ => ret tt) ;;;
  try_except wait_for_processing (fun _ => ret tt) ;;;
  sleep 3 ;;;
  after_js <- js_strategy [] ;;
  match after_js with
  | Return reports => ret reports
  | Continue reports =>
      after_api <- api_strategy start_date end_date reports ;;
      match after_api with
      | Return reports => ret reports
      | Continue reports => table_strategy reports
      end
  end.

(** The loop of [process_reports]. *)
Fixpoint reports_loop (batch_dir : string) (reports : list (gmap string string))
         (processed_reports : list report) : M W (list report) :=
  match reports with
  | [] => ret processed_reports
  | report :: rest =>
      _ <- lift (dict_item report "name") ;;
      result <- process_report report ;;
      processed_reports <-
        match result with
        | Some result =>
            name <- lift (dict_item report "name") ;;
            let filepath := path_join batch_dir (report_file_name name) in
            perform (EWriteFile filepath)
                    (json_dump_file filepath (DReport result)) ;;;
            ret (processed_reports ++ [result])
        | None =>
            _ <- lift (dict_item report "name") ;;
            ret processed_reports
        end ;;
      sleep 1 ;;;
      reports_loop batch_dir rest processed_reports
  end.

Definition process_reports (reports : list (gmap string string))
           (batch_name : string) : M W unit :=
  log (ECall "process_reports") ;;;
  let batch_dir := path_join raw_dir batch_name in
  unrecorded (mkdir_exist_ok batch_dir) ;;;
  processed_reports <- reports_loop batch_dir reports [] ;;
  now <- now_isoformat ;;
  let summary := batch_summary batch_name now reports processed_reports in
  let summary_file := path_join batch_dir "summary.json" in
  perform (EWriteFile summary_file)
          (json_dump_file summary_file (DSummary summary)) ;;;
  ret tt.

End Methods.
End Scraper.

(* ================================================================== *)
(** * Further notions used to state properties                         *)
(* ================================================================== *)

Module Notions.
Import PyStr.

(** Some word of [ws] occurs in [text]. *)
Definition mentions (ws : list string) (text : string) : Prop :=
  exists w, In w ws /\ Spec.occurs_in w text.

(** The key words of [identify_transaction_owner], by category. *)
Definition spouse_words : list string :=
  ["spouse"; "husband"; "wife"; "joint"; "spousal"].
Definition child_words : list string :=
  ["child"; "son"; "daughter"; "dependent"; "minor"].
Definition family_words : list string := ["family"; "trust"; "estate"].

(** The key words of [is_likely_transaction]. *)
Definition transaction_words : list string :=
  ["purchase"; "sale"; "exchange"; "asset"; "security"; "$"; "ticker"].

(** The synonyms of a field in the table of [create_header_map]. *)
Fixpoint synonyms_in (table : list (string * list string)) (field : string)
  : option (list string) :=
  match table with
  | [] => None
  | (f, names) :: rest =>
      if String.eqb f field then Some names else synonyms_in rest field
  end.

Definition synonyms : string -> option (list string) :=
  synonyms_in Parsers.field_mappings.

(** [idx] is the first column whose header contains one of [names]. *)
Definition first_column (names : list string) (headers : list string)
           (idx : nat) : Prop :=
  (exists h, headers !! idx = Some h /\ Fields.any_in names h = true)
  /\ forall j h, (j < idx)%nat -> headers !! j = Some h ->
                 Fields.any_in names h = false.

(** The fields whose column [extract_transaction_from_cells] reads. *)
Definition read_fields : list string :=
  ["asset"; "transaction_type"; "date"; "amount"; "owner"].

(** [field] of [t] is the text of its mapped column, and is absent when the
    field is not mapped. *)
Definition holds_column (header_map : gmap string nat) (texts : list string)
           (field : string) (t : gmap string pyval) : Prop :=
  match header_map !! field with
  | Some idx => exists v, texts !! idx = Some v /\ t !! field = Some (PStr v)
  | None => t !! field = None
  end.

(** Some field that is read is mapped to a column that [cells] lacks. *)
Definition out_of_row (header_map : gmap string nat) (cells : list Dom.node)
  : Prop :=
  exists field idx,
    In field read_fields /\ header_map !! field = Some idx
    /\ (length cells <= idx)%nat.

(** A data row that is looked at (three cells or more) and lacks a column. *)
Definition row_breaks (header_map : gmap string nat) (row : Dom.node) : Prop :=
  let cells := Dom.find_all ["td"; "th"] row in
  (3 <= length cells)%nat /\ out_of_row header_map cells.

(** A table of at least two rows with such a data row under its header. *)
Definition table_breaks (table : Dom.node) : Prop :=
  match Dom.find_all ["tr"] table with
  | row0 :: ((_ :: _) as data_rows) =>
      Exists (row_breaks
                (Parsers.create_header_map
                   (map (fun th => lower (Dom.get_text_strip th))
                        (Dom.find_all ["th"; "td"] row0))))
             data_rows
  | _ => False
  end.





(** The consent posts of a trace go to [target action] and carry
    [consent_data]. *)
Definition consent_posts (target : string -> string) (e : event) : Prop :=
  match e with
  | ESessionPost url data => data = Extractor.consent_data /\ exists action, url = target action
  | _ => True
  end.

(** In no run does [m] call [method] more than [n] times. *)
Definition at_most_calls {W A} (method : string) (n : nat) (m : M W A) : Prop :=
  forall s, (Spec.calls_of method (m s).2 <= n)%nat.

(** What a download may do: announce itself, start an attempt, refresh the
    session and talk to the browser and the HTTP session; it neither reads
    the clock nor writes a file nor calls another method. *)
Definition is_download_event (e : event) : bool :=
  match e with
  | ECall m =>
      String.eqb m "download_report_with_enhanced_retry"
      || String.eqb m "establish_session"
  | ENow | EWriteFile _ => false
  | _ => true
  end.

Definition is_write (e : event) : bool :=
  match e with
  | EWriteFile _ => true
  | _ => false
  end.

(** What acquiring the session may do: announce itself and talk to the
    browser and the HTTP session. *)
Definition is_session_event (e : event) : bool :=
  match e with
  | ECall m =>
      String.eqb m "establish_session_once" || String.eqb m "establish_session"
  | ENow | EWriteFile _ | EAttempt _ => false
  | _ => true
  end.

(** A reference as the search hands it on: the five keys, the link on the
    site. *)
Definition complete_reference (r : gmap string string) : Prop :=
  exists name office report_type date_filed href,
    r = Scraper.found_report name office report_type date_filed
          (Extractor.base_url +:+ href).

(** The parser rejects field [i] of a record of five fields or more, with
    the exception [e]. *)
Definition rejected_at {W} {env : Env W} (i : nat) (e : exn)
           (record : list string) : Prop :=
  (5 <= length record)%nat
  /\ exists link_html,
       record !! i = Some link_html /\ BeautifulSoup link_html = Raise e.

(** The parser accepts field [i] of a record, where the record has one. *)
Definition parsed_at {W} {env : Env W} (i : nat) (record : list string)
  : Prop :=
  forall link_html,
    record !! i = Some link_html -> exists soup, BeautifulSoup link_html = Ok soup.

(** A record of five fields whose fifth holds a link. *)
Definition five_with_link {W} {env : Env W} (record : list string) : Prop :=
  length record = 5%nat
  /\ exists link_html link,
       record !! 4%nat = Some link_html
       /\ Scraper.link_of link_html = Ok (Some link).

(** The transactions of a list of reports, counted. *)
Definition transactions_in (rs : list report) : Z :=
  fold_right Z.add 0%Z (map (fun r => Z.of_nat (length (transactions r))) rs).

(** [r] is the report of one of the references. *)
Definition report_of (refs : list (gmap string string)) (r : report) : Prop :=
  exists ref,
    In ref refs /\ ref !! "name" = Some (name r) /\ ref !! "link" = Some (link r)
    /\ transaction_count r = Z.of_nat (length (transactions r)).

(** The name that [process_direct_url] gives a report with these
    transactions. *)
Definition direct_name (txs : list (gmap string pyval)) : string :=
  match txs with
  | first_transaction :: _ =>
      match first_transaction !! "owner" with
      | Some owner => "Direct URL Report (" +:+ py_str owner +:+ ")"
      | None => "Direct URL Report"
      end
  | [] => "Direct URL Report"
  end.

(** [m] leaves the flag of the subclass alone, and what it returns
    satisfies [Q]. *)
Definition keeps {W A} (Q : A -> Prop) (m : M W A) : Prop :=
  forall s,
    session_established (m s).1.2 = session_established s
    /\ forall a, (m s).1.1 = Ok a -> Q a.

(** The list that a strategy hands on. *)
Definition flow_reports (f : flow) : list (gmap string string) :=
  match f with
  | Return reports | Continue reports => reports
  end.

(** [d1/d2/yyyy] with one or two digits for [d1] and [d2], four for [yyyy]. *)
Definition date_like (d : string) : Prop :=
  exists d1 d2 y,
    d = d1 +:+ String "/" (d2 +:+ String "/" y)
    /\ Spec.all_chars is_digit d1 = true /\ (1 <= String.length d1 <= 2)%nat
    /\ Spec.all_chars is_digit d2 = true /\ (1 <= String.length d2 <= 2)%nat
    /\ Spec.all_chars is_digit y = true /\ String.length y = 4%nat.

(** A dollar sign followed by at least one digit or comma. *)
Definition dollars_like (a : string) : Prop :=
  exists c rest, a = String "$" (String c rest)
                 /\ (is_digit c = true \/ c = ","%char).

Definition is_letter_or_space (c : ascii) : bool :=
  in_range "A" "Z" c || in_range "a" "z" c || is_space c.

(** A pattern without capturing groups. *)
Fixpoint group_free (r : Re.regex) : bool :=
  match r with
  | Re.RSet _ | Re.RRep _ _ _ => true
  | Re.RSeq r1 r2 | Re.RAlt r1 r2 => group_free r1 && group_free r2
  | Re.ROpt r1 => group_free r1
  | Re.RGroup _ _ => false
  end.

(** One of the three transaction words, in any mix of cases. *)
Definition type_word (w : string) : Prop :=
  lower w = "purchase" \/ lower w = "sale" \/ lower w = "exchange".

End Notions.

(* ================================================================== *)
(** * Further concrete inputs                                          *)
(* ================================================================== *)

Module MoreScenarios.
Import Dom Scenarios.

(** A block that spells out a ticker in brackets. *)
Definition apple_block_text : string :=
  "Apple Inc (AAPL) Purchase 1/2/2023 $1,000".

(** What [parse_transaction_text] makes of it. *)
Definition apple_block_transaction : gmap string pyval :=
  self_owned "Apple Inc" "Purchase" "1/2/2023" "$1,000".

(** The cells of the data row of [full_row_doc] and the header map of its
    header row. *)
Definition full_row_cells : list node :=
  map (cell "td") ["Apple Inc (AAPL)"; "Purchase"; "01/02/2023"; "$1,001"].

Definition full_row_map : gmap string nat :=
  {["asset" := 0%nat; "transaction_type" := 1%nat; "date" := 2%nat;
    "amount" := 3%nat]}.

(** The small world as the scraper sees it: the clock stands still, every
    file can be written, there is no processing indicator, the script fails
    and the search API answers with [api_records]. *)
Definition api_records : list (list string) :=
  [["Doe"; "Jane"; "Senator"; "PTR"; "<a href='/search/view/ptr/1/'>PTR</a>";
    "01/02/2023"];
   ["Roe"; "Richard"; "Senator"; "PTR"; "<a href='/search/view/ptr/2/'>PTR</a>"]].

#[export] Instance toy_scraper_env : ScraperEnv toy := {|
  raw_dir := "raw";
  path_join dir file := dir +:+ "/" +:+ file;
  datetime_now_strftime _ w := ("20240101_000000", w);
  mkdir_exist_ok _ w := (Ok tt, w);
  json_dump_file _ _ w := (Ok tt, w);
  open_for_writing _ w := (Ok tt, w);
  file_write _ _ w := (Ok tt, w);
  wait_presence _ w := (Raise (ExtError "TimeoutException"), w);
  wait_invisibility _ w := (Ok tt, w);
  execute_script_json _ w := (Raise (ExtError "JavascriptException"), w);
  response_json_data _ := Ok api_records
|}.

(** The small world with a parser that reads every document as
    [short_row_doc]. *)
Definition short_row_env : Env toy := {|
  driver_get := driver_get (Env := toy_env);
  driver_title := driver_title (Env := toy_env);
  driver_page_source := driver_page_source (Env := toy_env);
  wait_clickable := wait_clickable (Env := toy_env);
  element_click := element_click (Env := toy_env);
  driver_get_cookies := driver_get_cookies (Env := toy_env);
  cookies_set := cookies_set (Env := toy_env);
  session_get := session_get (Env := toy_env);
  session_post := session_post (Env := toy_env);
  time_sleep := time_sleep (Env := toy_env);
  datetime_now_isoformat := datetime_now_isoformat (Env := toy_env);
  write_file := write_file (Env := toy_env);
  BeautifulSoup _ := Ok short_row_doc;
  urljoin := urljoin (Env := toy_env)
|}.

(** The browser delivers the document at once. *)
Definition at_once : toy :=
  {| online := true; titles := ["Report"]; page := goldman_text;
     http_status := 200 |}.

(** [at_once] after the title has been read. *)
Definition at_once_read : toy :=
  {| online := true; titles := []; page := goldman_text; http_status := 200 |}.

Definition other_report : gmap string string :=
  {["link" := some_url; "name" := "Roe, Richard"]}.

(** The calls of a download that succeeds at once. *)
Definition download_at_once : list event :=
  [ECall "download_report_with_enhanced_retry"; EAttempt 0;
   EDriverGet some_url; ESleep 3; ETitle; EPageSource].

(** The batch of the one reference [some_report]. *)
Definition one_report_batch : list event :=
  [ECall "process_reports"; ECall "process_report"] ++ download_at_once
  ++ [ECall "extract_transactions_with_fallback"; ECall "parse_tables";
      ECall "parse_alternative"; ECall "parse_with_regex"; ENow;
      EWriteFile "C:\EMPIRE\SATORI_Scraper\data\raw\senate\Jane_Doe.html";
      EWriteFile "raw/daily/Jane_Doe.json"; ESleep 1; ENow;
      EWriteFile "raw/daily/summary.json"].

(** The small world with a parser that finds the same link in every piece
    of HTML. *)
Definition link_env : Env toy := {|
  driver_get := driver_get (Env := toy_env);
  driver_title := driver_title (Env := toy_env);
  driver_page_source := driver_page_source (Env := toy_env);
  wait_clickable := wait_clickable (Env := toy_env);
  element_click := element_click (Env := toy_env);
  driver_get_cookies := driver_get_cookies (Env := toy_env);
  cookies_set := cookies_set (Env := toy_env);
  session_get := session_get (Env := toy_env);
  session_post := session_post (Env := toy_env);
  time_sleep := time_sleep (Env := toy_env);
  datetime_now_isoformat := datetime_now_isoformat (Env := toy_env);
  write_file := write_file (Env := toy_env);
  BeautifulSoup _ :=
    Ok (document [Elem "a" {["href" := "/search/view/ptr/1/"]} [Text "PTR"]]);
  urljoin := urljoin (Env := toy_env)
|}.

(** The reference made of the first of [api_records]. *)
Definition jane_doe_reference : gmap string string :=
  Scraper.found_report "Jane Doe" "Senator" "PTR" "01/02/2023" some_url.

(** What [process_direct_url] makes of [goldman_text]. *)
Definition direct_goldman_report : report :=
  Scraper.with_name
    (Extractor.report_result (Scraper.direct_report_data some_url)
       "Direct URL Report" some_url [goldman_transaction] goldman_text
       "2024-01-01T00:00:00")
    "Direct URL Report (self)".

(** [process_report] on a document that is read as [short_row_doc]. *)
Definition short_row_run : list event :=
  [ECall "process_report"] ++ download_at_once
  ++ [ECall "extract_transactions_with_fallback"; ECall "parse_tables"].

End MoreScenarios.

(* ================================================================== *)
(** * Properties                                                       *)
(* ================================================================== *)

Import PyStr Re Dom Fields Parsers Extractor Spec Scenarios.

(** Lookups in a dictionary built by successive assignments. *)
Ltac dict_lookup :=
  repeat (rewrite lookup_insert_eq
          || (rewrite lookup_insert_ne by done)
          || rewrite lookup_empty);
  try done.

(** ** Strings *)

Lemma startswith_spec p s :
  startswith p s = true <-> exists post, s = p +:+ post.
Proof.
  revert s. induction p as [|a p IH]; intros s; simpl.
  - split; [intros _; by exists s | done].
  - destruct s as [|b s]; simpl.
    + split; [done | intros [post H]; discriminate].
    + rewrite andb_true_iff, IH. split.
      * intros [Hab [post ->]]. apply Ascii.eqb_eq in Hab as ->. by exists post.
      * intros [post H]. injection H as -> ->. split; [apply Ascii.eqb_refl | by exists post].
Qed.

Lemma contains_spec p s : contains p s = true <-> occurs_in p s.
Proof.
  unfold occurs_in. induction s as [|b s IH].
  - simpl. rewrite orb_false_r, startswith_spec. split.
    + intros [post H]. by exists EmptyString, post.
    + intros [pre [post H]]. destruct pre; [by exists post | discriminate].
  - cbn [contains]. rewrite orb_true_iff, startswith_spec, IH. split.
    + intros [[post H] | [pre [post H]]].
      * by exists EmptyString, post.
      * exists (String b pre), post. simpl. by rewrite H.
    + intros [pre [post H]]. destruct pre as [|c pre].
      * left. by exists post.
      * right. injection H as -> ->. by exists pre, post.
Qed.

Lemma join_two_nonempty sep x y rest :
  sep <> EmptyString -> join sep (x :: y :: rest) <> EmptyString.
Proof.
  intros Hsep. cbn [join]. destruct x; simpl; [|done].
  destruct sep; simpl; [done | done].
Qed.

Lemma str_app_cons (x : ascii) (a b : string) :
  String x a +:+ b = String x (a +:+ b).
Proof. reflexivity. Qed.

Lemma str_app_nil_l (a : string) : EmptyString +:+ a = a.
Proof. reflexivity. Qed.

Lemma str_app_assoc (a b c : string) : (a +:+ b) +:+ c = a +:+ (b +:+ c).
Proof.
  induction a as [|x a IH]; [done|]. rewrite !str_app_cons. by f_equal.
Qed.

Lemma str_length_app (a b : string) :
  String.length (a +:+ b) = (String.length a + String.length b)%nat.
Proof.
  induction a as [|x a IH]; [done|].
  rewrite str_app_cons. simpl. by rewrite IH.
Qed.

Lemma take_app_exact (w s : string) :
  take (String.length (w +:+ s) - String.length s) (w +:+ s) = w.
Proof.
  rewrite str_length_app.
  replace (String.length w + String.length s - String.length s)%nat
    with (String.length w) by lia.
  induction w as [|x w IH]; [by destruct s|].
  rewrite str_app_cons. simpl. by rewrite IH.
Qed.

(** ** The matcher against the meaning of patterns *)

Section MatcherFacts.
Context {R : Type}.
Variable ic : bool.

Lemma rep_sound items lo hi (k : string -> option R) n s x :
  rep ic items lo hi k n s = Some x ->
  exists w s',
    s = w +:+ s'
    /\ all_chars (cset_mem ic items) w = true
    /\ (lo <= n + String.length w)%nat
    /\ (forall h, hi = Some h -> (n <= h)%nat -> (n + String.length w <= h)%nat)
    /\ k s' = Some x.
Proof.
  revert n. induction s as [|c s IH]; intros n; cbn [rep].
  - destruct (lo <=? n)%nat eqn:Hlo; [|done]. apply Nat.leb_le in Hlo.
    intros Hk. exists EmptyString, EmptyString. simpl.
    repeat split; [lia | intros; lia | done].
  - set (more := match hi with Some h => (n <? h)%nat | None => true end).
    assert (Hstop : (if (lo <=? n)%nat then k (String c s) else None) = Some x ->
                    exists w s', String c s = w +:+ s'
                      /\ all_chars (cset_mem ic items) w = true
                      /\ (lo <= n + String.length w)%nat
                      /\ (forall h, hi = Some h -> (n <= h)%nat ->
                                    (n + String.length w <= h)%nat)
                      /\ k s' = Some x).
    { destruct (lo <=? n)%nat eqn:Hlo; [|done]. apply Nat.leb_le in Hlo.
      intros Hk. exists EmptyString, (String c s). simpl.
      repeat split; [lia | intros; lia | done]. }
    destruct (more && cset_mem ic items c) eqn:Hgo; [|exact Hstop].
    apply andb_true_iff in Hgo as [Hmore Hmem].
    destruct (rep ic items lo hi k (S n) s) as [y|] eqn:Hrec; [|exact Hstop].
    intros [= ->]. apply IH in Hrec as (w & s' & -> & Hall & Hlo & Hhi & Hk).
    exists (String c w), s'. simpl. rewrite Hmem, Hall.
    repeat split; [lia | | done].
    intros h Hh Hn. subst more. rewrite Hh in Hmore.
    apply Nat.ltb_lt in Hmore. specialize (Hhi h Hh). lia.
Qed.

Lemma rep_complete items lo hi (k : string -> option R) w s' n :
  all_chars (cset_mem ic items) w = true ->
  (lo <= n + String.length w)%nat ->
  (forall h, hi = Some h -> (n + String.length w <= h)%nat) ->
  k s' <> None ->
  rep ic items lo hi k n (w +:+ s') <> None.
Proof.
  revert n. induction w as [|c w IH]; intros n Hall Hlo Hhi Hk.
  - simpl in *. assert (Hlo' : (lo <=? n)%nat = true) by (apply Nat.leb_le; lia).
    rewrite str_app_nil_l.
    destruct s' as [|c s']; cbn [rep]; rewrite Hlo'; [done|].
    destruct (_ && _); [|done]. by destruct (rep _ _ _ _ _ _ _).
  - simpl in Hall. apply andb_true_iff in Hall as [Hmem Hall].
    simpl in Hlo, Hhi. rewrite str_app_cons. cbn [rep]. rewrite Hmem.
    assert (Hmore : match hi with Some h => (n <? h)%nat | None => true end = true).
    { destruct hi as [h|]; [|done]. apply Nat.ltb_lt. specialize (Hhi h eq_refl). lia. }
    rewrite Hmore. cbn [andb].
    assert (Hrec : rep ic items lo hi k (S n) (w +:+ s') <> None).
    { apply IH; [done | lia | | done]. intros h Hh. specialize (Hhi h Hh). lia. }
    by destruct (rep _ _ _ _ _ _ _).
Qed.

Lemma rmatch_sound r s cs (k : string -> caps -> option R) x :
  rmatch ic r s cs k = Some x ->
  exists w s' cs',
    s = w +:+ s' /\ denotes ic r w cs cs' /\ k s' cs' = Some x.
Proof.
  revert s cs k. induction r as [items|r1 IH1 r2 IH2|r1 IH1 r2 IH2
                                |items lo hi|r1 IH1|n r1 IH1];
    intros s cs k; cbn [rmatch].
  - destruct s as [|c s]; [done|].
    destruct (cset_mem ic items c) eqn:Hmem; [|done]. intros Hk.
    exists (String c EmptyString), s, cs. repeat split; [by constructor | done].
  - intros H. apply IH1 in H as (w1 & s1 & cs1 & -> & H1 & H).
    apply IH2 in H as (w2 & s2 & cs2 & -> & H2 & H).
    exists (w1 +:+ w2), s2, cs2. rewrite str_app_assoc.
    repeat split; [by econstructor | done].
  - destruct (rmatch ic r1 s cs k) as [y|] eqn:H1.
    + intros [= ->]. apply IH1 in H1 as (w & s' & cs' & -> & H1 & Hk).
      exists w, s', cs'. repeat split; [by apply D_alt_l | done].
    + intros H2. apply IH2 in H2 as (w & s' & cs' & -> & H2 & Hk).
      exists w, s', cs'. repeat split; [by apply D_alt_r | done].
  - intros H. apply rep_sound in H as (w & s' & -> & Hall & Hlo & Hhi & Hk).
    exists w, s', cs. repeat split; [|done].
    constructor; [done | lia |]. intros h Hh. specialize (Hhi h Hh). lia.
  - destruct (rmatch ic r1 s cs k) as [y|] eqn:H1.
    + intros [= ->]. apply IH1 in H1 as (w & s' & cs' & -> & H1 & Hk).
      exists w, s', cs'. repeat split; [by apply D_opt_some | done].
    + intros Hk. exists EmptyString, s, cs. repeat split; [by constructor | done].
  - intros H. apply IH1 in H as (w & s' & cs' & -> & H1 & Hk).
    rewrite take_app_exact in Hk.
    exists w, s', ((n, w) :: cs'). repeat split; [by constructor | done].
Qed.

Lemma rmatch_complete r w cs cs' s' (k : string -> caps -> option R) :
  denotes ic r w cs cs' ->
  k s' cs' <> None ->
  rmatch ic r (w +:+ s') cs k <> None.
Proof.
  intros H. revert s' k.
  induction H as [items c cs Hmem
                 |r1 r2 w1 w2 cs cs1 cs2 _ IH1 _ IH2
                 |r1 r2 w cs cs' _ IH
                 |r1 r2 w cs cs' _ IH
                 |items lo hi w cs Hall Hlo Hhi
                 |r w cs cs' _ IH
                 |r cs
                 |n r w cs cs' _ IH];
    intros s' k Hk; cbn [rmatch].
  - simpl. by rewrite Hmem.
  - rewrite str_app_assoc. apply IH1. by apply IH2.
  - specialize (IH s' k Hk). by destruct (rmatch ic r1 _ cs k).
  - specialize (IH s' k Hk). by destruct (rmatch ic r1 _ cs k).
  - apply rep_complete; [done | lia | | done].
    intros h Hh. specialize (Hhi h Hh). lia.
  - specialize (IH s' k Hk). by destruct (rmatch ic r _ cs k).
  - rewrite str_app_nil_l. by destruct (rmatch ic r s' cs k).
  - apply IH. by rewrite take_app_exact.
Qed.
End MatcherFacts.

(** [re.search] finds a word of the pattern's shape, and finds one whenever
    there is one. *)
Lemma search_sound ic r s cs :
  search ic r s = Some cs ->
  exists pre w post, s = pre +:+ w +:+ post /\ denotes ic r w [] cs.
Proof.
  induction s as [|c s IH]; cbn [search]; unfold match_at.
  - destruct (rmatch ic r EmptyString [] _) as [[cs' rest]|] eqn:H; [|done].
    intros [= ->]. apply rmatch_sound in H as (w & s' & cs'' & Hs & Hden & [= -> ->]).
    exists EmptyString, w, rest. by split.
  - destruct (rmatch ic r (String c s) [] _) as [[cs' rest]|] eqn:H.
    + intros [= ->]. apply rmatch_sound in H as (w & s' & cs'' & Hs & Hden & [= -> ->]).
      exists EmptyString, w, rest. by split.
    + intros H'. apply IH in H' as (pre & w & post & -> & Hden).
      exists (String c pre), w, post. by split.
Qed.

Lemma search_complete ic r pre w post cs :
  denotes ic r w [] cs -> search ic r (pre +:+ w +:+ post) <> None.
Proof.
  intros Hden. induction pre as [|c pre IH].
  - rewrite str_app_nil_l.
    assert (H : match_at ic r (w +:+ post) <> None)
      by (unfold match_at; by eapply rmatch_complete).
    destruct (w +:+ post) as [|c s]; cbn [search];
      destruct (match_at ic r _) as [[cs' rest]|]; done.
  - rewrite str_app_cons. cbn [search].
    destruct (match_at ic r _) as [[cs' rest]|]; [done | exact IH].
Qed.

(** ** The three ticker patterns *)

Lemma cset_mem_exact items c :
  cset_mem false items c = existsb (fun i => cset_item i c) items.
Proof.
  unfold cset_mem. induction items as [|i items IH]; [done|].
  cbn [existsb]. by rewrite IH, orb_false_r.
Qed.

Lemma all_chars_ext (p q : ascii -> bool) s :
  (forall c, p c = q c) -> all_chars p s = all_chars q s.
Proof.
  intros Hpq. induction s as [|c s IH]; [done|]. simpl. by rewrite Hpq, IH.
Qed.

Lemma all_upper w :
  all_chars (cset_mem false [CRange "A" "Z"]) w = all_chars is_upper_AZ w.
Proof.
  apply all_chars_ext. intros c. rewrite cset_mem_exact. simpl.
  by rewrite orb_false_r.
Qed.

Lemma all_space w :
  all_chars (cset_mem false [CSpace]) w = all_chars is_space w.
Proof.
  apply all_chars_ext. intros c. rewrite cset_mem_exact. simpl.
  by rewrite orb_false_r.
Qed.

Lemma one_of_two a b c :
  cset_mem false [CChar a; CChar b] c = true <-> c = a \/ c = b.
Proof.
  rewrite cset_mem_exact. simpl.
  rewrite orb_false_r, orb_true_iff, !Ascii.eqb_eq. naive_solver.
Qed.

Lemma exactly c d : cset_mem false [CChar c] d = true <-> d = c.
Proof.
  rewrite cset_mem_exact. simpl.
  rewrite orb_false_r, Ascii.eqb_eq. naive_solver.
Qed.

Ltac invert_denotes :=
  repeat match goal with
         | H : denotes _ (RSeq _ _) _ _ _ |- _ => inversion H; subst; clear H
         | H : denotes _ (RSet _) _ _ _ |- _ => inversion H; subst; clear H
         | H : denotes _ (RGroup _ _) _ _ _ |- _ => inversion H; subst; clear H
         | H : denotes _ (RRep _ _ _) _ _ _ |- _ => inversion H; subst; clear H
         end.

Lemma upper5_code w :
  all_chars (cset_mem false [CRange "A" "Z"]) w = true ->
  (1 <= String.length w)%nat ->
  (forall h, Some 5%nat = Some h -> (String.length w <= h)%nat) ->
  upper_code w.
Proof.
  intros Hall Hlo Hhi. specialize (Hhi 5%nat eq_refl).
  split; [lia | by rewrite <- all_upper].
Qed.

Lemma upper5_denotes k cs :
  upper_code k -> denotes false upper5 k cs cs.
Proof.
  intros [[Hlo Hhi] Hall]. constructor; [by rewrite all_upper | done |].
  by intros h [= <-].
Qed.

Lemma bracketed_found t k :
  search_group1 false ticker_bracketed t = Some k -> bracketed_code t k.
Proof.
  unfold search_group1. destruct (search _ _ _) as [cs|] eqn:Hs; [|done].
  apply search_sound in Hs as (pre & w & post & -> & Hden).
  cbv [ticker_bracketed seqs upper5 between] in Hden. invert_denotes.
  cbn [group Nat.eqb]. intros [= <-].
  match goal with
  | Ho : cset_mem false [CChar "("; CChar "["] ?o = true,
    Hc : cset_mem false [CChar ")"; CChar "]"] ?c = true |- _ =>
      apply one_of_two in Ho; apply one_of_two in Hc;
      exists pre, o, c, post
  end.
  rewrite !str_app_cons, !str_app_nil_l, !str_app_assoc.
  repeat split; try done; by apply upper5_code.
Qed.

Lemma bracketed_searched t k :
  bracketed_code t k ->
  exists k', search_group1 false ticker_bracketed t = Some k'.
Proof.
  intros (pre & o & c & post & -> & Ho & Hc & Hk).
  assert (Hden : denotes false ticker_bracketed
                   (String o EmptyString +:+ k +:+ String c EmptyString)
                   [] [(1%nat, k)]).
  { cbv [ticker_bracketed seqs].
    apply D_seq with (cs1 := []); [constructor; by apply one_of_two|].
    apply D_seq with (cs1 := [(1%nat, k)]);
      [constructor; by apply upper5_denotes | constructor; by apply one_of_two]. }
  pose proof (search_complete false _ pre _ post _ Hden) as Hfound.
  rewrite !str_app_cons, !str_app_nil_l, !str_app_assoc in Hfound.
  rewrite !str_app_cons, !str_app_nil_l in Hfound.
  unfold search_group1.
  destruct (search false ticker_bracketed _) as [cs|] eqn:Hs; [|done].
  apply search_sound in Hs as (pre' & w' & post' & _ & Hden').
  cbv [ticker_bracketed seqs upper5 between] in Hden'. invert_denotes.
  by eexists.
Qed.

Lemma spaces_denotes ws cs :
  all_chars is_space ws = true -> denotes false (star [CSpace]) ws cs cs.
Proof.
  intros Hws. constructor; [by rewrite all_space | lia | done].
Qed.

Lemma code_hyphen_found t k :
  search_group1 false ticker_then_hyphen t = Some k -> code_then_hyphen t k.
Proof.
  unfold search_group1. destruct (search _ _ _) as [cs|] eqn:Hs; [|done].
  apply search_sound in Hs as (pre & w & post & -> & Hden).
  cbv [ticker_then_hyphen seqs upper5 between star chr] in Hden. invert_denotes.
  cbn [group Nat.eqb]. intros [= <-].
  match goal with
  | Hh : cset_mem false [CChar "-"] ?h = true,
    Hws : all_chars (cset_mem false [CSpace]) ?ws = true |- _ =>
      apply exactly in Hh; subst h; rewrite all_space in Hws;
      exists pre, ws, post
  end.
  rewrite !str_app_assoc, !str_app_cons, !str_app_nil_l.
  repeat split; try done; by apply upper5_code.
Qed.

Lemma code_hyphen_searched t k :
  code_then_hyphen t k ->
  exists k', search_group1 false ticker_then_hyphen t = Some k'.
Proof.
  intros (pre & ws & post & -> & Hws & Hk).
  assert (Hden : denotes false ticker_then_hyphen
                   (k +:+ ws +:+ String "-" EmptyString) [] [(1%nat, k)]).
  { cbv [ticker_then_hyphen seqs].
    apply D_seq with (cs1 := [(1%nat, k)]);
      [constructor; by apply upper5_denotes|].
    apply D_seq with (cs1 := [(1%nat, k)]);
      [by apply spaces_denotes | constructor; by apply exactly]. }
  pose proof (search_complete false _ pre _ post _ Hden) as Hfound.
  rewrite !str_app_assoc, !str_app_cons, !str_app_nil_l in Hfound.
  unfold search_group1.
  destruct (search false ticker_then_hyphen _) as [cs|] eqn:Hs; [|done].
  apply search_sound in Hs as (pre' & w' & post' & _ & Hden').
  cbv [ticker_then_hyphen seqs upper5 between star chr] in Hden'.
  invert_denotes. by eexists.
Qed.

Lemma hyphen_code_found t k :
  search_group1 false hyphen_then_ticker t = Some k -> hyphen_then_code t k.
Proof.
  unfold search_group1. destruct (search _ _ _) as [cs|] eqn:Hs; [|done].
  apply search_sound in Hs as (pre & w & post & -> & Hden).
  cbv [hyphen_then_ticker seqs upper5 between star chr] in Hden. invert_denotes.
  cbn [group Nat.eqb]. intros [= <-].
  match goal with
  | Hh : cset_mem false [CChar "-"] ?h = true,
    Hws : all_chars (cset_mem false [CSpace]) ?ws = true |- _ =>
      apply exactly in Hh; subst h; rewrite all_space in Hws;
      exists pre, ws, post
  end.
  rewrite !str_app_assoc, !str_app_cons, !str_app_nil_l, ?str_app_assoc.
  repeat split; try done; by apply upper5_code.
Qed.

Lemma hyphen_code_searched t k :
  hyphen_then_code t k ->
  exists k', search_group1 false hyphen_then_ticker t = Some k'.
Proof.
  intros (pre & ws & post & -> & Hws & Hk).
  assert (Hden : denotes false hyphen_then_ticker
                   (String "-" EmptyString +:+ ws +:+ k) [] [(1%nat, k)]).
  { cbv [hyphen_then_ticker seqs].
    apply D_seq with (cs1 := []); [constructor; by apply exactly|].
    apply D_seq with (cs1 := []);
      [by apply spaces_denotes | constructor; by apply upper5_denotes]. }
  pose proof (search_complete false _ pre _ post _ Hden) as Hfound.
  rewrite !str_app_assoc, !str_app_cons, !str_app_nil_l, ?str_app_assoc
    in Hfound.
  unfold search_group1.
  destruct (search false hyphen_then_ticker _) as [cs|] eqn:Hs; [|done].
  apply search_sound in Hs as (pre' & w' & post' & _ & Hden').
  cbv [hyphen_then_ticker seqs upper5 between star chr] in Hden'.
  invert_denotes. by eexists.
Qed.

(** ** FieldExtractors *)

Lemma extract_ticker_order t :
  extract_ticker t =
  first_some [search_group1 false ticker_bracketed t;
              search_group1 false ticker_then_hyphen t;
              search_group1 false hyphen_then_ticker t].
Proof.
  unfold extract_ticker. simpl. by repeat destruct (search_group1 _ _ _).
Qed.

(** C8: [extract_ticker] tries a bracketed code of one to five capitals, then
    such a code before a hyphen, then such a code after a hyphen; the first
    pattern that occurs in the text gives the result, and the result is
    [None] exactly when none of the three occurs.  The three examples of the
    specification evaluate as stated. *)
Theorem extract_ticker_first_match :
  (forall t,
      extract_ticker t =
      first_some [search_group1 false ticker_bracketed t;
                  search_group1 false ticker_then_hyphen t;
                  search_group1 false hyphen_then_ticker t])
  /\ (forall t k,
         extract_ticker t = Some k ->
         bracketed_code t k
         \/ ((forall k', ~ bracketed_code t k') /\ code_then_hyphen t k)
         \/ ((forall k', ~ bracketed_code t k')
             /\ (forall k', ~ code_then_hyphen t k')
             /\ hyphen_then_code t k))
  /\ (forall t,
         extract_ticker t = None <->
         forall k, ~ bracketed_code t k
                   /\ ~ code_then_hyphen t k
                   /\ ~ hyphen_then_code t k)
  /\ extract_ticker "Apple Inc (AAPL)" = Some "AAPL"
  /\ extract_ticker "Some Fund - VOO" = Some "VOO"
  /\ extract_ticker "Unrelated text" = None.
Proof.
  split; [exact extract_ticker_order|].
  split; [|split; [|by vm_compute]].
  - intros t k. unfold extract_ticker.
    destruct (search_group1 false ticker_bracketed t) as [k1|] eqn:H1.
    { intros [= <-]. left. by apply bracketed_found. }
    assert (N1 : forall k', ~ bracketed_code t k').
    { intros k' Hk'. apply bracketed_searched in Hk' as [k'' Hk'']. congruence. }
    destruct (search_group1 false ticker_then_hyphen t) as [k2|] eqn:H2.
    { intros [= <-]. right. left. split; [done|]. by apply code_hyphen_found. }
    assert (N2 : forall k', ~ code_then_hyphen t k').
    { intros k' Hk'. apply code_hyphen_searched in Hk' as [k'' Hk'']. congruence. }
    destruct (search_group1 false hyphen_then_ticker t) as [k3|] eqn:H3; [|done].
    intros [= <-]. right. right. repeat split; [done..|]. by apply hyphen_code_found.
  - intros t. unfold extract_ticker. split.
    + intros H k.
      destruct (search_group1 false ticker_bracketed t) eqn:H1; [done|].
      destruct (search_group1 false ticker_then_hyphen t) eqn:H2; [done|].
      destruct (search_group1 false hyphen_then_ticker t) eqn:H3; [done|].
      repeat split; intros Hk;
        [apply bracketed_searched in Hk as [k' Hk]
        |apply code_hyphen_searched in Hk as [k' Hk]
        |apply hyphen_code_searched in Hk as [k' Hk]]; congruence.
    + intros H.
      destruct (search_group1 false ticker_bracketed t) as [k|] eqn:H1.
      { apply bracketed_found in H1. by destruct (H k) as (? & _). }
      destruct (search_group1 false ticker_then_hyphen t) as [k|] eqn:H2.
      { apply code_hyphen_found in H2. by destruct (H k) as (_ & ? & _). }
      destruct (search_group1 false hyphen_then_ticker t) as [k|] eqn:H3; [|done].
      apply hyphen_code_found in H3. by destruct (H k) as (_ & _ & ?).
Qed.

(** The ticker found in "Apple Inc (AAPL)" stands between brackets. *)
Lemma extract_ticker_first_match_witness :
  bracketed_code "Apple Inc (AAPL)" "AAPL"
  \/ ((forall k', ~ bracketed_code "Apple Inc (AAPL)" k')
      /\ code_then_hyphen "Apple Inc (AAPL)" "AAPL")
  \/ ((forall k', ~ bracketed_code "Apple Inc (AAPL)" k')
      /\ (forall k', ~ code_then_hyphen "Apple Inc (AAPL)" k')
      /\ hyphen_then_code "Apple Inc (AAPL)" "AAPL").
Proof.
  apply (proj1 (proj2 extract_ticker_first_match) "Apple Inc (AAPL)" "AAPL").
  vm_compute. reflexivity.
Defined.

(** ** StructuredTableParser *)

Lemma res_bind_ok {A B} (x : res A) (f : A -> res B) b :
  res_bind x f = Ok b -> exists a, x = Ok a /\ f a = Ok b.
Proof. destruct x as [a|e]; simpl; [by exists a | done]. Qed.

Lemma copy_cell_lookup field texts hm t t' k :
  copy_cell field texts hm t = Ok t' -> k <> field -> t' !! k = t !! k.
Proof.
  unfold copy_cell. intros H Hk.
  destruct (hm !! field); [|by injection H as <-].
  apply res_bind_ok in H as (v & _ & H).
  injection H as <-. by rewrite lookup_insert_ne.
Qed.

Lemma asset_block_lookup texts hm t t' k :
  asset_block texts hm t = Ok t' -> k <> "asset" -> k <> "ticker" ->
  t' !! k = t !! k.
Proof.
  unfold asset_block. intros H Ha Ht.
  destruct (hm !! "asset"); [|by injection H as <-].
  apply res_bind_ok in H as (v & _ & H).
  injection H as <-. by rewrite !lookup_insert_ne.
Qed.

Lemma owner_block_lookup texts hm t t' k :
  owner_block texts hm t = Ok t' -> k <> "owner" -> k <> "relationship" ->
  t' !! k = t !! k.
Proof.
  unfold owner_block. intros H Ha Ht.
  destruct (hm !! "owner"); [|by injection H as <-].
  apply res_bind_ok in H as (v & _ & H).
  injection H as <-. by rewrite !lookup_insert_ne.
Qed.

Lemma extract_transaction_raw_text cells hm t :
  extract_transaction_from_cells cells hm = Ok t ->
  t !! "raw_text" = Some (PStr (join " | " (map get_text_strip cells)))
  /\ t !! "cell_count" = Some (PInt (Z.of_nat (length cells))).
Proof.
  unfold extract_transaction_from_cells. intros H.
  apply res_bind_ok in H as (t1 & H1 & H).
  apply res_bind_ok in H as (t2 & H2 & H).
  apply res_bind_ok in H as (t3 & H3 & H).
  apply res_bind_ok in H as (t4 & H4 & H).
  split.
  - rewrite (owner_block_lookup _ _ _ _ _ H), (copy_cell_lookup _ _ _ _ _ _ H4),
      (copy_cell_lookup _ _ _ _ _ _ H3), (copy_cell_lookup _ _ _ _ _ _ H2),
      (asset_block_lookup _ _ _ _ _ H1) by done.
    dict_lookup.
  - rewrite (owner_block_lookup _ _ _ _ _ H), (copy_cell_lookup _ _ _ _ _ _ H4),
      (copy_cell_lookup _ _ _ _ _ _ H3), (copy_cell_lookup _ _ _ _ _ _ H2),
      (asset_block_lookup _ _ _ _ _ H1) by done.
    dict_lookup.
Qed.

Lemma extract_transaction_populated cells hm t :
  (3 <= length cells)%nat ->
  extract_transaction_from_cells cells hm = Ok t -> raw_text_populated t.
Proof.
  intros Hlen H. apply extract_transaction_raw_text in H as [H _].
  eexists. split; [exact H|].
  destruct cells as [|c1 [|c2 cells]]; simpl in Hlen; [lia | lia |].
  by apply join_two_nonempty.
Qed.

Lemma rows_loop_populated rows hm acc txs :
  Forall raw_text_populated acc ->
  rows_loop rows hm acc = Ok txs -> Forall raw_text_populated txs.
Proof.
  revert acc. induction rows as [|row rows IH]; intros acc Hacc H;
    cbn [rows_loop] in H.
  - by injection H as <-.
  - destruct (3 <=? length (find_all ["td"; "th"] row))%nat eqn:Hlen.
    + apply res_bind_ok in H as (t & Ht & H).
      apply Nat.leb_le in Hlen.
      eapply IH; [|exact H].
      destruct (dict_truthy t); [|done].
      apply Forall_app. split; [done|].
      constructor; [|done]. by eapply extract_transaction_populated.
    + by eapply IH.
Qed.

Lemma tables_loop_populated tables acc txs :
  Forall raw_text_populated acc ->
  tables_loop tables acc = Ok txs -> Forall raw_text_populated txs.
Proof.
  revert acc. induction tables as [|table tables IH]; intros acc Hacc H;
    cbn [tables_loop] in H.
  - by injection H as <-.
  - destruct (find_all ["tr"] table) as [|row0 [|row1 rows]]; [by eapply IH..|].
    destruct (dict_truthy _); [|by eapply IH].
    apply res_bind_ok in H as (acc' & Hrows & H).
    eapply IH; [|exact H]. by eapply rows_loop_populated.
Qed.

Lemma parse_tables_populated soup txs :
  parse_tables soup = Ok txs -> Forall raw_text_populated txs.
Proof. by apply tables_loop_populated. Qed.

(** Where the table tier cannot raise: every mapped index is a header
    index, so rows with a cell under every header are safe. *)

Lemma first_index_bound {A} (p : A -> bool) l i j :
  first_index p l i = Some j -> (i <= j < i + length l)%nat.
Proof.
  revert i. induction l as [|x l IH]; intros i; simpl; [done|].
  destruct (p x); [intros [= <-]; lia|].
  intros H. apply IH in H. lia.
Qed.

Lemma create_header_map_bound headers field idx :
  create_header_map headers !! field = Some idx -> (idx < length headers)%nat.
Proof.
  unfold create_header_map.
  assert (Hinv : forall (mappings : list (string * list string))
                        (m : gmap string nat),
             (forall f i, m !! f = Some i -> (i < length headers)%nat) ->
             forall f i,
               fold_left
                 (fun header_map '(field, possible_names) =>
                    match first_index (any_in possible_names) headers 0 with
                    | Some idx => <[field := idx]> header_map
                    | None => header_map
                    end) mappings m !! f = Some i ->
               (i < length headers)%nat).
  { induction mappings as [|[fld names] rest IH]; intros m Hm f i; simpl; [apply Hm|].
    apply IH. intros f' i'.
    destruct (first_index _ headers 0) as [j|] eqn:Hj; [|apply Hm].
    apply first_index_bound in Hj.
    destruct (decide (fld = f')) as [->|Hne].
    - rewrite lookup_insert_eq. intros [= <-]. lia.
    - rewrite lookup_insert_ne by done. apply Hm. }
  apply Hinv. intros f i. by rewrite lookup_empty.
Qed.

Lemma py_index_ok {A} (l : list A) i :
  (i < length l)%nat -> exists x, py_index l i = Ok x.
Proof.
  intros H. unfold py_index.
  destruct (lookup_lt_is_Some_2 l i H) as [x ->]. by exists x.
Qed.

Lemma extract_transaction_ok cells hm :
  (forall f i, hm !! f = Some i -> (i < length cells)%nat) ->
  exists t, extract_transaction_from_cells cells hm = Ok t.
Proof.
  intros Hhm. unfold extract_transaction_from_cells.
  set (texts := map get_text_strip cells).
  assert (Hidx : forall f i, hm !! f = Some i -> exists x, py_index texts i = Ok x).
  { intros f i Hf. apply py_index_ok. subst texts. rewrite length_map. eauto. }
  assert (Hcopy : forall f t, exists t', copy_cell f texts hm t = Ok t').
  { intros f t. unfold copy_cell. destruct (hm !! f) as [i|] eqn:Hf; [|by eexists].
    destruct (Hidx f i Hf) as [x ->]. by eexists. }
  generalize (<["cell_count" := PInt (Z.of_nat (length cells))]>
                (<["raw_text" := PStr (join " | " texts)]> (∅ : gmap string pyval))).
  intros t0.
  assert (Hasset : exists t1, asset_block texts hm t0 = Ok t1).
  { unfold asset_block. destruct (hm !! "asset") as [i|] eqn:Hf; [|by eexists].
    destruct (Hidx _ i Hf) as [x ->]. by eexists. }
  destruct Hasset as [t1 ->]. simpl.
  destruct (Hcopy "transaction_type" t1) as [t2 ->]. simpl.
  destruct (Hcopy "date" t2) as [t3 ->]. simpl.
  destruct (Hcopy "amount" t3) as [t4 ->]. simpl.
  unfold owner_block. destruct (hm !! "owner") as [i|] eqn:Hf; [|by eexists].
  destruct (Hidx _ i Hf) as [x ->]. by eexists.
Qed.

Lemma rows_loop_ok rows hm n acc :
  (forall f i, hm !! f = Some i -> (i < n)%nat) ->
  Forall (row_fits n) rows ->
  exists txs, rows_loop rows hm acc = Ok txs.
Proof.
  intros Hhm Hrows. revert acc.
  induction Hrows as [|row rows Hrow _ IH]; intros acc; cbn [rows_loop];
    [by eexists|].
  destruct (3 <=? length (find_all ["td"; "th"] row))%nat eqn:Hlen; [|apply IH].
  apply Nat.leb_le in Hlen. specialize (Hrow Hlen).
  destruct (extract_transaction_ok (find_all ["td"; "th"] row) hm) as [t ->].
  - intros f i Hf. apply Hhm in Hf. lia.
  - simpl. apply IH.
Qed.

Lemma tables_loop_ok tables acc :
  Forall table_fits tables -> exists txs, tables_loop tables acc = Ok txs.
Proof.
  intros Htables. revert acc.
  induction Htables as [|table tables Htable _ IH]; intros acc;
    cbn [tables_loop]; [by eexists|].
  unfold table_fits in Htable.
  destruct (find_all ["tr"] table) as [|row0 [|row1 rows]]; [apply IH..|].
  destruct (dict_truthy _); [|apply IH].
  edestruct (rows_loop_ok (row1 :: rows)) as [acc' ->]; [|exact Htable|].
  - intros f i Hf. apply create_header_map_bound in Hf.
    by rewrite length_map in Hf.
  - simpl. apply IH.
Qed.

(** The table tier returns whenever every data row that is looked at has a
    cell under every header; [short_row_doc] is the kind of document that
    falls outside. *)
Lemma parse_tables_ok soup :
  Forall table_fits (find_all ["table"] soup) ->
  exists txs, parse_tables soup = Ok txs.
Proof. apply tables_loop_ok. Qed.

(** ** HeuristicBlockParser and RegexFallbackParser *)

Lemma parse_transaction_text_fields text t :
  parse_transaction_text text = Some t ->
  t !! "owner" = Some (PStr "self")
  /\ t !! "relationship" = Some (PStr "self")
  /\ t !! "raw_text" = None.
Proof.
  unfold parse_transaction_text. intros H.
  destruct (search_group1 false asset_re text) as [asset|]; [|done].
  destruct (search_group1 true _ text) as [type|]; [|done].
  destruct (search_group1 false (RGroup 1 date_shape) text) as [date|]; [|done].
  destruct (search_group1 false _ text) as [amount|]; [|done].
  injection H as <-.
  repeat split; dict_lookup.
Qed.

Lemma divs_loop_invariant (P : gmap string pyval -> Prop) divs acc :
  (forall text t, parse_transaction_text text = Some t -> P t) ->
  Forall P acc -> Forall P (divs_loop divs acc).
Proof.
  intros HP. revert acc. induction divs as [|div divs IH]; intros acc Hacc;
    cbn [divs_loop]; [done|].
  destruct (is_likely_transaction _); [|by apply IH].
  destruct (parse_transaction_text _) as [t|] eqn:Ht; [|by apply IH].
  apply IH. destruct (dict_truthy t); [|done].
  apply Forall_app. split; [done|]. constructor; [by eapply HP | done].
Qed.

Lemma regex_transaction_fields m :
  regex_transaction m !! "owner" = Some (PStr "self")
  /\ regex_transaction m !! "relationship" = Some (PStr "self")
  /\ regex_transaction m !! "raw_text" = None.
Proof.
  unfold regex_transaction.
  repeat split; dict_lookup.
Qed.

(** C10: every transaction of the heuristic block tier has [owner] and
    [relationship] equal to "self", whatever the text of the block says. *)
Theorem heuristic_tier_owner_self (soup : node) (t : gmap string pyval) :
  In t (parse_alternative soup) ->
  t !! "owner" = Some (PStr "self") /\ t !! "relationship" = Some (PStr "self").
Proof.
  intros Hin.
  assert (H : Forall (fun t => t !! "owner" = Some (PStr "self")
                               /\ t !! "relationship" = Some (PStr "self"))
                     (parse_alternative soup)).
  { apply divs_loop_invariant; [|done].
    intros text t' Ht'. by apply parse_transaction_text_fields in Ht' as (? & ? & _). }
  rewrite Forall_forall in H. apply H. by apply list_elem_of_In.
Qed.

Lemma parse_alternative_spouse :
  parse_alternative spouse_div_doc = [spouse_transaction].
Proof. compute_done. Qed.

Lemma parse_with_regex_goldman :
  parse_with_regex goldman_text = [goldman_transaction].
Proof. compute_done. Qed.

Lemma parse_tables_full_row :
  parse_tables full_row_doc = Ok [full_row_transaction].
Proof. compute_done. Qed.

(** The block of [spouse_div_doc] names a spouse, which the classifier would
    report, and still yields a transaction owned by "self". *)
Lemma heuristic_tier_owner_self_witness :
  parse_alternative spouse_div_doc = [spouse_transaction]
  /\ identify_transaction_owner (get_text_strip spouse_div_doc) = "spouse"
  /\ spouse_transaction !! "owner" = Some (PStr "self")
  /\ spouse_transaction !! "relationship" = Some (PStr "self").
Proof.
  split; [apply parse_alternative_spouse|]. split; [by vm_compute|].
  apply (heuristic_tier_owner_self spouse_div_doc spouse_transaction).
  rewrite parse_alternative_spouse. by left.
Defined.

Lemma parse_with_regex_no_raw_text html t :
  In t (parse_with_regex html) -> t !! "raw_text" = None.
Proof.
  unfold parse_with_regex. intros Hin.
  apply in_map_iff in Hin as (m & <- & _). apply regex_transaction_fields.
Qed.

(** C2 (as amended): a transaction of the table tier always carries a
    non-empty [raw_text]; a transaction of the heuristic block tier or of the
    regex tier carries no [raw_text] at all. *)
Theorem raw_text_by_tier :
  (forall soup txs t,
      parse_tables soup = Ok txs -> In t txs -> raw_text_populated t)
  /\ (forall soup t, In t (parse_alternative soup) -> t !! "raw_text" = None)
  /\ (forall html t, In t (parse_with_regex html) -> t !! "raw_text" = None).
Proof.
  split; [|split].
  - intros soup txs t H Hin. apply parse_tables_populated in H.
    rewrite Forall_forall in H. apply H. by apply list_elem_of_In.
  - intros soup t Hin.
    assert (H : Forall (fun t => t !! "raw_text" = None) (parse_alternative soup)).
    { apply divs_loop_invariant; [|done].
      intros text t' Ht'. by apply parse_transaction_text_fields in Ht' as (_ & _ & ?). }
    rewrite Forall_forall in H. apply H. by apply list_elem_of_In.
  - apply parse_with_regex_no_raw_text.
Qed.

(** One document per tier: the full table row has its [raw_text], the
    spouse block and the Goldman line have none. *)
Lemma raw_text_by_tier_witness :
  raw_text_populated full_row_transaction
  /\ spouse_transaction !! "raw_text" = None
  /\ goldman_transaction !! "raw_text" = None.
Proof.
  destruct raw_text_by_tier as (Htab & Hdiv & Hre).
  split; [|split].
  - apply (Htab full_row_doc [full_row_transaction] full_row_transaction);
      [apply parse_tables_full_row | by left].
  - apply (Hdiv spouse_div_doc spouse_transaction).
    rewrite parse_alternative_spouse. by left.
  - apply (Hre goldman_text goldman_transaction).
    rewrite parse_with_regex_goldman. by left.
Defined.

(** C2, as stated, fails: the regex tier turns the Goldman line into a
    transaction without [raw_text]. *)
Lemma regex_tier_lacks_raw_text :
  ~ (forall t, In t (parse_with_regex goldman_text) -> raw_text_populated t).
Proof.
  intros H.
  destruct (H goldman_transaction) as (s & Hs & _).
  - rewrite parse_with_regex_goldman. by left.
  - rewrite (parse_with_regex_no_raw_text goldman_text) in Hs; [done|].
    rewrite parse_with_regex_goldman. by left.
Qed.

(** The scenario's table, run through the table tier. *)
Lemma parse_tables_jane_doe :
  parse_tables jane_doe_doc = Ok [jane_doe_transaction].
Proof. compute_done. Qed.

(** C3: on the scenario's document the table tier loses the ticker.  It
    yields exactly one transaction, but the asset field is mapped to column
    0, whose header "first name" contains the synonym "name" and comes
    before the header "asset"; so the asset is "Jane" and the ticker is
    [None], although the ticker of the Asset cell itself is "AAPL". *)
Theorem jane_doe_scenario :
  parse_tables jane_doe_doc = Ok [jane_doe_transaction]
  /\ create_header_map (map lower jane_doe_headers) !! "asset" = Some 0%nat
  /\ jane_doe_transaction !! "asset" = Some (PStr "Jane")
  /\ jane_doe_transaction !! "ticker" = Some PNone
  /\ extract_ticker "Apple Inc (AAPL) - Purchase" = Some "AAPL".
Proof.
  split; [apply parse_tables_jane_doe|].
  split; [by vm_compute|].
  unfold jane_doe_transaction. repeat split; dict_lookup.
Qed.

(** So the one transaction of the scenario does not have the ticker
    "AAPL". *)
Lemma jane_doe_ticker_not_AAPL :
  ~ (exists t, parse_tables jane_doe_doc = Ok [t]
               /\ t !! "ticker" = Some (PStr "AAPL")).
Proof.
  intros (t & Ht & Hticker). rewrite parse_tables_jane_doe in Ht.
  injection Ht as <-. unfold jane_doe_transaction in Hticker.
  revert Hticker. dict_lookup.
Qed.

(** C1: a data row of three cells under four mapped columns makes the table
    tier raise [IndexError]. *)
Theorem parse_tables_short_row_raises :
  parse_tables short_row_doc = Raise IndexError.
Proof. compute_done. Qed.

(** ** ParserChain *)

(** An exception of the table tier leaves the chain as it is. *)
Lemma chain_propagates {W} {env : Env W} (html : string) (s : state W) soup e :
  BeautifulSoup html = Ok soup ->
  parse_tables soup = Raise e ->
  (extract_transactions_with_fallback html s).1.1 = Raise e.
Proof.
  intros Hsoup H.
  unfold extract_transactions_with_fallback, invoke, bind, log, lift.
  by rewrite Hsoup, H.
Qed.

(** So the whole chain raises on a document parsed as [short_row_doc]. *)
Lemma chain_short_row_raises {W} {env : Env W} (html : string) (s : state W) :
  BeautifulSoup html = Ok short_row_doc ->
  (extract_transactions_with_fallback html s).1.1 = Raise IndexError.
Proof.
  intros H. eapply chain_propagates; [exact H|]. compute_done.
Qed.

(** The chain on a document that the parser accepts: the heuristic tier runs
    exactly when the table tier returned no transaction, the regex tier
    exactly when both returned none, and the chain returns the first
    non-empty of the three results (the empty list when all are empty); an
    exception of the table tier ends the chain.  When the parser rejects the
    document no tier runs. *)
Lemma fallback_chain_order {W} {env : Env W} (html : string) (s : state W) :
  let '(r, s', tr) := extract_transactions_with_fallback html s in
  s' = s
  /\ match BeautifulSoup html with
     | Ok soup =>
         (In (ECall "parse_alternative") tr <-> parse_tables soup = Ok [])
         /\ (In (ECall "parse_with_regex") tr <->
             parse_tables soup = Ok [] /\ parse_alternative soup = [])
         /\ r = match parse_tables soup with
                | Ok tables_result =>
                    Ok (first_nonempty [tables_result; parse_alternative soup;
                                        parse_with_regex html])
                | Raise e => Raise e
                end
     | Raise e =>
         r = Raise e /\ tr = [ECall "extract_transactions_with_fallback"]
     end.
Proof.
  unfold extract_transactions_with_fallback, invoke, bind, log, lift, ret.
  destruct (BeautifulSoup html) as [soup|e0]; simpl; [|done].
  destruct (parse_tables soup) as [[|t1 l1]|e]; simpl.
  - destruct (parse_alternative soup) as [|t2 l2]; simpl.
    + destruct (parse_with_regex html); simpl; naive_solver.
    + naive_solver.
  - naive_solver.
  - naive_solver.
Qed.

(** ** RecordNormalizer *)

(** The [extraction_success] of the dictionary literal is false exactly when
    there is no transaction and the text "No transactions" does not occur
    in the document. *)
Lemma extraction_success_false_iff
        (report_data : gmap string string) (name link : string)
        (transactions : list (gmap string pyval)) (html_content now : string) :
  extraction_success
    (report_result report_data name link transactions html_content now) = false
  <-> transactions = [] /\ ~ occurs_in "No transactions" html_content.
Proof.
  assert (Hlen : (0 <? Z.of_nat (length transactions))%Z = false
                 <-> transactions = []).
  { destruct transactions as [|t ts]; [done|]. split; [|done].
    intros H. apply Z.ltb_ge in H. simpl in H. lia. }
  cbn [extraction_success report_result]. unfold no_transactions_marker.
  by rewrite orb_false_iff, <- contains_spec, not_true_iff_false, Hlen.
Qed.

(** The count of a report is the length of its list. *)
Lemma report_result_count report_data name link transactions html_content now :
  transaction_count
    (report_result report_data name link transactions html_content now)
  = Z.of_nat (length transactions).
Proof. reflexivity. Qed.

(** ** Runs in the monad *)

Section Runs.
Context {W : Type} {env : Env W}.
Implicit Types (P : event -> Prop) (s : state W).

Lemma behaves_ret {A} P (a : A) : behaves P (ret a : M W A).
Proof. intros s. by split. Qed.

Lemma behaves_lift {A} P (r : res A) : behaves P (lift r : M W A).
Proof. intros s. by split. Qed.

Lemma behaves_log P ev : P ev -> behaves P (log ev : M W unit).
Proof. intros H s. split; [by constructor | done]. Qed.

Lemma behaves_perform {A} P ev (op : W -> res A * W) :
  P ev -> behaves P (perform ev op).
Proof.
  intros H s. unfold perform. destruct (op (world s)) as [r w]. simpl.
  split; [by constructor | done].
Qed.

Lemma behaves_bind {A B} P (m : M W A) (f : A -> M W B) :
  behaves P m -> (forall a, behaves P (f a)) -> behaves P (bind m f).
Proof.
  intros Hm Hf s. unfold bind. specialize (Hm s).
  destruct (m s) as [[[a|e] s1] t1]; simpl in *; [|done].
  specialize (Hf a s1). destruct (f a s1) as [[r s2] t2]; simpl in *.
  destruct Hm as [Ht1 Hs1], Hf as [Ht2 Hs2].
  split; [by apply Forall_app | congruence].
Qed.

Lemma behaves_try_except {A} P (m : M W A) (h : exn -> M W A) :
  behaves P m -> (forall e, behaves P (h e)) -> behaves P (try_except m h).
Proof.
  intros Hm Hh s. unfold try_except. specialize (Hm s).
  destruct (m s) as [[[a|e] s1] t1]; simpl in *; [done|].
  specialize (Hh e s1). destruct (h e s1) as [[r s2] t2]; simpl in *.
  destruct Hm as [Ht1 Hs1], Hh as [Ht2 Hs2].
  split; [by apply Forall_app | congruence].
Qed.

Lemma behaves_sleep P n : P (ESleep n) -> behaves P (sleep n).
Proof. intros H. by apply behaves_perform. Qed.

Lemma behaves_weaken {A} P Q (m : M W A) :
  (forall e, P e -> Q e) -> behaves P m -> behaves Q m.
Proof.
  intros HPQ Hm s. destruct (Hm s) as [Ht Hs]. split; [|done].
  eapply Forall_impl; eauto.
Qed.

Lemma total_ret {A} (a : A) : total (ret a : M W A).
Proof. intros s. by exists a. Qed.

Lemma total_sleep n : total (sleep n).
Proof. intros s. by exists tt. Qed.

Lemma total_bind {A B} (m : M W A) (f : A -> M W B) :
  total m -> (forall a, total (f a)) -> total (bind m f).
Proof.
  intros Hm Hf s. unfold bind. destruct (Hm s) as [a Ha].
  destruct (m s) as [[r s1] t1]; simpl in Ha; subst r.
  destruct (Hf a s1) as [b Hb].
  destruct (f a s1) as [[r s2] t2]; simpl in *. by exists b.
Qed.

Lemma total_try_except {A} (m : M W A) (h : exn -> M W A) :
  (forall e, total (h e)) -> total (try_except m h).
Proof.
  intros Hh s. unfold try_except.
  destruct (m s) as [[[a|e] s1] t1]; simpl; [by exists a|].
  destruct (Hh e s1) as [b Hb].
  destruct (h e s1) as [[r s2] t2]; simpl in *. by exists b.
Qed.

(** A logged marker followed by [k]. *)
Lemma run_log_then {A} ev (k : M W A) s :
  bind (log ev) (fun _ => k) s = ((k s).1.1, (k s).1.2, ev :: (k s).2).
Proof. unfold bind, log. by destruct (k s) as [[r s'] t]. Qed.
(** The first call of a run stays first when the run is continued. *)
Lemma bind_trace_head {A B} (m : M W A) (f : A -> M W B) s ev t :
  (m s).2 = ev :: t -> exists t', (bind m f s).2 = ev :: t'.
Proof.
  unfold bind. destruct (m s) as [[[a|e] s1] t1]; simpl; intros ->.
  - destruct (f a s1) as [[r s2] t2]. by eexists.
  - by eexists.
Qed.

Lemma try_except_trace_head {A} (m : M W A) (h : exn -> M W A) s ev t :
  (m s).2 = ev :: t -> exists t', (try_except m h s).2 = ev :: t'.
Proof.
  unfold try_except. destruct (m s) as [[[a|e] s1] t1]; simpl; intros ->.
  - by eexists.
  - destruct (h e s1) as [[r s2] t2]. by eexists.
Qed.
End Runs.

(** ** SessionManager *)

Ltac behaves_step :=
  first
    [ apply behaves_ret
    | apply behaves_lift
    | apply behaves_log; solve [auto]
    | apply behaves_sleep; solve [auto]
    | apply behaves_perform; solve [auto]
    | apply behaves_bind; [|intros ?]
    | apply behaves_try_except; [|intros ?]
    | match goal with
      | |- behaves _ (if ?b then _ else _) => destruct b
      | |- behaves _ (match ?x with _ => _ end) => destruct x
      end ].

Section Session.
Context {W : Type} {env : Env W}.
Variable P : event -> Prop.
Hypothesis P_outside : forall e, is_outside e = true -> P e.

Lemma transfer_cookies_behaves cookies :
  behaves (W:=W) P (transfer_cookies cookies).
Proof.
  induction cookies as [|cookie rest IH]; cbn [transfer_cookies];
    repeat (assumption || behaves_step).
Qed.

Lemma selenium_consent_behaves : behaves (W:=W) P selenium_consent.
Proof.
  unfold selenium_consent.
  repeat (apply transfer_cookies_behaves || behaves_step).
Qed.

Lemma requests_consent_behaves target :
  behaves (W:=W) P (requests_consent target).
Proof. unfold requests_consent. repeat behaves_step. Qed.

(** [establish_session] announces itself and then only talks to the
    outside; it leaves the flag of the subclass alone. *)
Lemma establish_session_behaves :
  P (ECall "establish_session") -> behaves (W:=W) P establish_session.
Proof.
  intros Hcall. unfold establish_session.
  repeat (apply selenium_consent_behaves
          || apply requests_consent_behaves || behaves_step).
Qed.
End Session.

Section Fetcher.
Context {W : Type} {env : Env W}.
Implicit Types (s : state W) (tr : list event).

Lemma establish_session_total : total (W:=W) establish_session.
Proof.
  unfold establish_session.
  apply total_bind; [intros s; by exists tt|]. intros _.
  apply total_bind.
  - apply total_try_except. intros _. apply total_ret.
  - intros [|]; [apply total_ret|].
    apply total_try_except. intros _. apply total_ret.
Qed.

(** A run of [establish_session]: it returns a boolean, its trace is its
    own call followed by calls to the outside, the flag is untouched. *)
Lemma establish_session_run s :
  exists b s' tr,
    establish_session s = (Ok b, s', ECall "establish_session" :: tr)
    /\ Forall (fun e => is_outside e = true) tr
    /\ session_established s' = session_established s.
Proof.
  destruct (establish_session_total s) as [b Hb].
  unfold establish_session in *. rewrite run_log_then in *.
  set (body := bind _ _) in *.
  assert (Hbody : behaves (fun e => is_outside e = true) body).
  { subst body.
    repeat (apply selenium_consent_behaves
            || apply requests_consent_behaves || behaves_step); auto. }
  destruct (Hbody s) as [Htr Hflag].
  destruct (body s) as [[r s'] tr]. simpl in *. subst r.
  by exists b, s', tr.
Qed.

Lemma attempts_made_app tr1 tr2 :
  attempts_made (tr1 ++ tr2) = (attempts_made tr1 + attempts_made tr2)%nat.
Proof. unfold attempts_made. by rewrite List.filter_app, length_app. Qed.

Lemma attempts_made_none tr :
  Forall (fun e => is_attempt e = false) tr -> attempts_made tr = 0%nat.
Proof.
  unfold attempts_made. induction 1 as [|e tr He _ IH]; [done|].
  simpl. by rewrite He.
Qed.

Lemma calls_of_app method tr1 tr2 :
  calls_of method (tr1 ++ tr2)
  = (calls_of method tr1 + calls_of method tr2)%nat.
Proof. unfold calls_of. by rewrite List.filter_app, length_app. Qed.

Lemma calls_of_outside method tr :
  Forall (fun e => is_outside e = true) tr -> calls_of method tr = 0%nat.
Proof.
  unfold calls_of. induction 1 as [|e tr He _ IH]; [done|].
  simpl. by destruct e.
Qed.

Lemma render_fetch_behaves url :
  behaves (W:=W) (fun e => is_attempt e = false) (render_fetch url).
Proof.
  unfold render_fetch.
  repeat (apply establish_session_behaves || behaves_step);
    by (intros [] || idtac).
Qed.

Lemma direct_fetch_behaves url :
  behaves (W:=W) (fun e => is_attempt e = false) (direct_fetch url).
Proof. unfold direct_fetch. repeat behaves_step. Qed.

Lemma backoff_behaves max_retries attempt :
  behaves (W:=W) (fun e => is_attempt e = false) (backoff max_retries attempt).
Proof. unfold backoff. repeat behaves_step. Qed.

Lemma backoff_total max_retries attempt :
  total (W:=W) (backoff max_retries attempt).
Proof.
  unfold backoff. apply total_bind; [|intros _; apply total_ret].
  destruct (_ <? _)%Z; [apply total_sleep | apply total_ret].
Qed.

(** An iteration never raises, starts with its marker and has no other. *)
Lemma attempt_body_run url max_retries attempt s :
  exists out s' tr,
    attempt_body url max_retries attempt s = (Ok out, s', EAttempt attempt :: tr)
    /\ Forall (fun e => is_attempt e = false) tr
    /\ session_established s' = session_established s.
Proof.
  unfold attempt_body, try_except. rewrite run_log_then.
  set (inner := if (attempt <? 3)%Z then _ else _).
  assert (Hinner : behaves (fun e => is_attempt e = false) inner).
  { subst inner. destruct (_ <? _)%Z;
      [apply render_fetch_behaves | apply direct_fetch_behaves]. }
  destruct (Hinner s) as [Htr Hflag].
  destruct (inner s) as [[[out|e] s1] t1]; simpl in *.
  - by exists out, s1, t1.
  - destruct (backoff_total max_retries attempt s1) as [out Hout].
    destruct (backoff_behaves max_retries attempt s1) as [Htr2 Hflag2].
    destruct (backoff max_retries attempt s1) as [[r s2] t2]. simpl in *.
    subst r. exists out, s2, (t1 ++ t2).
    split; [done|]. split; [by apply Forall_app | congruence].
Qed.

Lemma attempts_loop_run url max_retries attempts s :
  exists out s' tr,
    attempts_loop url max_retries attempts s = (Ok out, s', tr)
    /\ (attempts_made tr <= length attempts)%nat
    /\ (out = None -> attempts_made tr = length attempts).
Proof.
  revert s. induction attempts as [|attempt rest IH]; intros s;
    cbn [attempts_loop].
  - exists None, s, []. by repeat split.
  - unfold bind.
    destruct (attempt_body_run url max_retries attempt s)
      as (out & s1 & t1 & -> & Ht1 & _).
    apply attempts_made_none in Ht1.
    destruct out as [html|].
    + exists (Some html), s1, (EAttempt attempt :: t1 ++ []).
      split; [done|]. rewrite app_nil_r.
      change (attempts_made (EAttempt attempt :: t1))
        with (S (attempts_made t1)).
      rewrite Ht1. simpl. split; [lia | done].
    + destruct (IH s1) as (out & s2 & t2 & -> & Hle & Hnone).
      exists out, s2, (EAttempt attempt :: t1 ++ t2).
      split; [done|].
      change (attempts_made (EAttempt attempt :: t1 ++ t2))
        with (S (attempts_made (t1 ++ t2))).
      rewrite attempts_made_app, Ht1. simpl.
      split; [lia | intros H; by rewrite Hnone].
Qed.

Lemma length_range n : length (range n) = Z.to_nat n.
Proof. unfold range. by rewrite length_map, length_seq. Qed.

End Fetcher.

Section Refresh.
Context {W : Type} {env : Env W}.

(** One browser iteration whose first page shows the home marker: the
    session is re-established exactly once and the same address is loaded
    exactly once more (the trace is the first load, the calls of the one
    [establish_session], the second load and a tail without further loads
    or refreshes); when the second page shows the marker too the iteration
    ends without a document and without a back-off. *)
Lemma refresh_once_then_refetch
        (url : string) (max_retries attempt : Z) (s : state W)
        (w1 w2 : W) (title : string) :
  (attempt < 3)%Z ->
  driver_get url (world s) = (Ok tt, w1) ->
  driver_title (time_sleep 3 w1) = (Ok title, w2) ->
  contains home_marker title = true ->
  exists b s_sess tr_sess out s' tail,
    establish_session (with_world s w2) = (Ok b, s_sess, tr_sess)
    /\ attempt_body url max_retries attempt s
       = (Ok out, s',
          [EAttempt attempt; EDriverGet url; ESleep 3; ETitle]
            ++ tr_sess ++ EDriverGet url :: tail)
    /\ calls_of "establish_session" tr_sess = 1%nat
    /\ calls_of "establish_session" tail = 0%nat
    /\ Forall (fun e => is_fetch url e = false) tail
    /\ Forall (fun e => is_attempt e = false) (tr_sess ++ EDriverGet url :: tail)
    /\ (forall w3 title2 w4,
           driver_get url (world s_sess) = (Ok tt, w3) ->
           driver_title (time_sleep 3 w3) = (Ok title2, w4) ->
           contains home_marker title2 = true ->
           out = None /\ tail = [ESleep 3; ETitle] /\ s' = with_world s_sess w4).
Proof.
  intros Hattempt Hget Htitle Hmarker.
  destruct (establish_session_run (with_world s w2))
    as (b & s3 & tr3 & Hsess & Hout & Hflag).
  exists b, s3, (ECall "establish_session" :: tr3).
  assert (Hcalls : calls_of "establish_session"
                     (ECall "establish_session" :: tr3) = 1%nat).
  { change (S (calls_of "establish_session" tr3) = 1%nat).
    by rewrite calls_of_outside. }
  assert (Hnoatt : Forall (fun e => is_attempt e = false)
                          (ECall "establish_session" :: tr3)).
  { constructor; [done|]. eapply Forall_impl; [exact Hout|]. by intros []. }
  apply Z.ltb_lt in Hattempt.
  pose proof Hsess as Hsess'. unfold with_world in Hsess'.
  unfold attempt_body, try_except, render_fetch, backoff, bind, log, perform,
    sleep, ret.
  rewrite Hattempt. cbn -[establish_session]. rewrite Hget.
  cbn -[establish_session]. rewrite Htitle. cbn -[establish_session].
  rewrite Hmarker, Hsess'. cbn -[establish_session].
  destruct (driver_get url (world s3)) as [[[]|e1] w3] eqn:Hget2;
    cbn -[establish_session];
    [destruct (driver_title (time_sleep 3 w3)) as [[title2|e2] w4] eqn:Htitle2;
     cbn -[establish_session];
     [destruct (contains home_marker title2) eqn:Hmarker2;
      cbn -[establish_session];
      [|destruct (driver_page_source w4) as [[html|e3] w5];
        cbn -[establish_session]]|]|];
    try (destruct (attempt <? max_retries - 1)%Z; cbn -[establish_session]).
  all: do 3 eexists.
  all: split; [exact Hsess|].
  all: split; [rewrite <- ?app_assoc; reflexivity|].
  all: split; [exact Hcalls|].
  all: split; [reflexivity|].
  all: split; [repeat constructor|].
  all: split;
    [rewrite app_comm_cons; apply Forall_app; split;
     [exact Hnoatt | by repeat constructor]|].
  all: intros w0 title0 w6 E1 E2 E3; try discriminate E1.
  all: injection E1 as <-; rewrite Htitle2 in E2; try discriminate E2.
  all: injection E2 as <- <-; try congruence.
  all: done.
Qed.
End Refresh.

(** A browser that is sent to the home page twice in a row: one refresh, one
    more load, and the iteration is spent. *)
Lemma refresh_once_then_refetch_witness :
  exists b s_sess tr_sess out s' tail,
    establish_session (with_world (toy_state bounced_twice false) bounced_once)
    = (Ok b, s_sess, tr_sess)
    /\ attempt_body some_url 5 0 (toy_state bounced_twice false)
       = (Ok out, s',
          [EAttempt 0; EDriverGet some_url; ESleep 3; ETitle]
            ++ tr_sess ++ EDriverGet some_url :: tail)
    /\ calls_of "establish_session" tr_sess = 1%nat
    /\ calls_of "establish_session" tail = 0%nat
    /\ Forall (fun e => is_fetch some_url e = false) tail
    /\ Forall (fun e => is_attempt e = false)
              (tr_sess ++ EDriverGet some_url :: tail)
    /\ (forall w3 title2 w4,
           driver_get some_url (world s_sess) = (Ok tt, w3) ->
           driver_title (time_sleep 3 w3) = (Ok title2, w4) ->
           contains home_marker title2 = true ->
           out = None /\ tail = [ESleep 3; ETitle] /\ s' = with_world s_sess w4).
Proof.
  apply (refresh_once_then_refetch some_url 5 0 (toy_state bounced_twice false)
           bounced_twice bounced_once "eFD: Home");
    [lia | reflexivity | reflexivity | reflexivity].
Defined.



Section Once.
Context {W : Type} {env : Env W}.

(** C9: once the session is established (the [session_established] flag of
    the object is set), [establish_session_once] returns [True] at once: the
    object is unchanged and nothing but the call itself is in the trace (no
    gate page load, no click, no form post). *)
Theorem establish_session_once_idempotent (s : state W) :
  session_established s = true ->
  establish_session_once s = (Ok true, s, [ECall "establish_session_once"]).
Proof.
  intros H. unfold establish_session_once, bind, log, get_session_established.
  rewrite H. reflexivity.
Qed.

(** A successful acquisition sets the flag, so the next one is the case
    above. *)
Lemma establish_session_once_sets_flag (s s' : state W) tr :
  establish_session_once s = (Ok true, s', tr) -> session_established s' = true.
Proof.
  unfold establish_session_once, bind, log, get_session_established,
    try_except, set_session_established, ret.
  destruct (session_established s) eqn:Hflag; cbn.
  - intros [= <- _]. exact Hflag.
  - destruct (selenium_consent s) as [[[[]|e] s1] t1]; cbn.
    + by intros [= <- _].
    + destruct (requests_consent _ s1) as [[[[|]|e2] s2] t2]; cbn;
        intros [= <- _] || intros [=]; done.
Qed.
End Once.

(** An established session in the small world. *)
Lemma establish_session_once_idempotent_witness :
  establish_session_once (toy_state bounced_twice true)
  = (Ok true, toy_state bounced_twice true, [ECall "establish_session_once"]).
Proof.
  apply (establish_session_once_idempotent (toy_state bounced_twice true)).
  reflexivity.
Defined.

(** ** Remarks on the pipeline *)

Section Pipeline.
Context {W : Type} {env : Env W}.

(** [establish_session] itself has no guard: every call starts by loading
    the gate page (it is what the retry loop uses to refresh a session). *)
Lemma establish_session_reloads_gate (s : state W) :
  exists tr,
    (establish_session s).2
    = ECall "establish_session" :: EDriverGet gate_url :: tr.
Proof.
  unfold establish_session. rewrite run_log_then. cbn [snd].
  assert (H : exists tr, (selenium_consent s).2 = EDriverGet gate_url :: tr).
  { unfold selenium_consent. apply bind_trace_head with (t := []).
    unfold perform. by destruct (driver_get _ _). }
  destruct H as [tr H].
  eapply bind_trace_head in H. destruct H as [tr1 H].
  eapply try_except_trace_head in H. destruct H as [tr2 H].
  eapply bind_trace_head in H. destruct H as [tr3 H].
  rewrite H. by eexists.
Qed.

(** What [process_report] returns is the dictionary literal, built from the
    reference, the downloaded document and the transactions of the chain. *)
Lemma process_report_assembles report_data (s s' : state W) r tr :
  process_report report_data s = (Ok (Some r), s', tr) ->
  exists name link txs html now,
    r = report_result report_data name link txs html now
    /\ report_data !! "name" = Some name
    /\ report_data !! "link" = Some link
    /\ html <> EmptyString.
Proof.
  unfold process_report, bind, log, lift, dict_item, perform, ret.
  destruct (report_data !! "name") as [name|]; [|by intros [=]].
  destruct (download_report_with_enhanced_retry _ _ _) as [[[[html|]|e] s1] t1];
    cbv beta iota; try by intros [=].
  destruct html as [|c html]; cbv beta iota; [by intros [=]|].
  destruct (extract_transactions_with_fallback (String c html) s1)
    as [[[txs|e] s2] t2]; cbv beta iota; [|by intros [=]].
  destruct (report_data !! "link") as [link|]; cbv beta iota; [|by intros [=]].
  destruct (datetime_now_isoformat (world s2)) as [now w3].
  cbv beta iota zeta. cbn [world session_established].
  destruct (write_file (raw_html_path name) (String c html) w3)
    as [[[]|e] w4]; [|by intros [=]].
  intros [= <- _ _]. by exists name, link, txs, (String c html), now.
Qed.
End Pipeline.

(** ** The pipeline at work in the small world *)

(** A document without tables or blocks goes through all three tiers. *)
Lemma chain_on_goldman_text :
  (extract_transactions_with_fallback goldman_text (toy_state offline false)).1.1
  = Ok [goldman_transaction]
  /\ (extract_transactions_with_fallback goldman_text (toy_state offline false)).2
     = [ECall "extract_transactions_with_fallback"; ECall "parse_tables";
        ECall "parse_alternative"; ECall "parse_with_regex"].
Proof. split; compute_done. Qed.

(** The browser is bounced to the home page twice during the first attempt
    and delivers the document on the second one. *)
Lemma process_report_after_bounce :
  (process_report some_report (toy_state bounced_twice false)).1.1
  = Ok (Some goldman_report)
  /\ extraction_success goldman_report = true
  /\ attempts_made (process_report some_report (toy_state bounced_twice false)).2
     = 2%nat
  /\ calls_of "establish_session"
       (process_report some_report (toy_state bounced_twice false)).2 = 1%nat.
Proof. repeat split; compute_done. Qed.


(* ================================================================== *)
(** * Further properties of the code                                   *)
(* ================================================================== *)

Import Notions MoreScenarios.

(** ** Characters *)

Lemma lower_char_idem c : lower_char (lower_char c) = lower_char c.
Proof. destruct c as [[] [] [] [] [] [] [] []]; reflexivity. Qed.

Lemma lower_upper_char c : lower_char (upper_char c) = lower_char c.
Proof. destruct c as [[] [] [] [] [] [] [] []]; reflexivity. Qed.

Lemma lower_idem s : lower (lower s) = lower s.
Proof.
  induction s as [|c s IH]; [done|]. simpl. by rewrite lower_char_idem, IH.
Qed.

Lemma lower_app a b : lower (a +:+ b) = lower a +:+ lower b.
Proof.
  induction a as [|c a IH]; [done|].
  rewrite !str_app_cons. simpl. by rewrite IH.
Qed.

Lemma all_chars_app p a b :
  all_chars p (a +:+ b) = all_chars p a && all_chars p b.
Proof.
  induction a as [|c a IH]; [done|].
  rewrite str_app_cons. simpl. by rewrite IH, andb_assoc.
Qed.

Lemma occurs_in_app_l p a b : occurs_in p a -> occurs_in p (a +:+ b).
Proof.
  intros (pre & post & ->). exists pre, (post +:+ b).
  by rewrite !str_app_assoc.
Qed.

Lemma occurs_in_app_r p a b : occurs_in p b -> occurs_in p (a +:+ b).
Proof.
  intros (pre & post & ->). exists (a +:+ pre), post.
  by rewrite !str_app_assoc.
Qed.

Lemma occurs_in_refl_app pre w post : occurs_in w (pre +:+ w +:+ post).
Proof. by exists pre, post. Qed.

(** ** FieldExtractors, continued *)

Lemma any_in_spec ws text : any_in ws text = true <-> mentions ws text.
Proof.
  unfold any_in, mentions. rewrite existsb_exists.
  split; intros (w & Hin & Hw); exists w; split; try done; by apply contains_spec.
Qed.

Lemma any_in_false ws text : any_in ws text = false <-> ~ mentions ws text.
Proof. rewrite <- any_in_spec. by destruct (any_in ws text). Qed.

(** X1: a ticker returned by [extract_ticker] is a code of one to five
    capital letters A-Z that occurs in the text. *)
Theorem extract_ticker_is_code (t k : string) :
  extract_ticker t = Some k -> upper_code k /\ occurs_in k t.
Proof.
  unfold extract_ticker.
  destruct (search_group1 false ticker_bracketed t) as [k1|] eqn:H1.
  { intros [= <-]. apply bracketed_found in H1
      as (pre & o & c & post & -> & _ & _ & Hk).
    split; [done|]. apply occurs_in_app_r.
    exists (String o EmptyString), (String c post). by rewrite str_app_cons. }
  destruct (search_group1 false ticker_then_hyphen t) as [k2|] eqn:H2.
  { intros [= <-]. apply code_hyphen_found in H2
      as (pre & ws & post & -> & _ & Hk).
    split; [done|]. apply occurs_in_app_r. by exists EmptyString, (ws +:+ String "-" post). }
  destruct (search_group1 false hyphen_then_ticker t) as [k3|] eqn:H3; [|done].
  intros [= <-]. apply hyphen_code_found in H3
    as (pre & ws & post & -> & _ & Hk).
  split; [done|]. apply occurs_in_app_r.
  exists (String "-" ws), post. by rewrite str_app_cons.
Qed.

(** The ticker of "Some Fund - VOO". *)
Lemma extract_ticker_is_code_witness :
  upper_code "VOO" /\ occurs_in "VOO" "Some Fund - VOO".
Proof.
  apply (extract_ticker_is_code "Some Fund - VOO" "VOO").
  vm_compute. reflexivity.
Defined.

(** X2: [identify_transaction_owner] looks at the lower-cased text only and
    decides by priority: "spouse" when a spouse word occurs, else "child"
    when a child word occurs, else "family" when a family word occurs, else
    "self". *)
Theorem owner_by_priority (text : string) :
  let l := lower text in
  (identify_transaction_owner text = "spouse" <-> mentions spouse_words l)
  /\ (identify_transaction_owner text = "child" <->
      ~ mentions spouse_words l /\ mentions child_words l)
  /\ (identify_transaction_owner text = "family" <->
      ~ mentions spouse_words l /\ ~ mentions child_words l
      /\ mentions family_words l)
  /\ (identify_transaction_owner text = "self" <->
      ~ mentions spouse_words l /\ ~ mentions child_words l
      /\ ~ mentions family_words l).
Proof.
  cbv zeta. unfold identify_transaction_owner.
  fold spouse_words child_words family_words.
  destruct (any_in spouse_words (lower text)) eqn:Hs;
    [apply any_in_spec in Hs | apply any_in_false in Hs].
  { repeat split; intros; try done; tauto. }
  destruct (any_in child_words (lower text)) eqn:Hc;
    [apply any_in_spec in Hc | apply any_in_false in Hc].
  { repeat split; intros; try done; tauto. }
  destruct (any_in family_words (lower text)) eqn:Hf;
    [apply any_in_spec in Hf | apply any_in_false in Hf].
  { repeat split; intros; try done; tauto. }
  repeat split; intros; try done; tauto.
Qed.

(** ** What the patterns of the heuristic and regex tiers accept *)

Lemma findall_from_sound ic r s skip cs :
  In cs (findall_from ic r skip s) ->
  exists pre w post, s = pre +:+ w +:+ post /\ denotes ic r w [] cs.
Proof.
  revert skip. induction s as [|c s IH]; intros skip.
  - destruct skip as [|n]; cbn [findall_from]; [|done].
    unfold match_at.
    destruct (rmatch ic r EmptyString [] _) as [[cs' rest]|] eqn:H; [|done].
    intros [<-|[]].
    apply rmatch_sound in H as (w & s' & cs'' & Hs & Hden & [= -> ->]).
    exists EmptyString, w, rest. by split.
  - destruct skip as [|n]; cbn [findall_from].
    + unfold match_at.
      destruct (rmatch ic r (String c s) [] _) as [[cs' rest]|] eqn:H.
      * intros [<-|Hin].
        -- apply rmatch_sound in H as (w & s' & cs'' & Hs & Hden & [= -> ->]).
           exists EmptyString, w, rest. by split.
        -- apply IH in Hin as (pre & w & post & -> & Hden).
           exists (String c pre), w, post. by split.
      * intros Hin. apply IH in Hin as (pre & w & post & -> & Hden).
        exists (String c pre), w, post. by split.
    + intros Hin. apply IH in Hin as (pre & w & post & -> & Hden).
      exists (String c pre), w, post. by split.
Qed.

Lemma denotes_group_free ic r w cs cs' :
  denotes ic r w cs cs' -> group_free r = true -> cs' = cs.
Proof.
  induction 1 as [| ? ? ? ? ? ? ? _ IH1 _ IH2 | ? ? ? ? ? _ IH | ? ? ? ? ? _ IH
                 | | ? ? ? ? _ IH | |]; cbn [group_free]; intros Hfree;
    try done.
  - apply andb_true_iff in Hfree as [H1 H2].
    rewrite (IH2 H2). by apply IH1.
  - apply andb_true_iff in Hfree as [H1 _]. by apply IH.
  - apply andb_true_iff in Hfree as [_ H2]. by apply IH.
  - by apply IH.
Qed.

Lemma search_group1_whole ic r text k :
  search_group1 ic (RGroup 1 r) text = Some k ->
  exists pre post cs, text = pre +:+ k +:+ post /\ denotes ic r k [] cs.
Proof.
  unfold search_group1. destruct (search _ _ _) as [cs|] eqn:Hs; [|done].
  apply search_sound in Hs as (pre & w & post & -> & Hden).
  inversion Hden; subst. cbn [group Nat.eqb]. intros [= <-].
  by exists pre, post, cs'.
Qed.

Lemma letters_space_mem ic c :
  cset_mem ic letters_space c = is_letter_or_space c.
Proof. destruct ic, c as [[] [] [] [] [] [] [] []]; reflexivity. Qed.

Lemma digit_mem ic c : cset_mem ic [CDigit] c = is_digit c.
Proof. destruct ic, c as [[] [] [] [] [] [] [] []]; reflexivity. Qed.

Lemma space_mem ic c : cset_mem ic [CSpace] c = is_space c.
Proof. destruct ic, c as [[] [] [] [] [] [] [] []]; reflexivity. Qed.

Lemma digit_comma_mem ic c :
  cset_mem ic [CDigit; CChar ","] c = is_digit c || Ascii.eqb "," c.
Proof. destruct ic, c as [[] [] [] [] [] [] [] []]; reflexivity. Qed.

Lemma dollar_mem ic c : cset_mem ic [CChar "$"] c = true -> c = "$"%char.
Proof. destruct ic, c as [[] [] [] [] [] [] [] []]; (done || by intros [=]). Qed.

Lemma slash_mem ic c : cset_mem ic [CChar "/"] c = true -> c = "/"%char.
Proof. destruct ic, c as [[] [] [] [] [] [] [] []]; (done || by intros [=]). Qed.

Lemma char_mem_ic a c :
  cset_mem true [CChar a] c = true -> lower_char c = lower_char a.
Proof.
  unfold cset_mem. cbn [existsb cset_item andb]. rewrite orb_false_r.
  rewrite !orb_true_iff, !Ascii.eqb_eq. intros [->|[->| ->]]; [done| |].
  - by rewrite lower_char_idem.
  - by rewrite lower_upper_char.
Qed.

Lemma char_mem_exact a c : cset_mem false [CChar a] c = true -> c = a.
Proof. intros H. by apply exactly in H. Qed.

(** A literal word matches itself, up to case with [re.IGNORECASE]. *)
Lemma lit_from_denotes ic c s w cs cs' :
  denotes ic (lit_from c s) w cs cs' ->
  cs' = cs
  /\ if ic then lower w = lower (String c s) else w = String c s.
Proof.
  revert c w cs cs'. induction s as [|d s IH]; intros c w cs cs' H.
  - cbn [lit_from] in H. unfold chr in H. inversion H; subst.
    split; [done|]. destruct ic.
    + simpl. f_equal. by apply char_mem_ic.
    + f_equal. by apply char_mem_exact.
  - cbn [lit_from] in H. unfold chr in H. inversion H; subst.
    match goal with
    | Hset : denotes _ (RSet _) _ _ _, Hlit : denotes _ (lit_from _ _) _ _ _ |- _ =>
        inversion Hset; subst; apply IH in Hlit as [-> Hrest]
    end.
    split; [done|]. rewrite str_app_cons, str_app_nil_l. destruct ic.
    + cbn [lower]. f_equal; [by apply char_mem_ic | exact Hrest].
    + f_equal; [by apply char_mem_exact | exact Hrest].
Qed.

Lemma type_words_denotes w cs cs' :
  denotes true type_words w cs cs' -> type_word w.
Proof.
  unfold type_words, alts, lit. intros H.
  inversion H as [| |? ? ? ? ? H1|? ? ? ? ? H1| | | |]; subst.
  - apply (lit_from_denotes true "P" "urchase") in H1 as [_ H1]. by left.
  - inversion H1 as [| |? ? ? ? ? H2|? ? ? ? ? H2| | | |]; subst.
    + apply (lit_from_denotes true "S" "ale") in H2 as [_ H2]. right. by left.
    + apply (lit_from_denotes true "E" "xchange") in H2 as [_ H2].
      right. by right.
Qed.

Lemma date_shape_denotes ic w cs cs' :
  denotes ic date_shape w cs cs' -> date_like w.
Proof.
  cbv [date_shape seqs between chr]. intros H. invert_denotes.
  repeat match goal with
         | H : cset_mem _ [CChar "/"] _ = true |- _ => apply slash_mem in H; subst
         | H : all_chars (cset_mem _ [CDigit]) _ = true |- _ =>
             rewrite (all_chars_ext _ _ _ (digit_mem ic)) in H
         | H : forall h, Some ?n = Some h -> _ |- _ => specialize (H n eq_refl)
         end.
  match goal with
  | |- date_like (?d1 +:+ _ +:+ ?d2 +:+ _ +:+ ?y) => exists d1, d2, y
  end.
  rewrite !str_app_cons, !str_app_nil_l. repeat split; try done; lia.
Qed.

Lemma dollars_denotes ic w cs cs' :
  denotes ic (RSeq (chr "$") (plus [CDigit; CChar ","])) w cs cs' ->
  dollars_like w.
Proof.
  cbv [chr plus]. intros H. invert_denotes.
  match goal with
  | H : cset_mem _ [CChar "$"] _ = true |- _ => apply dollar_mem in H; subst
  end.
  match goal with
  | Hall : all_chars _ ?w = true, Hlen : (1 <= String.length ?w)%nat |- _ =>
      rewrite (all_chars_ext _ _ _ (digit_comma_mem ic)) in Hall;
      destruct w as [|c rest]; [simpl in Hlen; lia|];
      cbn [all_chars] in Hall; apply andb_true_iff in Hall as [Hc _];
      exists c, rest
  end.
  rewrite str_app_cons, str_app_nil_l. split; [done|].
  apply orb_true_iff in Hc as [Hc|Hc]; [by left | right].
  by apply Ascii.eqb_eq in Hc.
Qed.

Lemma amount_shape_denotes ic w cs cs' :
  denotes ic amount_shape w cs cs' -> dollars_like w.
Proof.
  unfold amount_shape. cbv zeta. cbn [seqs]. intros H.
  inversion H as [| |? ? ? ? ? H1|? ? ? ? ? H1| | | |]; subst.
  - inversion H1 as [|? ? ? ? ? ? ? Ha Hb| | | | | |]; subst.
    apply dollars_denotes in Ha as (c & rest & -> & Hc).
    exists c, (rest +:+ w2). by rewrite !str_app_cons.
  - by eapply dollars_denotes.
Qed.

Lemma all_chars_lstrip p s : all_chars p s = true -> all_chars p (lstrip s) = true.
Proof.
  induction s as [|c s IH]; [done|]. cbn [lstrip all_chars].
  intros H. apply andb_true_iff in H as [Hc Hs].
  destruct (is_space c); [by apply IH|]. simpl. by rewrite Hc, Hs.
Qed.

Lemma all_chars_rstrip p s : all_chars p s = true -> all_chars p (rstrip s) = true.
Proof.
  induction s as [|c s IH]; [done|]. cbn [rstrip all_chars].
  intros H. apply andb_true_iff in H as [Hc Hs]. specialize (IH Hs).
  destruct (rstrip s) as [|d r].
  - destruct (is_space c); [done|]. simpl. by rewrite Hc.
  - simpl in *. by rewrite Hc, IH.
Qed.

Lemma all_chars_strip p s : all_chars p s = true -> all_chars p (strip s) = true.
Proof. intros H. by apply all_chars_rstrip, all_chars_lstrip. Qed.

(** A text of letters and white space holds no ticker. *)
Lemma no_ticker_in_letters a :
  all_chars is_letter_or_space a = true -> extract_ticker a = None.
Proof.
  intros Hall. destruct (extract_ticker a) as [k|] eqn:E; [|done]. exfalso.
  unfold extract_ticker in E.
  destruct (search_group1 false ticker_bracketed a) as [k1|] eqn:H1.
  { apply bracketed_found in H1 as (pre & o & c & post & -> & Ho & _ & _).
    rewrite all_chars_app in Hall. apply andb_true_iff in Hall as [_ Hall].
    cbn [all_chars] in Hall. apply andb_true_iff in Hall as [Hbad _].
    by destruct Ho as [-> | ->]. }
  destruct (search_group1 false ticker_then_hyphen a) as [k2|] eqn:H2.
  { apply code_hyphen_found in H2 as (pre & ws & post & -> & _ & _).
    rewrite !all_chars_app in Hall.
    apply andb_true_iff in Hall as [_ Hall].
    apply andb_true_iff in Hall as [_ Hall].
    apply andb_true_iff in Hall as [_ Hall].
    cbn [all_chars] in Hall. by apply andb_true_iff in Hall as [Hbad _]. }
  destruct (search_group1 false hyphen_then_ticker a) as [k3|] eqn:H3; [|done].
  apply hyphen_code_found in H3 as (pre & ws & post & -> & _ & _).
  rewrite all_chars_app in Hall. apply andb_true_iff in Hall as [_ Hall].
  cbn [all_chars] in Hall. by apply andb_true_iff in Hall as [Hbad _].
Qed.

Lemma company_suffix_letters w cs cs' :
  denotes false (alts [lit "Inc"; lit "Corp"; lit "LLC"; lit "Ltd"; lit "ETF"])
          w cs cs' ->
  all_chars is_letter_or_space w = true.
Proof.
  unfold alts, lit. intros H.
  inversion H as [| |? ? ? ? ? H1|? ? ? ? ? H1| | | |]; subst;
    [apply (lit_from_denotes false "I" "nc") in H1 as [_ ->]; done|].
  inversion H1 as [| |? ? ? ? ? H2|? ? ? ? ? H2| | | |]; subst;
    [apply (lit_from_denotes false "C" "orp") in H2 as [_ ->]; done|].
  inversion H2 as [| |? ? ? ? ? H3|? ? ? ? ? H3| | | |]; subst;
    [apply (lit_from_denotes false "L" "LC") in H3 as [_ ->]; done|].
  inversion H3 as [| |? ? ? ? ? H4|? ? ? ? ? H4| | | |]; subst;
    [apply (lit_from_denotes false "L" "td") in H4 as [_ ->]; done|].
  by apply (lit_from_denotes false "E" "TF") in H4 as [_ ->].
Qed.

(** What [asset_match.group(1)] can be in the heuristic tier. *)
Lemma asset_re_found text a :
  search_group1 false asset_re text = Some a ->
  occurs_in a text /\ all_chars is_letter_or_space a = true /\ a <> EmptyString.
Proof.
  unfold asset_re. intros H.
  apply search_group1_whole in H as (pre & post & cs & -> & Hden).
  split; [apply occurs_in_refl_app|].
  inversion Hden as [|? ? w1 w2 ? ? ? Ha Hb| | | | | |]; subst.
  unfold plus in Ha. inversion Ha; subst.
  match goal with
  | Hall : all_chars (cset_mem false letters_space) w1 = true |- _ =>
      rewrite (all_chars_ext _ _ _ (letters_space_mem false)) in Hall;
      rename Hall into Hw1
  end.
  assert (Hw2 : all_chars is_letter_or_space w2 = true).
  { inversion Hb; subst; [by eapply company_suffix_letters | done]. }
  split; [by rewrite all_chars_app, Hw1, Hw2|].
  destruct w1; [simpl in *; lia | done].
Qed.

Lemma dollar_is_likely text a :
  occurs_in a text -> dollars_like a -> is_likely_transaction text = true.
Proof.
  intros (pre & post & ->) (c & rest & -> & _).
  unfold is_likely_transaction. cbv zeta. apply existsb_exists. exists "$".
  split; [do 5 right; by left|].
  apply contains_spec. rewrite !lower_app.
  by exists (lower pre), (lower (String c rest) +:+ lower post).
Qed.

(** X3: when [parse_transaction_text] yields a transaction, its asset is
    what [strip] leaves of a non-empty run of letters and white space of the
    text (the stored asset itself can be empty, see
    [heuristic_block_blank_asset]), its type is Purchase, Sale or Exchange in
    some mix of cases, its date reads d/d/yyyy and its amount starts with a
    dollar sign, each taken from the text; and the text passes
    [is_likely_transaction], so that filter never rejects a block the text
    parser would accept. *)
Theorem heuristic_block_fields (text : string) (t : gmap string pyval) :
  parse_transaction_text text = Some t ->
  exists asset type date amount,
    t !! "asset" = Some (PStr (strip asset))
    /\ occurs_in asset text /\ all_chars is_letter_or_space asset = true
    /\ asset <> EmptyString
    /\ t !! "transaction_type" = Some (PStr type)
    /\ occurs_in type text /\ type_word type
    /\ t !! "date" = Some (PStr date)
    /\ occurs_in date text /\ date_like date
    /\ t !! "amount" = Some (PStr amount)
    /\ occurs_in amount text /\ dollars_like amount
    /\ is_likely_transaction text = true.
Proof.
  unfold parse_transaction_text. intros H.
  destruct (search_group1 false asset_re text) as [asset|] eqn:Ha; [|done].
  destruct (search_group1 true _ text) as [type|] eqn:Ht; [|done].
  destruct (search_group1 false (RGroup 1 date_shape) text) as [date|] eqn:Hd;
    [|done].
  destruct (search_group1 false (RGroup 1 amount_shape) text)
    as [amount|] eqn:Hm; [|done].
  injection H as <-.
  apply asset_re_found in Ha as (Ha1 & Ha2 & Ha3).
  apply search_group1_whole in Ht as (p1 & q1 & c1 & -> & Ht).
  apply type_words_denotes in Ht.
  apply search_group1_whole in Hd as (p2 & q2 & c2 & Hd1 & Hd).
  apply date_shape_denotes in Hd.
  apply search_group1_whole in Hm as (p3 & q3 & c3 & Hm1 & Hm).
  apply amount_shape_denotes in Hm.
  assert (Hod : occurs_in date (p1 +:+ type +:+ q1)) by (by exists p2, q2).
  assert (Hom : occurs_in amount (p1 +:+ type +:+ q1)) by (by exists p3, q3).
  exists asset, type, date, amount.
  repeat split; try done; dict_lookup.
  - apply occurs_in_refl_app.
  - by eapply dollar_is_likely.
Qed.

(** The block of [spouse_div_doc]. *)
Lemma heuristic_block_fields_witness :
  exists asset type date amount,
    spouse_transaction !! "asset" = Some (PStr (strip asset))
    /\ occurs_in asset "Spouse Apple IncPurchase1/2/2023 $1,000"
    /\ all_chars is_letter_or_space asset = true
    /\ asset <> EmptyString
    /\ spouse_transaction !! "transaction_type" = Some (PStr type)
    /\ occurs_in type "Spouse Apple IncPurchase1/2/2023 $1,000"
    /\ type_word type
    /\ spouse_transaction !! "date" = Some (PStr date)
    /\ occurs_in date "Spouse Apple IncPurchase1/2/2023 $1,000"
    /\ date_like date
    /\ spouse_transaction !! "amount" = Some (PStr amount)
    /\ occurs_in amount "Spouse Apple IncPurchase1/2/2023 $1,000"
    /\ dollars_like amount
    /\ is_likely_transaction "Spouse Apple IncPurchase1/2/2023 $1,000" = true.
Proof.
  apply (heuristic_block_fields "Spouse Apple IncPurchase1/2/2023 $1,000"
           spouse_transaction).
  compute_done.
Defined.

(** The run of letters and white space may be white space only: here it is
    the blank after "12", and the asset that is stored is empty. *)
Lemma heuristic_block_blank_asset :
  parse_transaction_text "12 - 1/2/2023 sale $5"
  = Some (self_owned EmptyString "sale" "1/2/2023" "$5").
Proof. compute_done. Qed.

(** X4: every transaction of the regex tier comes from an occurrence, in the
    raw document, of a non-empty run of letters and white space, a type word
    (Purchase, Sale or Exchange in any mix of cases), a date d/d/yyyy and a
    dollar amount, in this order, with white space or nothing between them;
    its asset, type, date and amount are those four parts (the asset
    stripped), and its owner and relationship are "self". *)
Theorem regex_tier_fields (html : string) (t : gmap string pyval) :
  In t (parse_with_regex html) ->
  exists asset type date amount ws1 ws2 ws3,
    occurs_in (asset +:+ ws1 +:+ type +:+ ws2 +:+ date +:+ ws3 +:+ amount) html
    /\ all_chars is_space ws1 = true /\ all_chars is_space ws2 = true
    /\ all_chars is_space ws3 = true
    /\ all_chars is_letter_or_space asset = true /\ asset <> EmptyString
    /\ type_word type /\ date_like date /\ dollars_like amount
    /\ t !! "asset" = Some (PStr (strip asset))
    /\ t !! "transaction_type" = Some (PStr type)
    /\ t !! "date" = Some (PStr date)
    /\ t !! "amount" = Some (PStr amount)
    /\ t !! "owner" = Some (PStr "self")
    /\ t !! "relationship" = Some (PStr "self").
Proof.
  unfold parse_with_regex, findall. intros Hin.
  apply in_map_iff in Hin as (m & <- & Hm).
  apply findall_from_sound in Hm as (pre & w & post & -> & Hden).
  cbv [transaction_pattern seqs plus star] in Hden. invert_denotes.
  repeat match goal with
         | H : denotes true ?r _ _ ?c |- _ =>
             is_var c;
             pose proof (denotes_group_free _ _ _ _ _ H eq_refl); subst c
         end.
  repeat match goal with
         | H : all_chars (cset_mem true [CSpace]) _ = true |- _ =>
             rewrite (all_chars_ext _ _ _ (space_mem true)) in H
         | H : all_chars (cset_mem true letters_space) _ = true |- _ =>
             rewrite (all_chars_ext _ _ _ (letters_space_mem true)) in H
         | H : denotes true type_words _ _ _ |- _ => apply type_words_denotes in H
         | H : denotes true date_shape _ _ _ |- _ => apply date_shape_denotes in H
         | H : denotes true amount_shape _ _ _ |- _ =>
             apply amount_shape_denotes in H
         end.
  match goal with
  | |- context [occurs_in _ (_ +:+ (?a +:+ ?s1 +:+ ?ty +:+ ?s2 +:+ ?d +:+ ?s3 +:+ ?m)
                               +:+ _)] =>
      exists a, ty, d, m, s1, s2, s3
  end.
  unfold regex_transaction. cbn [group_text group Nat.eqb default].
  repeat split; try done; dict_lookup.
  - apply occurs_in_refl_app.
  - match goal with
    | H : (1 <= String.length ?a)%nat |- ?a <> _ =>
        intros ->; simpl in H; lia
    end.
Qed.

(** The Goldman line. *)
Lemma regex_tier_fields_witness :
  exists asset type date amount ws1 ws2 ws3,
    occurs_in (asset +:+ ws1 +:+ type +:+ ws2 +:+ date +:+ ws3 +:+ amount)
              goldman_text
    /\ all_chars is_space ws1 = true /\ all_chars is_space ws2 = true
    /\ all_chars is_space ws3 = true
    /\ all_chars is_letter_or_space asset = true /\ asset <> EmptyString
    /\ type_word type /\ date_like date /\ dollars_like amount
    /\ goldman_transaction !! "asset" = Some (PStr (strip asset))
    /\ goldman_transaction !! "transaction_type" = Some (PStr type)
    /\ goldman_transaction !! "date" = Some (PStr date)
    /\ goldman_transaction !! "amount" = Some (PStr amount)
    /\ goldman_transaction !! "owner" = Some (PStr "self")
    /\ goldman_transaction !! "relationship" = Some (PStr "self").
Proof.
  apply (regex_tier_fields goldman_text goldman_transaction).
  rewrite parse_with_regex_goldman. by left.
Defined.

(** Nothing need stand between the four parts. *)
Lemma regex_tier_unspaced :
  parse_with_regex "aSale1/2/2023$5"
  = [self_owned "a" "Sale" "1/2/2023" "$5"].
Proof. compute_done. Qed.

(** X5: outside the table tier the ticker is always [None]: the asset text
    that [extract_ticker] is given consists of letters and white space, and
    every ticker pattern needs a bracket or a hyphen. *)
Theorem no_ticker_outside_tables :
  (forall text t,
      parse_transaction_text text = Some t -> t !! "ticker" = Some PNone)
  /\ (forall html t,
         In t (parse_with_regex html) -> t !! "ticker" = Some PNone).
Proof.
  split.
  - intros text t. unfold parse_transaction_text.
    destruct (search_group1 false asset_re text) as [asset|] eqn:Ha; [|done].
    destruct (search_group1 true _ text) as [type|]; [|done].
    destruct (search_group1 false (RGroup 1 date_shape) text) as [date|]; [|done].
    destruct (search_group1 false (RGroup 1 amount_shape) text) as [amount|];
      [|done].
    intros [= <-]. apply asset_re_found in Ha as (_ & Ha & _).
    rewrite (no_ticker_in_letters asset Ha). dict_lookup.
  - intros html t. unfold parse_with_regex, findall. intros Hin.
    apply in_map_iff in Hin as (m & <- & Hm).
    apply findall_from_sound in Hm as (pre & w & post & -> & Hden).
    cbv [transaction_pattern seqs plus star] in Hden. invert_denotes.
    repeat match goal with
           | H : denotes true ?r _ _ ?c |- _ =>
               is_var c;
               pose proof (denotes_group_free _ _ _ _ _ H eq_refl); subst c
           end.
    unfold regex_transaction. cbn [group_text group Nat.eqb default].
    unfold id.
    match goal with
    | H : all_chars (cset_mem true letters_space) ?a = true |- _ =>
        rewrite (all_chars_ext _ _ _ (letters_space_mem true)) in H;
        rewrite (no_ticker_in_letters a H)
    end.
    dict_lookup.
Qed.

Lemma parse_apple_block :
  parse_transaction_text apple_block_text = Some apple_block_transaction.
Proof. compute_done. Qed.

(** Even a block that spells out a ticker in brackets loses it. *)
Lemma no_ticker_outside_tables_witness :
  apple_block_transaction !! "ticker" = Some PNone
  /\ goldman_transaction !! "ticker" = Some PNone.
Proof.
  split.
  - apply (proj1 no_ticker_outside_tables apple_block_text).
    apply parse_apple_block.
  - apply (proj2 no_ticker_outside_tables goldman_text).
    rewrite parse_with_regex_goldman. by left.
Defined.

(** ** StructuredTableParser, continued *)

Lemma first_index_some {A} (p : A -> bool) l i j :
  first_index p l i = Some j <->
  (i <= j)%nat
  /\ (exists h, l !! (j - i)%nat = Some h /\ p h = true)
  /\ forall k h, (k < j - i)%nat -> l !! k = Some h -> p h = false.
Proof.
  revert i. induction l as [|x l IH]; intros i; cbn [first_index].
  - split; [done|]. by intros (_ & (h & Hh & _) & _).
  - destruct (p x) eqn:Hx.
    + split.
      * intros [= <-]. rewrite Nat.sub_diag. split; [lia|].
        split; [by exists x|]. intros k h Hk. lia.
      * intros (Hij & (h & Hh & Hph) & Hfirst).
        destruct (j - i)%nat as [|d] eqn:Hd; [f_equal; lia|].
        specialize (Hfirst 0%nat x ltac:(lia) eq_refl). congruence.
    + rewrite IH. split.
      * intros (Hij & (h & Hh & Hph) & Hfirst).
        replace (j - i)%nat with (S (j - S i)) by lia.
        split; [lia|]. split; [by exists h|].
        intros [|k] h' Hk Hh'; [by injection Hh' as <-|].
        apply (Hfirst k h'); [lia | done].
      * intros (Hij & (h & Hh & Hph) & Hfirst).
        destruct (j - i)%nat as [|d] eqn:Hd.
        { injection Hh as ->. congruence. }
        replace (j - S i)%nat with d by lia.
        split; [lia|]. split; [by exists h|].
        intros k h' Hk Hh'. apply (Hfirst (S k) h'); [lia | done].
Qed.

Lemma synonyms_in_none table field :
  ~ In field (map fst table) -> synonyms_in table field = None.
Proof.
  induction table as [|[f names] rest IH]; [done|]. cbn [map fst In synonyms_in].
  intros Hnot. destruct (String.eqb_spec f field) as [->|Hne]; [tauto|].
  apply IH. tauto.
Qed.

Lemma header_fold_lookup headers mappings (m : gmap string nat) field :
  NoDup (map fst mappings) ->
  fold_left
    (fun header_map '(field, possible_names) =>
       match first_index (any_in possible_names) headers 0 with
       | Some idx => <[field := idx]> header_map
       | None => header_map
       end) mappings m !! field
  = match synonyms_in mappings field with
    | Some names =>
        match first_index (any_in names) headers 0 with
        | Some idx => Some idx
        | None => m !! field
        end
    | None => m !! field
    end.
Proof.
  revert m. induction mappings as [|[f names] rest IH]; intros m Hnd; [done|].
  cbn [map fst] in Hnd. apply NoDup_cons in Hnd as [Hf Hnd].
  cbn [fold_left synonyms_in]. rewrite (IH _ Hnd).
  destruct (String.eqb_spec f field) as [->|Hne].
  - rewrite synonyms_in_none by (by rewrite <- list_elem_of_In).
    destruct (first_index _ headers 0); [by rewrite lookup_insert_eq | done].
  - assert (Hm : (match first_index (any_in names) headers 0 with
                  | Some idx => <[f:=idx]> m
                  | None => m
                  end) !! field = m !! field).
    { destruct (first_index _ headers 0); [by rewrite lookup_insert_ne | done]. }
    by rewrite Hm.
Qed.

Lemma create_header_map_lookup headers field :
  create_header_map headers !! field
  = match synonyms field with
    | Some names => first_index (any_in names) headers 0
    | None => None
    end.
Proof.
  unfold create_header_map, synonyms. rewrite header_fold_lookup.
  - rewrite lookup_empty.
    destruct (synonyms_in field_mappings field); [|done].
    by destruct (first_index _ headers 0).
  - cbn. repeat (apply NoDup_cons; split; [set_solver|]). apply NoDup_nil_2.
Qed.

(** X6: [create_header_map] maps a field to a column exactly when the field
    is one of the six of the synonym table and the column is the first one
    whose header contains one of the field's synonyms. *)
Theorem header_map_first_match (headers : list string) (field : string)
        (idx : nat) :
  create_header_map headers !! field = Some idx <->
  exists names, synonyms field = Some names /\ first_column names headers idx.
Proof.
  rewrite create_header_map_lookup. unfold first_column.
  destruct (synonyms field) as [names|].
  - rewrite first_index_some, Nat.sub_0_r. split.
    + intros (_ & Hh & Hfirst). by exists names.
    + intros (names' & [= <-] & Hh & Hfirst). split; [lia | done].
  - split; [done | by intros (names & Hn & _)].
Qed.

Lemma py_index_spec {A} (l : list A) i x : py_index l i = Ok x <-> l !! i = Some x.
Proof. unfold py_index. destruct (l !! i); naive_solver. Qed.

Lemma py_index_raises {A} (l : list A) i e :
  py_index l i = Raise e -> e = IndexError /\ (length l <= i)%nat.
Proof.
  unfold py_index. destruct (l !! i) eqn:H; [done|]. intros [= <-].
  split; [done|]. by apply lookup_ge_None.
Qed.

Lemma res_bind_raise {A B} (x : res A) (f : A -> res B) e :
  res_bind x f = Raise e -> x = Raise e \/ exists a, x = Ok a /\ f a = Raise e.
Proof. destruct x as [a|e']; simpl; [right; by exists a | left; congruence]. Qed.

Lemma copy_cell_own field texts hm t t' :
  copy_cell field texts hm t = Ok t' ->
  match hm !! field with
  | Some idx => exists v, texts !! idx = Some v /\ t' !! field = Some (PStr v)
  | None => t' = t
  end.
Proof.
  unfold copy_cell. destruct (hm !! field) as [idx|]; [|by intros [= <-]].
  intros H. apply res_bind_ok in H as (v & Hv & [= <-]).
  apply py_index_spec in Hv. exists v. by rewrite lookup_insert_eq.
Qed.

Lemma asset_block_own texts hm t t' :
  asset_block texts hm t = Ok t' ->
  match hm !! "asset" with
  | Some idx =>
      exists v, texts !! idx = Some v
                /\ t' !! "asset" = Some (PStr v)
                /\ t' !! "ticker" = Some (opt_str (extract_ticker v))
  | None => t' = t
  end.
Proof.
  unfold asset_block. destruct (hm !! "asset") as [idx|]; [|by intros [= <-]].
  intros H. apply res_bind_ok in H as (v & Hv & [= <-]).
  apply py_index_spec in Hv. exists v. repeat split; dict_lookup.
Qed.

Lemma owner_block_own texts hm t t' :
  owner_block texts hm t = Ok t' ->
  match hm !! "owner" with
  | Some idx =>
      exists v, texts !! idx = Some v
                /\ t' !! "owner" = Some (PStr v)
                /\ t' !! "relationship"
                   = Some (PStr (identify_transaction_owner v))
  | None => t' = t
  end.
Proof.
  unfold owner_block. destruct (hm !! "owner") as [idx|]; [|by intros [= <-]].
  intros H. apply res_bind_ok in H as (v & Hv & [= <-]).
  apply py_index_spec in Hv. exists v. repeat split; dict_lookup.
Qed.

(** X7: a transaction built by [extract_transaction_from_cells] holds, for
    each of asset, transaction_type, date, amount and owner, the text of the
    mapped column, and lacks the field when it is not mapped; the ticker is
    derived from the asset text and the relationship from the owner text
    (both absent when their source is); a mapped ticker column is not read. *)
Theorem table_row_fields (cells : list node) (hm : gmap string nat)
        (t : gmap string pyval) :
  extract_transaction_from_cells cells hm = Ok t ->
  let texts := map get_text_strip cells in
  Forall (fun field => holds_column hm texts field t) read_fields
  /\ t !! "ticker"
     = (fun a => opt_str (extract_ticker a)) <$> (hm !! "asset" ≫= (texts !!.))
  /\ t !! "relationship"
     = (fun o => PStr (identify_transaction_owner o))
         <$> (hm !! "owner" ≫= (texts !!.)).
Proof.
  intros H texts. unfold extract_transaction_from_cells in H. fold texts in H.
  apply res_bind_ok in H as (t1 & H1 & H).
  apply res_bind_ok in H as (t2 & H2 & H).
  apply res_bind_ok in H as (t3 & H3 & H).
  apply res_bind_ok in H as (t4 & H4 & H).
  pose proof (asset_block_own _ _ _ _ H1) as O1.
  pose proof (copy_cell_own _ _ _ _ _ H2) as O2.
  pose proof (copy_cell_own _ _ _ _ _ H3) as O3.
  pose proof (copy_cell_own _ _ _ _ _ H4) as O4.
  pose proof (owner_block_own _ _ _ _ H) as O5.
  assert (L5 : forall k, k <> "owner" -> k <> "relationship" -> t !! k = t4 !! k)
    by (intros; by eapply owner_block_lookup).
  assert (L4 : forall k, k <> "amount" -> t4 !! k = t3 !! k)
    by (intros; by eapply copy_cell_lookup).
  assert (L3 : forall k, k <> "date" -> t3 !! k = t2 !! k)
    by (intros; by eapply copy_cell_lookup).
  assert (L2 : forall k, k <> "transaction_type" -> t2 !! k = t1 !! k)
    by (intros; by eapply copy_cell_lookup).
  assert (L1 : forall k, k <> "asset" -> k <> "ticker" ->
                         t1 !! k = (<["cell_count" := PInt (Z.of_nat (length cells))]>
                                      (<["raw_text" := PStr (join " | " texts)]>
                                         (∅ : gmap string pyval))) !! k)
    by (intros; by eapply asset_block_lookup).
  unfold read_fields, holds_column.
  split; [repeat apply Forall_cons_2; [| | | | |apply Forall_nil_2]|split].
  - rewrite L5, L4, L3, L2 by done.
    destruct (hm !! "asset") as [i|]; [by destruct O1 as (v & ? & ? & _); exists v|].
    subst t1. dict_lookup.
  - rewrite L5, L4, L3 by done.
    destruct (hm !! "transaction_type") as [i|]; [done|].
    subst t2. rewrite L1 by done. dict_lookup.
  - rewrite L5, L4 by done.
    destruct (hm !! "date") as [i|]; [done|].
    subst t3. rewrite L2, L1 by done. dict_lookup.
  - rewrite L5 by done.
    destruct (hm !! "amount") as [i|]; [done|].
    subst t4. rewrite L3, L2, L1 by done. dict_lookup.
  - destruct (hm !! "owner") as [i|]; [by destruct O5 as (v & ? & ? & _); exists v|].
    subst t. rewrite L4, L3, L2, L1 by done. dict_lookup.
  - rewrite L5, L4, L3, L2 by done.
    destruct (hm !! "asset") as [i|]; simpl.
    + destruct O1 as (v & -> & _ & ->). done.
    + subst t1. dict_lookup.
  - destruct (hm !! "owner") as [i|]; simpl.
    + destruct O5 as (v & -> & _ & ->). done.
    + subst t. rewrite L4, L3, L2, L1 by done. dict_lookup.
Qed.

Lemma full_row_extracted :
  extract_transaction_from_cells full_row_cells full_row_map
  = Ok full_row_transaction.
Proof. compute_done. Qed.

(** The row of [full_row_doc]: four mapped columns, no owner. *)
Lemma table_row_fields_witness :
  let texts := map get_text_strip full_row_cells in
  Forall (fun field => holds_column full_row_map texts field full_row_transaction)
         read_fields
  /\ full_row_transaction !! "ticker"
     = (fun a => opt_str (extract_ticker a))
         <$> (full_row_map !! "asset" ≫= (texts !!.))
  /\ full_row_transaction !! "relationship"
     = (fun o => PStr (identify_transaction_owner o))
         <$> (full_row_map !! "owner" ≫= (texts !!.)).
Proof.
  apply (table_row_fields full_row_cells full_row_map full_row_transaction).
  apply full_row_extracted.
Defined.

Lemma extract_transaction_ok_read cells hm :
  (forall f i, In f read_fields -> hm !! f = Some i -> (i < length cells)%nat) ->
  exists t, extract_transaction_from_cells cells hm = Ok t.
Proof.
  intros Hhm. unfold extract_transaction_from_cells.
  set (texts := map get_text_strip cells).
  assert (Hidx : forall f i, In f read_fields -> hm !! f = Some i ->
                             exists x, py_index texts i = Ok x).
  { intros f i Hin Hf. apply py_index_ok. subst texts. rewrite length_map. eauto. }
  assert (Hcopy : forall f t, In f read_fields ->
                              exists t', copy_cell f texts hm t = Ok t').
  { intros f t Hin. unfold copy_cell.
    destruct (hm !! f) as [i|] eqn:Hf; [|by eexists].
    destruct (Hidx f i Hin Hf) as [x ->]. by eexists. }
  generalize (<["cell_count" := PInt (Z.of_nat (length cells))]>
                (<["raw_text" := PStr (join " | " texts)]> (∅ : gmap string pyval))).
  intros t0.
  assert (Hasset : exists t1, asset_block texts hm t0 = Ok t1).
  { unfold asset_block. destruct (hm !! "asset") as [i|] eqn:Hf; [|by eexists].
    destruct (Hidx "asset" i ltac:(by left) Hf) as [x ->]. by eexists. }
  destruct Hasset as [t1 ->]. simpl.
  destruct (Hcopy "transaction_type" t1 ltac:(right; by left)) as [t2 ->]. simpl.
  destruct (Hcopy "date" t2 ltac:(do 2 right; by left)) as [t3 ->]. simpl.
  destruct (Hcopy "amount" t3 ltac:(do 3 right; by left)) as [t4 ->]. simpl.
  unfold owner_block. destruct (hm !! "owner") as [i|] eqn:Hf; [|by eexists].
  destruct (Hidx "owner" i ltac:(do 4 right; by left) Hf) as [x ->]. by eexists.
Qed.

Lemma extract_transaction_reads cells hm t f i :
  extract_transaction_from_cells cells hm = Ok t ->
  In f read_fields -> hm !! f = Some i -> (i < length cells)%nat.
Proof.
  intros H Hin Hf. unfold extract_transaction_from_cells in H.
  apply res_bind_ok in H as (t1 & H1 & H).
  apply res_bind_ok in H as (t2 & H2 & H).
  apply res_bind_ok in H as (t3 & H3 & H).
  apply res_bind_ok in H as (t4 & H4 & H).
  apply asset_block_own in H1. apply copy_cell_own in H2, H3, H4.
  apply owner_block_own in H.
  assert (Hlt : forall v, map get_text_strip cells !! i = Some v ->
                          (i < length cells)%nat).
  { intros v Hv. apply lookup_lt_Some in Hv. by rewrite length_map in Hv. }
  simpl in Hin.
  destruct Hin as [<-|[<-|[<-|[<-|[<-|[]]]]]]; rewrite Hf in *.
  - destruct H1 as (v & Hv & _); eauto.
  - destruct H2 as (v & Hv & _); eauto.
  - destruct H3 as (v & Hv & _); eauto.
  - destruct H4 as (v & Hv & _); eauto.
  - destruct H as (v & Hv & _); eauto.
Qed.

Lemma extract_transaction_raises cells hm e :
  extract_transaction_from_cells cells hm = Raise e -> e = IndexError.
Proof.
  unfold extract_transaction_from_cells, asset_block, copy_cell, owner_block.
  intros H.
  repeat match goal with
         | H : res_bind _ _ = Raise _ |- _ =>
             apply res_bind_raise in H as [H | (? & _ & H)]
         | H : match ?x with Some _ => _ | None => _ end = Raise _ |- _ =>
             destruct x
         | H : py_index _ _ = Raise _ |- _ => by apply py_index_raises in H as [-> _]
         | H : Ok _ = Raise _ |- _ => discriminate H
         end.
Qed.

Lemma extract_transaction_outcome cells hm :
  (out_of_row hm cells
   /\ extract_transaction_from_cells cells hm = Raise IndexError)
  \/ (~ out_of_row hm cells
      /\ exists t, extract_transaction_from_cells cells hm = Ok t).
Proof.
  assert (Hcase : forall f,
            (exists i, hm !! f = Some i /\ (length cells <= i)%nat)
            \/ (forall i, hm !! f = Some i -> (i < length cells)%nat)).
  { intros f. destruct (hm !! f) as [i|]; [|by right].
    destruct (decide (i < length cells)%nat).
    - right. by intros ? [= <-].
    - left. exists i. split; [done | lia]. }
  assert (Hout : forall f, In f read_fields ->
            (exists i, hm !! f = Some i /\ (length cells <= i)%nat) ->
            out_of_row hm cells
            /\ extract_transaction_from_cells cells hm = Raise IndexError).
  { intros f Hin (i & Hf & Hi).
    split; [by exists f, i|].
    destruct (extract_transaction_from_cells cells hm) as [t|e] eqn:E.
    - pose proof (extract_transaction_reads _ _ _ _ _ E Hin Hf). lia.
    - apply extract_transaction_raises in E. by subst. }
  destruct (Hcase "asset") as [Hex|Ha];
    [left; apply (Hout "asset"); simpl; tauto|].
  destruct (Hcase "transaction_type") as [Hex|Ht];
    [left; apply (Hout "transaction_type"); simpl; tauto|].
  destruct (Hcase "date") as [Hex|Hd];
    [left; apply (Hout "date"); simpl; tauto|].
  destruct (Hcase "amount") as [Hex|Hm];
    [left; apply (Hout "amount"); simpl; tauto|].
  destruct (Hcase "owner") as [Hex|Ho];
    [left; apply (Hout "owner"); simpl; tauto|].
  right. split.
  - intros (f & i & Hin & Hf & Hi). simpl in Hin.
    destruct Hin as [<-|[<-|[<-|[<-|[<-|[]]]]]];
      match goal with H : forall i, hm !! _ = Some i -> _ |- _ =>
        specialize (H i Hf); lia end.
  - apply extract_transaction_ok_read. intros f i Hin. simpl in Hin.
    destruct Hin as [<-|[<-|[<-|[<-|[<-|[]]]]]]; auto.
Qed.

(** X8: [extract_transaction_from_cells] raises exactly when one of the five
    fields it reads is mapped to a column the row does not have, and then
    the exception is [IndexError]; otherwise it returns a transaction. *)
Theorem table_row_raises_iff (cells : list node) (hm : gmap string nat) :
  (extract_transaction_from_cells cells hm = Raise IndexError <->
   exists field idx,
     In field read_fields /\ hm !! field = Some idx
     /\ (length cells <= idx)%nat)
  /\ (forall e, extract_transaction_from_cells cells hm = Raise e ->
                e = IndexError)
  /\ ((exists t, extract_transaction_from_cells cells hm = Ok t) <->
      forall field idx, In field read_fields -> hm !! field = Some idx ->
                        (idx < length cells)%nat).
Proof.
  split; [|split; [apply extract_transaction_raises|]].
  - destruct (extract_transaction_outcome cells hm) as [[Hout E]|[Hout [t E]]].
    + by split.
    + split; [congruence | by intros ?].
  - split.
    + intros [t E] f i. by apply extract_transaction_reads with (t := t).
    + apply extract_transaction_ok_read.
Qed.






Lemma empty_map_never_out (cells : list node) : ~ out_of_row ∅ cells.
Proof. intros (f & i & _ & Hf & _). by rewrite lookup_empty in Hf. Qed.

Lemma rows_loop_outcome rows hm acc :
  (Exists (row_breaks hm) rows /\ rows_loop rows hm acc = Raise IndexError)
  \/ (~ Exists (row_breaks hm) rows /\ exists txs, rows_loop rows hm acc = Ok txs).
Proof.
  revert acc. induction rows as [|row rows IH]; intros acc; cbn [rows_loop].
  - right. split; [by intros H%Exists_nil | by eexists].
  - destruct (3 <=? length (find_all ["td"; "th"] row))%nat eqn:Hlen.
    + apply Nat.leb_le in Hlen.
      destruct (extract_transaction_outcome (find_all ["td"; "th"] row) hm)
        as [[Hout ->]|[Hout [t ->]]]; simpl.
      * left. split; [|done]. apply Exists_cons_hd. by split.
      * destruct (IH (if dict_truthy t then acc ++ [t] else acc))
          as [[Hex ->]|[Hnex [txs ->]]].
        -- left. split; [by apply Exists_cons_tl | done].
        -- right. split; [|by eexists].
           intros [[_ Hb]|Hb]%Exists_cons; tauto.
    + apply Nat.leb_gt in Hlen.
      destruct (IH acc) as [[Hex ->]|[Hnex [txs ->]]].
      * left. split; [by apply Exists_cons_tl | done].
      * right. split; [|by eexists].
        intros [[Hb _]|Hb]%Exists_cons; [lia | tauto].
Qed.

Lemma tables_loop_outcome tables acc :
  (Exists table_breaks tables /\ tables_loop tables acc = Raise IndexError)
  \/ (~ Exists table_breaks tables /\ exists txs, tables_loop tables acc = Ok txs).
Proof.
  revert acc. induction tables as [|table tables IH]; intros acc; simpl.
  - right. split; [by intros H%Exists_nil | by eexists].
  - assert (Hskip : ~ table_breaks table ->
              (Exists table_breaks (table :: tables)
               /\ tables_loop tables acc = Raise IndexError)
              \/ (~ Exists table_breaks (table :: tables)
                  /\ exists txs, tables_loop tables acc = Ok txs)).
    { intros Hnb. destruct (IH acc) as [[Hex E]|[Hnex E]].
      - left. split; [by apply Exists_cons_tl | done].
      - right. split; [|done]. intros [Hb|Hb]%Exists_cons; tauto. }
    destruct (find_all ["tr"] table) as [|row0 [|row1 data]] eqn:Htr;
      [apply Hskip; unfold table_breaks; rewrite Htr; intros []
      |apply Hskip; unfold table_breaks; rewrite Htr; intros []|].
    set (hm := create_header_map _) in *.
    assert (Hiff : table_breaks table <-> Exists (row_breaks hm) (row1 :: data))
      by (unfold table_breaks; by rewrite Htr).
    destruct (dict_truthy hm) eqn:Htruthy.
    + destruct (rows_loop_outcome (row1 :: data) hm acc)
        as [[Hex ->]|[Hnex [txs ->]]]; cbn [res_bind].
      * left. split; [by apply Exists_cons_hd, Hiff | done].
      * destruct (IH txs) as [[Hex E]|[Hnex' E]].
        -- left. split; [by apply Exists_cons_tl | done].
        -- right. split; [|done]. intros [Hb|Hb]%Exists_cons; tauto.
    + apply Hskip. rewrite Hiff. unfold dict_truthy in Htruthy.
      apply negb_false_iff, bool_decide_eq_true in Htruthy. rewrite Htruthy.
      intros Hb. apply Exists_exists in Hb as (row & _ & _ & Hout).
      by apply empty_map_never_out in Hout.
Qed.

(** X10: [parse_tables] raises exactly when some table of the document has
    at least two rows and, below its header, a row of three cells or more
    that lacks a column to which the header maps a field that is read; the
    exception is then [IndexError], and the transactions of earlier rows are
    lost with it.  In every other case it returns a list. *)
Theorem parse_tables_raises_iff (soup : node) :
  (parse_tables soup = Raise IndexError <->
   Exists table_breaks (find_all ["table"] soup))
  /\ ((exists txs, parse_tables soup = Ok txs) <->
      ~ Exists table_breaks (find_all ["table"] soup))
  /\ (forall e, parse_tables soup = Raise e -> e = IndexError).
Proof.
  unfold parse_tables.
  destruct (tables_loop_outcome (find_all ["table"] soup) [])
    as [[Hex E]|[Hnex [txs E]]]; rewrite E.
  - split; [by split|]. split; [|by intros e [= <-]].
    split; [by intros [txs ?] | by intros []].
  - split; [split; [done | by intros ?]|]. split; [|done].
    split; [done | by exists txs].
Qed.

(** ** Runs of the session methods *)

Section RunInversion.
Context {W : Type}.

Lemma bind_ok_inv {A B} (m : M W A) (f : A -> M W B) s b s' t :
  bind m f s = (Ok b, s', t) ->
  exists a s1 t1 t2,
    m s = (Ok a, s1, t1) /\ f a s1 = (Ok b, s', t2) /\ t = t1 ++ t2.
Proof.
  unfold bind. destruct (m s) as [[[a|e] s1] t1]; [|by intros [=]].
  destruct (f a s1) as [[r s2] t2] eqn:E. cbn. intros [= -> -> <-].
  by exists a, s1, t1, t2.
Qed.

Lemma bind_raise_inv {A B} (m : M W A) (f : A -> M W B) s e s' t :
  bind m f s = (Raise e, s', t) ->
  m s = (Raise e, s', t)
  \/ exists a s1 t1 t2,
       m s = (Ok a, s1, t1) /\ f a s1 = (Raise e, s', t2) /\ t = t1 ++ t2.
Proof.
  unfold bind. destruct (m s) as [[[a|e1] s1] t1];
    [|intros [= -> -> ->]; by left].
  destruct (f a s1) as [[r s2] t2] eqn:E. cbn. intros [= -> -> <-].
  right. by exists a, s1, t1, t2.
Qed.

Lemma try_except_inv {A} (m : M W A) (h : exn -> M W A) s r s' t :
  try_except m h s = (r, s', t) ->
  (exists a, r = Ok a /\ m s = (Ok a, s', t))
  \/ exists e s1 t1 t2,
       m s = (Raise e, s1, t1) /\ h e s1 = (r, s', t2) /\ t = t1 ++ t2.
Proof.
  unfold try_except. destruct (m s) as [[[a|e] s1] t1].
  - intros [= <- <- <-]. left. by exists a.
  - destruct (h e s1) as [[r2 s2] t2] eqn:E. cbn. intros [= <- <- <-].
    right. by exists e, s1, t1, t2.
Qed.

Lemma perform_inv {A} ev (op : W -> res A * W) s r s' t :
  perform ev op s = (r, s', t) ->
  t = [ev] /\ session_established s' = session_established s
  /\ op (world s) = (r, world s').
Proof.
  unfold perform. destruct (op (world s)) as [r1 w1]. cbn. by intros [= <- <- <-].
Qed.

Lemma ret_inv {A} (a : A) (s : state W) r s' t :
  ret a s = (r, s', t) -> r = Ok a /\ s' = s /\ t = [].
Proof. by intros [= <- <- <-]. Qed.

End RunInversion.

Section SessionOutcome.
Context {W : Type} {env : Env W}.
Implicit Types (s : state W) (tr : list event).

Lemma selenium_consent_done s u s1 t1 :
  selenium_consent s = (Ok u, s1, t1) -> In EClick t1 /\ In EGetCookies t1.
Proof.
  unfold selenium_consent. intros H.
  apply bind_ok_inv in H as (? & ? & ta & ? & Ha & H & ->).
  apply bind_ok_inv in H as (? & ? & tb & ? & Hb & H & ->).
  apply bind_ok_inv in H as (? & ? & tc & ? & Hc & H & ->).
  apply bind_ok_inv in H as (? & ? & td & ? & Hd & H & ->).
  apply bind_ok_inv in H as (? & ? & te & ? & He & H & ->).
  apply perform_inv in Hd as [-> _]. apply perform_inv in He as [-> _].
  rewrite !in_app_iff. simpl. tauto.
Qed.

Lemma selenium_consent_no_post target :
  behaves (W:=W) (consent_posts target) selenium_consent.
Proof.
  assert (Hc : forall cookies,
             behaves (W:=W) (consent_posts target) (transfer_cookies cookies)).
  { induction cookies as [|cookie rest IH]; cbn [transfer_cookies];
      repeat (assumption || behaves_step || (apply behaves_perform; exact I)). }
  unfold selenium_consent.
  repeat (apply Hc || behaves_step
          || (apply behaves_perform; exact I)
          || (apply behaves_sleep; exact I)).
Qed.

Lemma requests_consent_posts target :
  behaves (W:=W) (consent_posts target) (requests_consent target).
Proof.
  unfold requests_consent.
  repeat (behaves_step
          || (apply behaves_perform; first [exact I | by split; [|eexists]])).
Qed.

Lemma requests_consent_done target s s2 t2 :
  requests_consent target s = (Ok true, s2, t2) ->
  exists action, In (ESessionPost (target action) consent_data) t2.
Proof.
  unfold requests_consent. intros H.
  apply bind_ok_inv in H as (response & ? & ta & ? & Ha & H & ->).
  destruct (contains _ _); [|by apply ret_inv in H as [[=] _]].
  apply bind_ok_inv in H as (soup & ? & ts & ? & Hs & H & ->).
  destruct (find_by_id _ _ _) as [form|]; [|by apply ret_inv in H as [[=] _]].
  destruct (attr _ _) as [action|]; [|by apply ret_inv in H as [[=] _]].
  destruct (nonempty action); [|by apply ret_inv in H as [[=] _]].
  apply bind_ok_inv in H as (? & ? & tb & ? & Hb & H & ->).
  apply perform_inv in Hb as [-> _].
  exists action. rewrite !in_app_iff. simpl. tauto.
Qed.

End SessionOutcome.

Section SessionTheorems.
Context {W : Type} {env : Env W}.
Implicit Types (s : state W) (tr : list event).

Lemma establish_session_posts :
  behaves (W:=W) (consent_posts (urljoin base_url)) establish_session.
Proof.
  unfold establish_session.
  apply behaves_bind; [by apply behaves_log|]. intros _.
  apply behaves_bind.
  - apply behaves_try_except; [|intros _; apply behaves_ret].
    apply behaves_bind; [apply selenium_consent_no_post|].
    intros _. apply behaves_ret.
  - intros [|]; [apply behaves_ret|].
    apply behaves_try_except; [|intros _; apply behaves_ret].
    apply requests_consent_posts.
Qed.

(** X11: [establish_session] never raises and leaves the flag of the
    subclass alone; it returns [True] only after the browser has clicked the
    agreement box and handed over its cookies, or after the agreement form
    has been posted; and whatever it posts is the agreement, sent to the
    address of the form's action. *)
Theorem establish_session_outcome (s : state W) :
  exists b s' tr,
    establish_session s = (Ok b, s', tr)
    /\ session_established s' = session_established s
    /\ (b = true ->
        (In EClick tr /\ In EGetCookies tr)
        \/ exists action,
             In (ESessionPost (urljoin base_url action) consent_data) tr)
    /\ Forall (consent_posts (urljoin base_url)) tr.
Proof.
  destruct (establish_session_total s) as [b Hb].
  destruct (establish_session_posts s) as [Hposts Hflag].
  destruct (establish_session s) as [[r s'] tr] eqn:E. simpl in *. subst r.
  exists b, s', tr. repeat split; [done | | done].
  intros ->. unfold establish_session in E.
  apply bind_ok_inv in E as ([] & s0 & t0 & t1 & _ & E & ->).
  apply bind_ok_inv in E as (done1 & s1 & t2 & t3 & E1 & E2 & ->).
  apply try_except_inv in E1 as [(a & [= <-] & E1)|(e & s2 & t4 & t5 & E1 & Eh & ->)].
  - apply bind_ok_inv in E1 as ([] & s2 & t4 & t5 & E1 & _ & ->).
    apply selenium_consent_done in E1 as [Hclick Hcookies].
    left. rewrite !in_app_iff. tauto.
  - apply ret_inv in Eh as ([= ->] & -> & ->).
    apply try_except_inv in E2
      as [(a & [= <-] & E2)|(e2 & s3 & t6 & t7 & _ & Eh & _)].
    + apply requests_consent_done in E2 as [action Hpost].
      right. exists action. rewrite !in_app_iff. tauto.
    + by apply ret_inv in Eh as ([=] & _).
Qed.

(** X12: [establish_session_once] never raises, and what it returns is the
    value of the flag afterwards: [True] with the flag set, [False] with the
    flag still unset.  When it had to establish the session, [True] comes
    only after the click and the hand-over of the cookies, or after the
    agreement form has been posted. *)
Theorem establish_session_once_outcome (s : state W) :
  exists b s' tr,
    establish_session_once s = (Ok b, s', tr)
    /\ session_established s' = b
    /\ (b = false -> session_established s = false)
    /\ (session_established s = false -> b = true ->
        (In EClick tr /\ In EGetCookies tr)
        \/ exists action,
             In (ESessionPost (base_url +:+ action) consent_data) tr).
Proof.
  unfold establish_session_once, bind, log, get_session_established,
    try_except, set_session_established, ret.
  destruct (session_established s) eqn:Hflag; cbn.
  - exists true, s, [ECall "establish_session_once"]. by repeat split.
  - destruct (selenium_consent_no_post (fun a => base_url +:+ a) s) as [_ Hf1].
    destruct (selenium_consent s) as [[[[]|e] s1] t1] eqn:E1; cbn in *.
    + apply selenium_consent_done in E1 as [Hclick Hcookies].
      eexists _, _, _. split; [reflexivity|]. cbn.
      split; [done|]. split; [done|]. intros _ _. left.
      rewrite !in_app_iff. tauto.
    + destruct (requests_consent_posts (fun a => base_url +:+ a) s1)
        as [_ Hf2].
      destruct (requests_consent _ s1) as [[[[|]|e2] s2] t2] eqn:E2; cbn in *.
      * apply requests_consent_done in E2 as [action Hpost].
        eexists _, _, _. split; [reflexivity|]. cbn.
        split; [done|]. split; [done|]. intros _ _. right. exists action.
        rewrite !in_app_iff. tauto.
      * eexists _, _, _. split; [reflexivity|]. cbn.
        split; [congruence|]. by split.
      * eexists _, _, _. split; [reflexivity|]. cbn.
        split; [congruence|]. by split.
Qed.

End SessionTheorems.

(** ** Runs of the download *)

Section Counting.
Context {W : Type}.
Variable method : string.

Lemma bind_trace {A B} (m : M W A) (f : A -> M W B) s :
  (bind m f s).2
  = (m s).2 ++ match (m s).1.1 with
               | Ok a => (f a (m s).1.2).2
               | Raise _ => []
               end.
Proof.
  unfold bind. destruct (m s) as [[[a|e] s1] t1]; simpl.
  - by destruct (f a s1) as [[r s2] t2].
  - by rewrite app_nil_r.
Qed.

Lemma try_except_trace {A} (m : M W A) (h : exn -> M W A) s :
  (try_except m h s).2
  = (m s).2 ++ match (m s).1.1 with
               | Ok _ => []
               | Raise e => (h e (m s).1.2).2
               end.
Proof.
  unfold try_except. destruct (m s) as [[[a|e] s1] t1]; simpl.
  - by rewrite app_nil_r.
  - by destruct (h e s1) as [[r s2] t2].
Qed.

Lemma calls_bind {A B} n k (m : M W A) (f : A -> M W B) :
  at_most_calls method n m -> (forall a, at_most_calls method k (f a)) ->
  at_most_calls method (n + k) (bind m f).
Proof.
  intros Hm Hf s. rewrite bind_trace, calls_of_app. specialize (Hm s).
  destruct ((m s).1.1) as [a|e].
  - specialize (Hf a (m s).1.2). lia.
  - change (calls_of method []) with 0%nat. lia.
Qed.

Lemma calls_try_except {A} n k (m : M W A) (h : exn -> M W A) :
  at_most_calls method n m -> (forall e, at_most_calls method k (h e)) ->
  at_most_calls method (n + k) (try_except m h).
Proof.
  intros Hm Hh s. rewrite try_except_trace, calls_of_app. specialize (Hm s).
  destruct ((m s).1.1) as [a|e].
  - change (calls_of method []) with 0%nat. lia.
  - specialize (Hh e (m s).1.2). lia.
Qed.

Lemma calls_weaken {A} n k (m : M W A) :
  (n <= k)%nat -> at_most_calls method n m -> at_most_calls method k m.
Proof. intros Hle Hm s. specialize (Hm s). lia. Qed.

Lemma calls_ret {A} (a : A) : at_most_calls method 0 (ret a : M W A).
Proof. intros s. by cbn. Qed.

Lemma calls_lift {A} (r : res A) : at_most_calls method 0 (lift r : M W A).
Proof. intros s. by cbn. Qed.

Lemma calls_log ev :
  is_call method ev = false -> at_most_calls method 0 (log ev : M W unit).
Proof. intros H s. unfold calls_of. cbn. by rewrite H. Qed.

Lemma calls_perform {A} ev (op : W -> res A * W) :
  is_call method ev = false -> at_most_calls method 0 (perform ev op).
Proof.
  intros H s. unfold perform, calls_of. destruct (op (world s)) as [r w].
  cbn. by rewrite H.
Qed.

End Counting.

Section Download.
Context {W : Type} {env : Env W}.
Implicit Types (s : state W) (tr : list event).

Lemma establish_session_one_call :
  at_most_calls (W:=W) "establish_session" 1 establish_session.
Proof.
  intros s. destruct (establish_session_run s) as (b & s' & tr & -> & Hout & _).
  cbn [snd]. change (ECall "establish_session" :: tr)
    with ([ECall "establish_session"] ++ tr).
  rewrite calls_of_app, (calls_of_outside _ _ Hout). by cbn.
Qed.

Lemma render_fetch_one_call url :
  at_most_calls (W:=W) "establish_session" 1 (render_fetch url).
Proof.
  unfold render_fetch, sleep.
  apply (calls_bind _ 0 1); [by apply calls_perform|]. intros _.
  apply (calls_bind _ 0 1); [by apply calls_perform|]. intros _.
  apply (calls_bind _ 0 1); [by apply calls_perform|]. intros title.
  destruct (contains home_marker title).
  - apply (calls_bind _ 1 0); [apply establish_session_one_call|]. intros _.
    apply (calls_bind _ 0 0); [by apply calls_perform|]. intros _.
    apply (calls_bind _ 0 0); [by apply calls_perform|]. intros _.
    apply (calls_bind _ 0 0); [by apply calls_perform|]. intros title2.
    destruct (contains home_marker title2); [apply calls_ret|].
    apply (calls_bind _ 0 0); [by apply calls_perform|]. intros ?.
    apply calls_ret.
  - apply (calls_weaken _ 0); [lia|].
    apply (calls_bind _ 0 0); [by apply calls_perform|]. intros ?.
    apply calls_ret.
Qed.

Lemma direct_fetch_no_call url :
  at_most_calls (W:=W) "establish_session" 0 (direct_fetch url).
Proof.
  unfold direct_fetch.
  apply (calls_bind _ 0 0); [by apply calls_perform|]. intros response.
  destruct (_ =? _)%Z; apply calls_ret.
Qed.

Lemma backoff_no_call max_retries attempt :
  at_most_calls (W:=W) "establish_session" 0 (backoff max_retries attempt).
Proof.
  unfold backoff, sleep. apply (calls_bind _ 0 0); [|intros _; apply calls_ret].
  destruct (_ <? _)%Z; [by apply calls_perform | apply calls_ret].
Qed.

Lemma attempt_body_calls url max_retries attempt :
  at_most_calls (W:=W) "establish_session"
    (if (attempt <? 3)%Z then 1 else 0) (attempt_body url max_retries attempt).
Proof.
  unfold attempt_body.
  apply (calls_weaken _ ((0 + if (attempt <? 3)%Z then 1 else 0) + 0)); [lia|].
  apply calls_try_except; [|intros _; apply backoff_no_call].
  apply calls_bind; [by apply calls_log|]. intros _.
  destruct (attempt <? 3)%Z;
    [apply render_fetch_one_call | apply direct_fetch_no_call].
Qed.

Lemma attempts_loop_calls url max_retries attempts :
  at_most_calls (W:=W) "establish_session"
    (length (List.filter (fun a => (a <? 3)%Z) attempts))
    (attempts_loop url max_retries attempts).
Proof.
  induction attempts as [|attempt rest IH]; cbn [attempts_loop List.filter].
  - apply calls_ret.
  - apply (calls_weaken _ ((if (attempt <? 3)%Z then 1 else 0)
                           + length (List.filter (fun a => (a <? 3)%Z) rest))).
    { destruct (attempt <? 3)%Z; simpl; lia. }
    apply calls_bind; [apply attempt_body_calls|].
    intros [html|]; [|exact IH].
    apply (calls_weaken _ 0); [lia | apply calls_ret].
Qed.

Lemma browser_attempts_of_seq a k :
  (length (List.filter (fun a => (a <? 3)%Z) (map Z.of_nat (seq a k)))
   <= Nat.min (3 - a) k)%nat.
Proof.
  revert a. induction k as [|k IH]; intros a; cbn [seq map List.filter].
  - simpl. lia.
  - specialize (IH (S a)). destruct (Z.of_nat a <? 3)%Z eqn:Ha.
    + apply Z.ltb_lt in Ha. simpl length. lia.
    + apply Z.ltb_ge in Ha. lia.
Qed.

(** X13: one download re-establishes the session at most three times,
    whatever [max_retries] is, and never more often than it has iterations:
    only the first three iterations use the browser, and each of them
    refreshes at most once. *)
Theorem download_refreshes_bounded
        (report_data : gmap string string) (max_retries : Z) (s : state W) :
  (calls_of "establish_session"
     (download_report_with_enhanced_retry report_data max_retries s).2
   <= Nat.min 3 (Z.to_nat max_retries))%nat.
Proof.
  assert (H : at_most_calls "establish_session"
                (length (List.filter (fun a => (a <? 3)%Z) (range max_retries)))
                (download_report_with_enhanced_retry report_data max_retries)).
  { unfold download_report_with_enhanced_retry.
    apply (calls_bind _ 0); [by apply calls_log|]. intros _.
    apply (calls_bind _ 0); [apply calls_lift|]. intros url.
    apply (calls_bind _ 0); [apply calls_lift|]. intros _.
    apply attempts_loop_calls. }
  etrans; [apply (H s)|]. unfold range.
  etrans; [apply browser_attempts_of_seq|]. lia.
Qed.


Lemma download_raises_run
      (report_data : gmap string string) (max_retries : Z) (s : state W) :
  report_data !! "name" <> None ->
  ((exists out, (download_report_with_enhanced_retry
                   report_data max_retries s).1.1 = Ok out) ->
   report_data !! "link" <> None)
  /\ (forall e, (download_report_with_enhanced_retry
                   report_data max_retries s).1.1 = Raise e ->
                report_data !! "link" = None /\ e = KeyError "link"
                /\ (download_report_with_enhanced_retry
                      report_data max_retries s).1.2 = s
                /\ (download_report_with_enhanced_retry
                      report_data max_retries s).2
                   = [ECall "download_report_with_enhanced_retry"]).
Proof.
  intros Hname.
  unfold download_report_with_enhanced_retry, bind, log, lift, dict_item.
  destruct (report_data !! "link") as [url|]; cbn.
  - destruct (report_data !! "name") as [name|]; [|done]. cbn.
    destruct (attempts_loop_run url max_retries (range max_retries) s)
      as (out & s' & tr & -> & _). cbn. by split.
  - split; [by intros [out [=]]|]. by intros e [= <-].
Qed.

End Download.

(** ** Runs of [process_report] *)

Section Report.
Context {W : Type} {env : Env W}.
Implicit Types (s : state W) (tr : list event).

Lemma transfer_cookies_events cookies :
  behaves (W:=W) (fun e => is_download_event e = true) (transfer_cookies cookies).
Proof.
  induction cookies as [|cookie rest IH]; cbn [transfer_cookies];
    repeat (assumption || behaves_step).
Qed.

Lemma establish_session_events : behaves (W:=W) (fun e => is_download_event e = true) establish_session.
Proof.
  unfold establish_session, selenium_consent, requests_consent.
  repeat (apply transfer_cookies_events || behaves_step).
Qed.

Lemma attempts_loop_events url max_retries attempts :
  behaves (W:=W) (fun e => is_download_event e = true) (attempts_loop url max_retries attempts).
Proof.
  induction attempts as [|attempt rest IH]; cbn [attempts_loop].
  - apply behaves_ret.
  - unfold attempt_body, render_fetch, direct_fetch, backoff.
    repeat (assumption || apply establish_session_events || behaves_step).
Qed.

Lemma download_events report_data max_retries :
  behaves (W:=W) (fun e => is_download_event e = true)
    (download_report_with_enhanced_retry report_data max_retries).
Proof.
  unfold download_report_with_enhanced_retry.
  repeat (apply attempts_loop_events || behaves_step).
Qed.

Lemma download_no_write tr :
  Forall (fun e => is_download_event e = true) tr ->
  Forall (fun e => is_write e = false) tr
  /\ ~ In ENow tr
  /\ calls_of "extract_transactions_with_fallback" tr = 0%nat
  /\ calls_of "parse_tables" tr = 0%nat.
Proof.
  induction 1 as [|e tr He _ (IH1 & IH2 & IH3 & IH4)].
  - repeat split; [constructor | by intros []].
  - repeat split.
    + constructor; [by destruct e | done].
    + intros [->|Hin]; [done | tauto].
    + destruct e as [m| | | | | | | | | | | | |]; try exact IH3.
      unfold calls_of. cbn [List.filter is_call].
      destruct (String.eqb_spec m "extract_transactions_with_fallback")
        as [->|_]; [done | exact IH3].
    + destruct e as [m| | | | | | | | | | | | |]; try exact IH4.
      unfold calls_of. cbn [List.filter is_call].
      destruct (String.eqb_spec m "parse_tables") as [->|_]; [done | exact IH4].
Qed.

(** A run of the chain: it talks to nobody; when it raises, the table tier
    has raised. *)
Lemma chain_run html s :
  exists r tr,
    extract_transactions_with_fallback html s = (r, s, tr)
    /\ Forall (fun e => is_write e = false) tr
    /\ ~ In ENow tr
    /\ calls_of "extract_transactions_with_fallback" tr = 1%nat
    /\ (calls_of "parse_tables" tr <= 1)%nat
    /\ (forall e, r = Raise e ->
          (BeautifulSoup html = Raise e /\ calls_of "parse_tables" tr = 0%nat)
          \/ exists soup, BeautifulSoup html = Ok soup
                          /\ parse_tables soup = Raise e
                          /\ calls_of "parse_tables" tr = 1%nat).
Proof.
  unfold extract_transactions_with_fallback, invoke, bind, log, lift, ret.
  destruct (BeautifulSoup html) as [soup|e0]; cbn.
  - destruct (parse_tables soup) as [[|t1 l1]|e] eqn:Ept; cbn.
    + destruct (parse_alternative soup) as [|t2 l2]; cbn.
      * eexists _, _. split; [reflexivity|].
        split; [by repeat constructor|]. split; [naive_solver|].
        split; [done|]. split; [by cbn | done].
      * eexists _, _. split; [reflexivity|].
        split; [by repeat constructor|]. split; [naive_solver|].
        split; [done|]. split; [by cbn | done].
    + eexists _, _. split; [reflexivity|].
      split; [by repeat constructor|]. split; [naive_solver|].
      split; [done|]. split; [by cbn | done].
    + eexists _, _. split; [reflexivity|].
      split; [by repeat constructor|]. split; [naive_solver|].
      split; [done|]. split; [by cbn|].
      intros e' [= <-]. right. by exists soup.
  - eexists _, _. split; [reflexivity|].
    split; [by repeat constructor|]. split; [naive_solver|].
    split; [done|]. split; [cbn; lia|].
    intros e' [= <-]. by left.
Qed.

Lemma parse_tables_raise_kind soup e :
  parse_tables soup = Raise e -> e = IndexError.
Proof.
  unfold parse_tables. intros H.
  destruct (tables_loop_outcome (find_all ["table"] soup) [])
    as [[_ E]|[_ [txs E]]]; congruence.
Qed.

Lemma report_none_trace tr :
  Forall (fun e => is_write e = false) tr -> ~ In ENow tr ->
  calls_of "extract_transactions_with_fallback" tr = 0%nat ->
  Forall (fun e => is_write e = false) (ECall "process_report" :: tr ++ [])
  /\ ~ In ENow (ECall "process_report" :: tr ++ [])
  /\ calls_of "extract_transactions_with_fallback"
       (ECall "process_report" :: tr ++ []) = 0%nat.
Proof.
  intros Hw Hnow Hex. rewrite app_nil_r.
  split; [by constructor|]. split; [by intros [|]|]. exact Hex.
Qed.

(** X15: [process_report] leaves the flag of the subclass alone.  When it
    returns a report, the report carries the name and the link of the
    reference and its count is the length of its list; the document has been
    parsed once, and the raw document is written once, as the last thing,
    under the name of the reference.  When it returns [None], nothing has
    been parsed or written and the clock has not been read. *)
Theorem process_report_effects (report_data : gmap string string) (s : state W) :
  let '(r, s', tr) := process_report report_data s in
  session_established s' = session_established s
  /\ (forall rep, r = Ok (Some rep) ->
        report_data !! "name" = Some (name rep)
        /\ report_data !! "link" = Some (link rep)
        /\ transaction_count rep = Z.of_nat (length (transactions rep))
        /\ exists tr0,
             tr = tr0 ++ [ENow; EWriteFile (raw_html_path (name rep))]
             /\ Forall (fun e => is_write e = false) tr0
             /\ calls_of "extract_transactions_with_fallback" tr0 = 1%nat)
  /\ (r = Ok None ->
        Forall (fun e => is_write e = false) tr
        /\ ~ In ENow tr
        /\ calls_of "extract_transactions_with_fallback" tr = 0%nat).
Proof.
  unfold process_report, bind, log, lift, dict_item, perform, ret.
  destruct (report_data !! "name") as [name|] eqn:Hname;
    [|by repeat split].
  destruct (download_events report_data default_max_retries s) as [Hdl Hflag].
  destruct (download_report_with_enhanced_retry _ _ _)
    as [[[[html|]|e] s1] t1]; cbv beta iota; cbn [fst snd] in *.
  - apply download_no_write in Hdl as (Hw & Hnow & Hex & _).
    destruct html as [|c html]; cbv beta iota.
    { split; [exact Hflag|]. split; [by intros rep [=]|]. intros _.
      by apply report_none_trace. }
    destruct (chain_run (String c html) s1)
      as (r2 & t2 & -> & Hw2 & Hnow2 & Hex2 & _ & _).
    destruct r2 as [txs|e]; cbv beta iota; [|cbn; by repeat split].
    destruct (report_data !! "link") as [link|] eqn:Hlink; cbv beta iota;
      [|cbn; by repeat split].
    destruct (datetime_now_isoformat (world s1)) as [now w3].
    cbv beta iota zeta. cbn [world session_established].
    destruct (write_file (raw_html_path name) (String c html) w3)
      as [[[]|e] w4]; cbn; [|by repeat split].
    split; [done|]. split; [|done]. intros rep [= <-]. cbn.
    repeat split.
    exists (ECall "process_report" :: t1 ++ t2).
    split; [by rewrite <- app_comm_cons, <- app_assoc|].
    split; [constructor; [done | by apply Forall_app]|].
    change (ECall "process_report" :: t1 ++ t2)
      with ([ECall "process_report"] ++ t1 ++ t2).
    rewrite !calls_of_app, Hex, Hex2. done.
  - apply download_no_write in Hdl as (Hw & Hnow & Hex & _).
    split; [exact Hflag|]. split; [by intros rep [=]|]. intros _.
    by apply report_none_trace.
  - split; [exact Hflag|]. split; [by intros rep [=] | by intros [=]].
Qed.

(** X16: [process_report] raises in five cases only: the reference has no
    name, or no link ([KeyError], nothing outside touched); the parser
    rejected the document that was downloaded (its exception, no tier run);
    the table tier met a row without a mapped column ([IndexError]); in both
    of these the document is not written to the raw file; or the writing of
    the raw file itself failed. *)
Theorem process_report_raises (report_data : gmap string string) (s : state W) :
  let '(r, s', tr) := process_report report_data s in
  forall e, r = Raise e ->
    (report_data !! "name" = None /\ e = KeyError "name"
     /\ s' = s /\ tr = [ECall "process_report"])
    \/ (report_data !! "link" = None /\ e = KeyError "link" /\ s' = s
        /\ tr = [ECall "process_report";
                 ECall "download_report_with_enhanced_retry"])
    \/ (exists html,
          (download_report_with_enhanced_retry
             report_data default_max_retries s).1.1 = Ok (Some html)
          /\ BeautifulSoup html = Raise e
          /\ calls_of "parse_tables" tr = 0%nat
          /\ Forall (fun e => is_write e = false) tr)
    \/ (e = IndexError
        /\ exists html soup,
             (download_report_with_enhanced_retry
                report_data default_max_retries s).1.1 = Ok (Some html)
             /\ BeautifulSoup html = Ok soup
             /\ parse_tables soup = Raise IndexError
             /\ calls_of "parse_tables" tr = 1%nat
             /\ Forall (fun e => is_write e = false) tr)
    \/ (exists tr0 path, tr = tr0 ++ [EWriteFile path]).
Proof.
  unfold process_report, bind at 1 2, log, lift at 1, dict_item at 1.
  destruct (report_data !! "name") as [name|] eqn:Hname;
    [|intros e [= <-]; left; by repeat split].
  cbv beta iota. unfold bind at 1.
  pose proof (download_raises_run report_data default_max_retries s
                ltac:(by rewrite Hname)) as [Hsome Hr].
  destruct (download_events report_data default_max_retries s) as [Hdl _].
  destruct (download_report_with_enhanced_retry _ _ _)
    as [[[[html|]|e1] s1] t1]; cbv beta iota; cbn [fst snd] in *.
  - apply download_no_write in Hdl as (Hw & _ & _ & Hpt).
    destruct html as [|c html]; cbv beta iota; [by intros e [=]|].
    unfold bind, lift, dict_item, perform, ret.
    destruct (chain_run (String c html) s1)
      as (r2 & t2 & -> & Hw2 & _ & _ & _ & Hraise).
    destruct r2 as [txs|e2]; cbv beta iota.
    + rewrite Hname. cbv beta iota.
      destruct (report_data !! "link") as [link|] eqn:Hlink; cbv beta iota.
      * destruct (datetime_now_isoformat (world s1)) as [now w3].
        cbv beta iota zeta. cbn [world session_established].
        destruct (write_file (raw_html_path name) (String c html) w3)
          as [[[]|e3] w4]; cbn; [by intros e [=]|].
        intros e [= <-]. do 4 right.
        exists (ECall "process_report" :: t1 ++ t2 ++ [ENow]),
          (raw_html_path name).
        cbn [app]. by rewrite <- !app_assoc.
      * destruct Hsome; [by eexists | done].
    + intros e [= <-].
      assert (Hnw : Forall (fun e => is_write e = false)
                           ([ECall "process_report"] ++ [] ++ t1 ++ t2)).
      { rewrite !Forall_app. repeat split; try done; by repeat constructor. }
      assert (Hcount : forall n, calls_of "parse_tables" t2 = n ->
                calls_of "parse_tables"
                  ([ECall "process_report"] ++ [] ++ t1 ++ t2) = n).
      { intros n <-. by rewrite !calls_of_app, Hpt. }
      destruct (Hraise e2 eq_refl) as [[Hrej Hc]|(soup & Hsoup & Hp & Hc)].
      * do 2 right. left. exists (String c html).
        split; [done|]. split; [done|]. split; [by apply Hcount | done].
      * pose proof (parse_tables_raise_kind _ _ Hp) as ->.
        do 3 right. left. split; [done|]. exists (String c html), soup.
        split; [done|]. split; [done|]. split; [done|].
        split; [by apply Hcount | done].
  - by intros e [=].
  - intros e [= <-]. right. left.
    destruct (Hr e1 eq_refl) as (? & -> & -> & ->).
    by repeat split.
Qed.

End Report.

(** ** The scraper: [process_direct_url] *)

Section RunsOfReport.
Context {W : Type} {env : Env W}.
Implicit Types (s : state W) (tr : list event).

Lemma download_calls_none method tr :
  Forall (fun e => is_download_event e = true) tr ->
  method <> "download_report_with_enhanced_retry" ->
  method <> "establish_session" ->
  calls_of method tr = 0%nat.
Proof.
  intros Htr H1 H2. induction Htr as [|e tr He _ IH]; [done|].
  unfold calls_of in *. cbn [List.filter].
  destruct e as [m| | | | | | | | | | | | |]; cbn [is_call]; try exact IH.
  destruct (String.eqb_spec m method) as [->|_]; [|exact IH].
  cbn in He. apply orb_true_iff in He as [He|He];
    apply String.eqb_eq in He; congruence.
Qed.

Lemma chain_run_calls html s :
  calls_of "process_report" (extract_transactions_with_fallback html s).2
  = 0%nat.
Proof.
  unfold extract_transactions_with_fallback, invoke, bind, log, lift, ret.
  destruct (BeautifulSoup html) as [soup|e0]; cbn; [|done].
  destruct (parse_tables soup) as [[|t1 l1]|e]; cbn; [|done|done].
  destruct (parse_alternative soup) as [|t2 l2]; by cbn.
Qed.

(** Every way a run of [process_report] can go. *)
Lemma process_report_run (report_data : gmap string string) s :
  exists r s' tr,
    process_report report_data s = (r, s', ECall "process_report" :: tr)
    /\ session_established s' = session_established s
    /\ calls_of "process_report" tr = 0%nat
    /\ match r with
       | Ok (Some rep) =>
           exists name link txs html now tr0,
             rep = report_result report_data name link txs html now
             /\ report_data !! "name" = Some name
             /\ report_data !! "link" = Some link
             /\ tr = tr0 ++ [ENow; EWriteFile (raw_html_path name)]
             /\ Forall (fun e => is_write e = false) tr0
       | Ok None => Forall (fun e => is_write e = false) tr /\ ~ In ENow tr
       | Raise e =>
           (report_data !! "name" = None /\ e = KeyError "name")
           \/ (report_data !! "link" = None /\ e = KeyError "link")
           \/ ((exists html, BeautifulSoup html = Raise e)
               /\ Forall (fun e => is_write e = false) tr)
           \/ (e = IndexError /\ Forall (fun e => is_write e = false) tr)
           \/ (exists tr0 path, tr = tr0 ++ [EWriteFile path])
       end.
Proof.
  unfold process_report, bind at 1 2, log, lift at 1, dict_item at 1.
  destruct (report_data !! "name") as [name|] eqn:Hname;
    [|eexists _, _, _; split; [reflexivity|]; repeat split; by left].
  cbv beta iota. unfold bind at 1.
  pose proof (download_raises_run report_data default_max_retries s
                ltac:(by rewrite Hname)) as [Hsome Hr].
  destruct (download_events report_data default_max_retries s) as [Hdl Hflag].
  pose proof (download_calls_none "process_report" _ Hdl
                ltac:(done) ltac:(done)) as Hpr.
  destruct (download_report_with_enhanced_retry _ _ _)
    as [[[[html|]|e1] s1] t1]; cbv beta iota; cbn [fst snd] in *.
  - apply download_no_write in Hdl as (Hw & Hnow & _ & _).
    destruct html as [|c html]; cbv beta iota.
    { eexists _, _, _. split; [reflexivity|]. cbn [app]. rewrite ?app_nil_r. rewrite ?app_nil_r.
      by repeat split. }
    unfold bind, lift, dict_item, perform, ret.
    pose proof (chain_run_calls (String c html) s1) as Hpr2.
    destruct (chain_run (String c html) s1)
      as (r2 & t2 & E2 & Hw2 & _ & _ & _ & Hraise).
    rewrite E2 in Hpr2 |- *. cbn [snd] in Hpr2.
    destruct r2 as [txs|e2]; cbv beta iota.
    + rewrite Hname. cbv beta iota.
      destruct (report_data !! "link") as [link|] eqn:Hlink; cbv beta iota;
        [|destruct Hsome; [by eexists | done]].
      destruct (datetime_now_isoformat (world s1)) as [now w3].
      cbv beta iota zeta. cbn [world session_established].
      destruct (write_file (raw_html_path name) (String c html) w3)
        as [[[]|e3] w4]; cbv beta iota.
      * eexists _, _, _. split; [reflexivity|]. cbn [app]. rewrite ?app_nil_r.
        split; [exact Hflag|]. split.
        { rewrite !calls_of_app, Hpr, Hpr2. done. }
        exists name, link, txs, (String c html), now, (t1 ++ t2).
        rewrite <- !app_assoc. repeat split; try done. by apply Forall_app.
      * eexists _, _, _. split; [reflexivity|]. cbn [app]. rewrite ?app_nil_r.
        split; [exact Hflag|]. split.
        { rewrite !calls_of_app, Hpr, Hpr2. done. }
        do 4 right. exists (t1 ++ t2 ++ [ENow]), (raw_html_path name).
        by rewrite <- !app_assoc.
    + eexists _, _, _. split; [reflexivity|]. cbn [app]. rewrite ?app_nil_r.
      split; [exact Hflag|]. split.
      { rewrite !calls_of_app, Hpr, Hpr2. done. }
      destruct (Hraise e2 eq_refl) as [[Hrej _]|(soup & _ & Hp & _)].
      * do 2 right. left. split; [by eexists | by apply Forall_app].
      * pose proof (parse_tables_raise_kind _ _ Hp) as ->.
        do 3 right. left. split; [done|]. by apply Forall_app.
  - apply download_no_write in Hdl as (Hw & Hnow & _ & _).
    eexists _, _, _. split; [reflexivity|]. cbn [app]. rewrite ?app_nil_r. rewrite ?app_nil_r.
    by repeat split.
  - destruct (Hr e1 eq_refl) as (Hlink & -> & _ & Ht1).
    eexists _, _, _. split; [reflexivity|]. cbn [app]. rewrite ?app_nil_r.
    split; [exact Hflag|]. split; [by rewrite Ht1|].
    right. by left.
Qed.

Lemma session_events_quiet tr :
  Forall (fun e => is_session_event e = true) tr ->
  Forall (fun e => is_write e = false) tr
  /\ ~ In ENow tr
  /\ calls_of "process_report" tr = 0%nat.
Proof.
  induction 1 as [|e tr He _ (IH1 & IH2 & IH3)].
  - repeat split; [constructor | by intros []].
  - repeat split.
    + constructor; [by destruct e | done].
    + intros [->|Hin]; [done | tauto].
    + destruct e as [m| | | | | | | | | | | | |]; try exact IH3.
      unfold calls_of. cbn [List.filter is_call].
      destruct (String.eqb_spec m "process_report") as [->|_];
        [done | exact IH3].
Qed.

Lemma selenium_consent_session_events :
  behaves (W:=W) (fun e => is_session_event e = true) selenium_consent.
Proof.
  assert (Hc : forall cookies,
             behaves (W:=W) (fun e => is_session_event e = true)
                     (transfer_cookies cookies)).
  { induction cookies as [|cookie rest IH]; cbn [transfer_cookies];
      repeat (assumption || behaves_step). }
  unfold selenium_consent. repeat (apply Hc || behaves_step).
Qed.

Lemma requests_consent_session_events target :
  behaves (W:=W) (fun e => is_session_event e = true) (requests_consent target).
Proof. unfold requests_consent. repeat behaves_step. Qed.

(** A run of [establish_session_once]. *)
Lemma establish_session_once_run s :
  exists b s' tr,
    establish_session_once s = (Ok b, s', tr)
    /\ session_established s' = b
    /\ Forall (fun e => is_session_event e = true) tr.
Proof.
  unfold establish_session_once, bind, log, get_session_established,
    try_except, set_session_established, ret.
  destruct (session_established s) eqn:Hflag; cbn.
  - exists true, s, [ECall "establish_session_once"].
    repeat split; [done | by repeat constructor].
  - destruct (selenium_consent_session_events s) as [Ht1 Hf1].
    destruct (selenium_consent s) as [[[[]|e] s1] t1]; cbn in *.
    + eexists _, _, _. split; [reflexivity|]. cbn. split; [done|].
      constructor; [done|]. rewrite !Forall_app. by repeat split.
    + destruct (requests_consent_session_events (fun a => base_url +:+ a) s1)
        as [Ht2 Hf2].
      destruct (requests_consent _ s1) as [[[[|]|e2] s2] t2]; cbn in *.
      * eexists _, _, _. split; [reflexivity|]. cbn. split; [done|].
        constructor; [done|]. rewrite !Forall_app. by repeat split.
      * eexists _, _, _. split; [reflexivity|]. cbn. split; [congruence|].
        constructor; [done|]. rewrite !Forall_app. by repeat split.
      * eexists _, _, _. split; [reflexivity|]. cbn. split; [congruence|].
        constructor; [done|]. rewrite !Forall_app. by repeat split.
Qed.

End RunsOfReport.

Ltac flatten_trace :=
  repeat (progress cbn [app] || rewrite <- app_assoc || rewrite app_nil_r).

Section DirectUrl.
Context {W : Type} {env : Env W} {senv : ScraperEnv W}.
Implicit Types (s : state W) (tr : list event).
Import Scraper.

Lemma name_after_owner_fields (r : report) :
  link (name_after_owner r) = link r
  /\ date_filed (name_after_owner r) = date_filed r
  /\ office (name_after_owner r) = office r
  /\ report_type (name_after_owner r) = report_type r
  /\ transactions (name_after_owner r) = transactions r
  /\ transaction_count (name_after_owner r) = transaction_count r
  /\ (name r = "Direct URL Report" ->
      name (name_after_owner r) = direct_name (transactions r)).
Proof.
  unfold name_after_owner, direct_name.
  destruct (transactions r) as [|t ts] eqn:E; [by rewrite E|].
  destruct (t !! "owner"); cbn; by rewrite ?E.
Qed.

(** X17: [process_direct_url] downloads nothing without a session: when the
    flag is unset afterwards it has returned [None] without calling
    [process_report] or writing a file.  A report that it returns has the
    address as its link, "Unknown" as date and office, a count equal to the
    length of its list and a name made from the owner of its first
    transaction; the raw document has been written to the one file of
    "Direct URL Report", and the JSON file, named after the time, is written
    last.  It raises only with the session established: the exception with
    which the parser rejects a document, the [IndexError] of the table
    tier, or the failure of a write. *)
Theorem process_direct_url_effects (url : string) (s : state W) :
  let '(r, s', tr) := process_direct_url url s in
  (session_established s' = false ->
   r = Ok None /\ calls_of "process_report" tr = 0%nat
   /\ Forall (fun e => is_write e = false) tr)
  /\ (forall rep, r = Ok (Some rep) ->
        session_established s' = true
        /\ link rep = url
        /\ date_filed rep = Some "Unknown"
        /\ office rep = Some "Unknown"
        /\ report_type rep = Some "Periodic Transaction Report"
        /\ transaction_count rep = Z.of_nat (length (transactions rep))
        /\ name rep = direct_name (transactions rep)
        /\ In (EWriteFile (raw_html_path "Direct URL Report")) tr
        /\ exists tr0 stamp,
             tr = tr0 ++ [ENow;
                          EWriteFile (path_join raw_dir
                                        ("direct_url_" +:+ stamp +:+ ".json"))])
  /\ (forall e, r = Raise e ->
        session_established s' = true
        /\ ((exists html, BeautifulSoup html = Raise e)
            \/ e = IndexError
            \/ exists tr0 path, tr = tr0 ++ [EWriteFile path])).
Proof.
  unfold process_direct_url, bind at 1 2, log.
  destruct (establish_session_once_run s) as (b & s0 & t0 & -> & Hb & Hev).
  apply session_events_quiet in Hev as (Hw0 & _ & Hc0).
  destruct b; cbv beta iota; cbn [negb].
  - unfold bind at 1.
    destruct (process_report_run (direct_report_data url) s0)
      as (r & s1 & t1 & -> & Hflag & _ & Hcase).
    rewrite Hb in Hflag.
    destruct r as [[rep|]|e]; cbv beta iota.
    + destruct Hcase as (nm & lk & txs & html & now & tr0 & -> & Hnm & Hlk & -> & _).
      unfold direct_report_data in Hnm, Hlk. simplify_map_eq.
      unfold bind, now_strftime, perform, ret.
      destruct (datetime_now_strftime _ (world s1)) as [stamp w2].
      cbv beta iota zeta. cbn [world session_established].
      destruct (json_dump_file _ _ w2) as [[[]|e] w3]; cbv beta iota.
      * split; [cbn; congruence|]. split; [|by intros e [=]].
        intros rep [= <-]. split; [done|].
        destruct (name_after_owner_fields
                    (report_result (direct_report_data lk) "Direct URL Report"
                                   lk txs html now))
          as (-> & -> & -> & -> & Htx & -> & Hname).
        rewrite Htx, (Hname eq_refl).
        split; [done|]. split; [done|]. split; [done|]. split; [done|].
        split; [done|]. split; [done|]. split.
        { flatten_trace. right. apply in_or_app. right. right.
          apply in_or_app. right. cbn. tauto. }
        exists (ECall "process_direct_url"
                  :: t0 ++ ECall "process_report"
                  :: tr0 ++ [ENow; EWriteFile (raw_html_path "Direct URL Report")]),
          stamp.
        by flatten_trace.
      * split; [cbn; congruence|]. split; [by intros rep [=]|].
        intros e' [= <-]. split; [done|]. do 2 right.
        exists (ECall "process_direct_url"
                  :: t0 ++ ECall "process_report"
                  :: tr0 ++ [ENow; EWriteFile (raw_html_path "Direct URL Report");
                             ENow]),
          (path_join raw_dir ("direct_url_" +:+ stamp +:+ ".json")).
        by flatten_trace.
    + split; [cbn; congruence|]. split; [by intros rep [=]|by intros e [=]].
    + split; [cbn; congruence|]. split; [by intros rep [=]|].
      intros e' [= <-]. split; [done|].
      unfold direct_report_data in Hcase.
      destruct Hcase as [[Hn _]|[[Hl _]|[[Hrej _]|[[-> _]|(tr0 & path & ->)]]]];
        [by simplify_map_eq | by simplify_map_eq | by left
        | right; by left |].
      do 2 right. exists (ECall "process_direct_url" :: t0
                       ++ ECall "process_report" :: tr0), path.
      by flatten_trace.
  - split; [|split; [by intros rep [=] | by intros e [=]]].
    intros _. split; [done|]. flatten_trace.
    split; [exact Hc0 | by constructor].
Qed.

End DirectUrl.

(** With a session and a document that the regex tier reads, the report is
    named after the owner "self". *)
Lemma direct_url_goldman :
  (Scraper.process_direct_url some_url (toy_state at_once true)).1.1
  = Ok (Some direct_goldman_report)
  /\ name direct_goldman_report = "Direct URL Report (self)".
Proof. split; [vm_compute; reflexivity | reflexivity]. Qed.

(** ** The scraper: [process_reports] *)

Section Batch.
Context {W : Type} {env : Env W} {senv : ScraperEnv W}.
Implicit Types (s : state W) (tr : list event).
Import Scraper.

Lemma bind_run_ok {A B} (m : M W A) (f : A -> M W B) s a s1 t1 :
  m s = (Ok a, s1, t1) ->
  bind m f s = ((f a s1).1.1, (f a s1).1.2, t1 ++ (f a s1).2).
Proof. unfold bind. intros ->. by destruct (f a s1) as [[r s2] t2]. Qed.

Lemma bind_run_raise {A B} (m : M W A) (f : A -> M W B) s e s1 t1 :
  m s = (Raise e, s1, t1) -> bind m f s = (Raise e, s1, t1).
Proof. unfold bind. by intros ->. Qed.

Lemma report_of_mono ref refs r : report_of refs r -> report_of (ref :: refs) r.
Proof.
  intros (ref' & Hin & H). exists ref'. split; [by right | done].
Qed.

Lemma sum_counts_from (rs : list report) (z : Z) :
  Forall (fun r => transaction_count r = Z.of_nat (length (transactions r))) rs ->
  fold_left Z.add (map transaction_count rs) z = (z + transactions_in rs)%Z.
Proof.
  intros H. revert z. induction H as [|r rs Hr _ IH]; intros z; cbn.
  - lia.
  - rewrite IH, Hr. unfold transactions_in. lia.
Qed.

(** A run of the loop that comes to its end. *)
Lemma reports_loop_ok batch_dir refs acc s processed s' tr :
  reports_loop batch_dir refs acc s = (Ok processed, s', tr) ->
  exists new,
    processed = acc ++ new
    /\ (length new <= length refs)%nat
    /\ Forall (report_of refs) new
    /\ calls_of "process_report" tr = length refs
    /\ session_established s' = session_established s.
Proof.
  revert acc s tr. induction refs as [|ref refs IH]; intros acc s tr H;
    cbn [reports_loop] in H.
  - apply ret_inv in H as ([= <-] & -> & ->). exists [].
    rewrite app_nil_r. by repeat split.
  - apply bind_ok_inv in H as (nm & sa & ta & tb & Ha & H & ->).
    unfold lift, dict_item in Ha.
    destruct (ref !! "name") as [name|] eqn:Hname; [|done].
    injection Ha as <- <- <-.
    apply bind_ok_inv in H as (result & sb & tc & td & Hb & H & ->).
    destruct (process_report_run ref s) as (r & s1 & t1 & E & Hflag & Hcalls & Hcase).
    rewrite E in Hb. injection Hb as -> <- <-.
    apply bind_ok_inv in H as (processed1 & sc & te & tf & Hc & H & ->).
    apply bind_ok_inv in H as ([] & sd & tg & th & Hd & H & ->).
    unfold sleep in Hd. apply perform_inv in Hd as (-> & Hfd & _).
    apply IH in H as (new & -> & Hlen & Hnew & Hcalls' & Hflag').
    assert (Hstep : exists mine,
               processed1 = acc ++ mine /\ (length mine <= 1)%nat
               /\ Forall (report_of (ref :: refs)) mine
               /\ calls_of "process_report" te = 0%nat
               /\ session_established sc = session_established s1).
    { destruct result as [rep|].
      - apply bind_ok_inv in Hc as (nm' & se & ti & tj & He & Hc & ->).
        unfold lift, dict_item in He. rewrite Hname in He.
        injection He as <- <- <-.
        apply bind_ok_inv in Hc as ([] & sf & tk & tl & Hf & Hc & ->).
        apply perform_inv in Hf as (-> & Hff & _).
        apply ret_inv in Hc as ([= ->] & -> & ->).
        exists [rep]. split; [done|]. split; [simpl; lia|]. split; [|done].
        constructor; [|done].
        destruct Hcase as (nm' & lk & txs & html & now & tr0 & -> & Hn & Hl & _).
        exists ref. split; [by left|]. by rewrite Hn, Hl.
      - apply bind_ok_inv in Hc as (nm' & se & ti & tj & He & Hc & ->).
        unfold lift, dict_item in He. rewrite Hname in He.
        injection He as <- <- <-.
        apply ret_inv in Hc as ([= ->] & -> & ->).
        exists []. rewrite app_nil_r. split; [done|]. split; [simpl; lia|].
        split; [constructor | done]. }
    destruct Hstep as (mine & -> & Hmine & Hof & Hcalls1 & Hflag1).
    exists (mine ++ new). rewrite app_assoc. split; [done|].
    split; [rewrite length_app; simpl; lia|].
    split; [apply Forall_app; split;
            [done | eapply Forall_impl; [exact Hnew | apply report_of_mono]]|].
    split; [|congruence].
    rewrite !calls_of_app, Hcalls', Hcalls1.
    change (calls_of "process_report" (ECall "process_report" :: t1))
      with (S (calls_of "process_report" t1)).
    rewrite Hcalls. by cbn.
Qed.

(** X18: when [process_reports] comes to its end, the summary that it dumps
    counts every reference and the reports that were made of them (never
    more than there are references), adds up their transactions, and lists
    reports that each carry the name and the link of one of the references;
    [process_report] has been called once for every reference, and the
    summary file is written last. *)
Theorem process_reports_summary
        (refs : list (gmap string string)) (batch : string)
        (s s' : state W) (tr : list event) :
  process_reports refs batch s = (Ok tt, s', tr) ->
  exists processed now w,
    let summary_file := path_join (path_join raw_dir batch) "summary.json" in
    let sm := batch_summary batch now refs processed in
    json_dump_file summary_file (DSummary sm) w = (Ok tt, world s')
    /\ total_reports sm = Z.of_nat (length refs)
    /\ (0 <= successful_reports sm <= total_reports sm)%Z
    /\ total_transactions sm = transactions_in processed
    /\ Forall (report_of refs) processed
    /\ calls_of "process_report" tr = length refs
    /\ exists tr0, tr = tr0 ++ [ENow; EWriteFile summary_file].
Proof.
  unfold process_reports. intros H.
  apply bind_ok_inv in H as ([] & sa & ta & tb & Ha & H & ->).
  injection Ha as <- <-.
  apply bind_ok_inv in H as ([] & sb & tc & td & Hb & H & ->).
  assert (tc = []) as ->.
  { unfold unrecorded in Hb. destruct (mkdir_exist_ok _ _). by injection Hb. }
  apply bind_ok_inv in H as (processed & sc & te & tf & Hc & H & ->).
  apply reports_loop_ok in Hc as (new & -> & Hlen & Hnew & Hcalls & _).
  apply bind_ok_inv in H as (now & sd & tg & th & Hd & H & ->).
  unfold now_isoformat in Hd. apply perform_inv in Hd as (-> & _ & _).
  apply bind_ok_inv in H as ([] & se & ti & tj & He & H & ->).
  apply perform_inv in He as (-> & _ & He).
  apply ret_inv in H as (_ & -> & ->).
  exists new, now, (world sd). cbv zeta. split; [exact He|].
  split; [done|]. split; [cbn; lia|]. split.
  { unfold batch_summary, sum_counts. cbn [total_transactions].
    rewrite sum_counts_from; [lia|].
    eapply Forall_impl; [exact Hnew|]. by intros r (ref & _ & _ & _ & Hr). }
  split; [done|]. split.
  - rewrite !calls_of_app, Hcalls. by cbn.
  - exists (ECall "process_reports" :: te). by flatten_trace.
Qed.

(** When [process_report] raises on a reference, the loop ends there. *)
Lemma reports_loop_abort batch_dir pre bad post acc s processed s1 t1 e s2 t2 :
  reports_loop batch_dir pre acc s = (Ok processed, s1, t1) ->
  bad !! "name" <> None ->
  process_report bad s1 = (Raise e, s2, t2) ->
  reports_loop batch_dir (pre ++ bad :: post) acc s = (Raise e, s2, t1 ++ t2).
Proof.
  intros Hpre Hname Hbad. revert acc s t1 Hpre.
  induction pre as [|ref pre IH]; intros acc s t1 Hpre;
    cbn [reports_loop] in Hpre; cbn [app reports_loop].
  - apply ret_inv in Hpre as ([= <-] & -> & ->).
    destruct (bad !! "name") as [name|] eqn:Hn; [|done].
    unfold bind at 1, lift at 1, dict_item at 1. rewrite Hn. cbv beta iota.
    by rewrite (bind_run_raise _ _ _ _ _ _ Hbad).
  - apply bind_ok_inv in Hpre as (nm & sa & ta & tb & Ha & H & ->).
    rewrite (bind_run_ok _ _ _ _ _ _ Ha). cbn [fst snd].
    apply bind_ok_inv in H as (result & sb & tc & td & Hb & H & ->).
    rewrite (bind_run_ok _ _ _ _ _ _ Hb). cbn [fst snd].
    apply bind_ok_inv in H as (processed1 & sc & te & tf & Hc & H & ->).
    rewrite (bind_run_ok _ _ _ _ _ _ Hc). cbn [fst snd].
    apply bind_ok_inv in H as ([] & sd & tg & th & Hd & H & ->).
    rewrite (bind_run_ok _ _ _ _ _ _ Hd). cbn [fst snd].
    rewrite (IH _ _ _ H). cbn [fst snd]. by rewrite <- !app_assoc.
Qed.

(** X19: an exception of [process_report] ends the batch.  When the
    references before [bad] have been worked off and [process_report] raises
    on [bad], [process_reports] raises the same exception in the same state,
    and its trace ends with that of the failed call: the references after
    [bad] are not looked at and no summary is written. *)
Theorem process_reports_aborts
        (pre : list (gmap string string)) (bad : gmap string string)
        (post : list (gmap string string)) (batch : string)
        (s : state W) (w0 : W) (processed : list report)
        (s1 s2 : state W) (t1 t2 : list event) (e : exn) :
  mkdir_exist_ok (path_join raw_dir batch) (world s) = (Ok tt, w0) ->
  reports_loop (path_join raw_dir batch) pre [] (with_world s w0)
  = (Ok processed, s1, t1) ->
  bad !! "name" <> None ->
  process_report bad s1 = (Raise e, s2, t2) ->
  process_reports (pre ++ bad :: post) batch s
  = (Raise e, s2, ECall "process_reports" :: t1 ++ t2).
Proof.
  intros Hmk Hpre Hname Hbad. unfold process_reports.
  unfold bind at 1, log. cbv beta iota.
  assert (Hmk' : unrecorded (mkdir_exist_ok (path_join raw_dir batch)) s
                 = (Ok tt, with_world s w0, [])).
  { unfold unrecorded. by rewrite Hmk. }
  rewrite (bind_run_ok _ _ _ _ _ _ Hmk'). cbn [fst snd].
  rewrite (bind_run_raise _ _ _ _ _ _
             (reports_loop_abort _ _ _ post _ _ _ _ _ _ _ _ Hpre Hname Hbad)).
  by flatten_trace.
Qed.

End Batch.

(** One reference, delivered at once: one report with one transaction. *)
Lemma process_reports_summary_witness :
  exists processed now w,
    let summary_file := path_join (path_join raw_dir "daily") "summary.json" in
    let sm := Scraper.batch_summary "daily" now [some_report] processed in
    json_dump_file summary_file (DSummary sm) w
    = (Ok tt, world (toy_state at_once_read false))
    /\ total_reports sm = Z.of_nat (length [some_report])
    /\ (0 <= successful_reports sm <= total_reports sm)%Z
    /\ total_transactions sm = transactions_in processed
    /\ Forall (report_of [some_report]) processed
    /\ calls_of "process_report" one_report_batch = length [some_report]
    /\ exists tr0, one_report_batch = tr0 ++ [ENow; EWriteFile summary_file].
Proof.
  apply (process_reports_summary [some_report] "daily"
           (toy_state at_once false) (toy_state at_once_read false)
           one_report_batch).
  vm_compute. reflexivity.
Defined.

(** A document with a short row as the first of two references: the second
    one is never downloaded. *)
Lemma process_reports_aborts_witness :
  Scraper.process_reports (env := short_row_env)
    ([] ++ some_report :: [other_report]) "daily" (toy_state at_once false)
  = (Raise IndexError, toy_state at_once_read false,
     ECall "process_reports" :: [] ++ short_row_run).
Proof.
  apply (process_reports_aborts (env := short_row_env)
           [] some_report [other_report] "daily" (toy_state at_once false)
           at_once [] (toy_state at_once false) (toy_state at_once_read false)
           [] short_row_run IndexError).
  - reflexivity.
  - reflexivity.
  - by vm_compute.
  - vm_compute. reflexivity.
Defined.

(** ** The scraper: [extract_report_links_dynamic] *)

Section Keeps.
Context {W : Type}.

Lemma keeps_ret {A} (Q : A -> Prop) (a : A) : Q a -> keeps Q (ret a : M W A).
Proof. intros H s. split; [done|]. by intros ? [= <-]. Qed.

Lemma keeps_any {A} (m : M W A) :
  (forall s, session_established (m s).1.2 = session_established s) ->
  keeps (fun _ => True) m.
Proof. intros H s. by split. Qed.

Lemma keeps_perform {A} ev (op : W -> res A * W) :
  keeps (fun _ => True) (perform ev op).
Proof.
  apply keeps_any. intros s. unfold perform. by destruct (op (world s)).
Qed.

Lemma keeps_unrecorded {A} (op : W -> res A * W) :
  keeps (fun _ => True) (Scraper.unrecorded op).
Proof.
  apply keeps_any. intros s. unfold Scraper.unrecorded.
  by destruct (op (world s)).
Qed.

Lemma keeps_lift {A} (r : res A) : keeps (fun _ => True) (lift r : M W A).
Proof. by apply keeps_any. Qed.

Lemma keeps_bind {A B} (Q : A -> Prop) (R : B -> Prop)
      (m : M W A) (f : A -> M W B) :
  keeps Q m -> (forall a, Q a -> keeps R (f a)) -> keeps R (bind m f).
Proof.
  intros Hm Hf s. unfold bind. destruct (Hm s) as [Hflag HQ].
  destruct (m s) as [[[a|e] s1] t1]; cbn in *; [|done].
  destruct (Hf a (HQ a eq_refl) s1) as [Hflag2 HR].
  destruct (f a s1) as [[r s2] t2]; cbn in *. split; [congruence | done].
Qed.

Lemma keeps_try_except {A} (Q : A -> Prop) (m : M W A) (h : exn -> M W A) :
  keeps Q m -> (forall e, keeps Q (h e)) -> keeps Q (try_except m h).
Proof.
  intros Hm Hh s. unfold try_except. destruct (Hm s) as [Hflag HQ].
  destruct (m s) as [[[a|e] s1] t1]; cbn in *; [done|].
  destruct (Hh e s1) as [Hflag2 HR].
  destruct (h e s1) as [[r s2] t2]; cbn in *. split; [congruence | done].
Qed.

Lemma keeps_weaken {A} (Q R : A -> Prop) (m : M W A) :
  (forall a, Q a -> R a) -> keeps Q m -> keeps R m.
Proof. intros HQR Hm s. destruct (Hm s) as [Hflag HQ]. split; eauto. Qed.

Lemma total_log ev : total (log ev : M W unit).
Proof. intros s. by exists tt. Qed.

End Keeps.

Section Links.
Context {W : Type} {env : Env W} {senv : ScraperEnv W}.
Implicit Types (s : state W) (tr : list event).
Import Scraper.

Lemma link_of_on_site link_html link :
  link_of link_html = Ok (Some link) -> exists href, link = base_url +:+ href.
Proof.
  unfold link_of. destruct (BeautifulSoup link_html) as [soup|e]; [|done].
  cbn. destruct (find_all _ _) as [|link_elem ?]; [done|].
  destruct (attr "href" link_elem) as [href|]; [|done].
  intros [= <-]. by exists href.
Qed.

Lemma link_of_raises link_html e :
  link_of link_html = Raise e <-> BeautifulSoup link_html = Raise e.
Proof.
  unfold link_of. destruct (BeautifulSoup link_html) as [soup|e']; cbn;
    [done | naive_solver].
Qed.

(** One record of the DataTable: a complete reference, nothing, or the
    exception of the parser. *)
Lemma js_record_run record :
  match js_record record with
  | Ok o => forall r, o = Some r -> complete_reference r
  | Raise e => rejected_at 3 e record
  end.
Proof.
  unfold js_record, rejected_at.
  destruct (5 <=? length record)%nat eqn:Hlen; [|done].
  apply Nat.leb_le in Hlen.
  destruct record as [|r0 [|r1 [|r2 [|r3 [|r4 rest]]]]];
    simpl in Hlen; try lia.
  unfold py_index. cbn.
  destruct (link_of r3) as [[link|]|e] eqn:Hlink; cbn.
  - intros r [= <-].
    apply link_of_on_site in Hlink as [href ->]. by eexists _, _, _, _, _.
  - done.
  - apply link_of_raises in Hlink. split; [lia | by exists r3].
Qed.

(** One record of the search API: as above, or the [IndexError] of a record
    of five fields with a link. *)
Lemma api_record_run record :
  match api_record record with
  | Ok o => (forall r, o = Some r -> complete_reference r)
            /\ ~ five_with_link record
  | Raise e => rejected_at 4 e record
               \/ (e = IndexError /\ five_with_link record)
  end.
Proof.
  unfold api_record, rejected_at, five_with_link.
  destruct (5 <=? length record)%nat eqn:Hlen.
  - apply Nat.leb_le in Hlen.
    destruct record as [|r0 [|r1 [|r2 [|r3 [|r4 rest]]]]];
      simpl in Hlen; try lia.
    unfold py_index. cbn.
    destruct (link_of r4) as [[link|]|e] eqn:Hlink; cbn.
    + destruct rest as [|r5 rest]; cbn.
      * right. split; [done|]. split; [done|]. by exists r4, link.
      * split; [|by intros [[=] _]]. intros r [= <-].
        apply link_of_on_site in Hlink as [href ->]. by eexists _, _, _, _, _.
    + split; [done|]. intros (_ & h & l & [= <-] & Hl). congruence.
    + apply link_of_raises in Hlink. left. split; [lia | by exists r4].
  - apply Nat.leb_gt in Hlen. cbn. split; [done|]. intros [H5 _]. lia.
Qed.

Lemma table_row_run row :
  exists o, table_row row = Ok o
            /\ forall r, o = Some r -> complete_reference r.
Proof.
  unfold table_row. destruct (5 <=? length _)%nat eqn:Hlen.
  - apply Nat.leb_le in Hlen.
    destruct (find_all ["td"; "th"] row) as [|c0 [|c1 [|c2 [|c3 [|c4 rest]]]]];
      simpl in Hlen; try lia.
    unfold py_index. cbn.
    destruct (find_all ["a"] c3) as [|link_elem ?];
      [eexists; split; [reflexivity | done]|].
    destruct (attr "href" link_elem) as [href|];
      [|eexists; split; [reflexivity | done]].
    eexists. split; [reflexivity|]. intros r [= <-]. by eexists _, _, _, _, _.
  - eexists. split; [reflexivity | done].
Qed.

Lemma records_loop_complete body data reports :
  (forall record r, body record = Ok (Some r) -> complete_reference r) ->
  Forall complete_reference reports ->
  Forall complete_reference (records_loop body data reports).2
  /\ exists more, (records_loop body data reports).2 = reports ++ more.
Proof.
  intros Hbody. revert reports.
  induction data as [|record rest IH]; intros reports Hrep; cbn [records_loop].
  - split; [done|]. exists []. by rewrite app_nil_r.
  - destruct (body record) as [[r|]|e] eqn:E.
    + destruct (IH (reports ++ [r])) as [Hall [more Hmore]].
      { apply Forall_app. split; [done|]. constructor; [|done]. eauto. }
      split; [done|]. exists (r :: more). rewrite Hmore.
      by rewrite <- app_assoc.
    + by apply IH.
    + split; [done|]. exists []. by rewrite app_nil_r.
Qed.

Lemma records_loop_extends body data reports :
  exists more, (records_loop body data reports).2 = reports ++ more.
Proof.
  revert reports. induction data as [|record rest IH]; intros reports;
    cbn [records_loop].
  - exists []. by rewrite app_nil_r.
  - destruct (body record) as [[r|]|e].
    + destruct (IH (reports ++ [r])) as [more ->].
      exists (r :: more). by rewrite <- app_assoc.
    + apply IH.
    + exists []. by rewrite app_nil_r.
Qed.

Lemma result_rows_loop_complete rows reports :
  Forall complete_reference reports ->
  Forall complete_reference (result_rows_loop rows reports)
  /\ exists more, result_rows_loop rows reports = reports ++ more.
Proof.
  revert reports.
  induction rows as [|row rest IH]; intros reports Hrep;
    cbn [result_rows_loop].
  - split; [done|]. exists []. by rewrite app_nil_r.
  - destruct (table_row_run row) as (o & -> & Ho).
    destruct o as [r|]; [|by apply IH].
    destruct (IH (reports ++ [r])) as [Hall [more Hmore]].
    { apply Forall_app. split; [done|]. constructor; [|done]. eauto. }
    split; [done|]. exists (r :: more). rewrite Hmore.
    by rewrite <- app_assoc.
Qed.

(** Whatever leaves the loop over the DataTable records comes from the
    parser. *)
Lemma js_records_loop_raise data reports e :
  (records_loop js_record data reports).1 = Raise e ->
  Exists (rejected_at 3 e) data.
Proof.
  revert reports. induction data as [|record rest IH]; intros reports;
    cbn [records_loop]; [done|].
  pose proof (js_record_run record) as Hrun.
  destruct (js_record record) as [[r|]|e'].
  - intros H. apply Exists_cons_tl. by eapply IH.
  - intros H. apply Exists_cons_tl. by eapply IH.
  - intros [= <-]. by apply Exists_cons_hd.
Qed.

Lemma api_records_loop_raise data reports e :
  (records_loop api_record data reports).1 = Raise e ->
  Exists (rejected_at 4 e) data
  \/ (e = IndexError /\ Exists five_with_link data).
Proof.
  revert reports. induction data as [|record rest IH]; intros reports;
    cbn [records_loop]; [done|].
  pose proof (api_record_run record) as Hrun.
  destruct (api_record record) as [[r|]|e'].
  - intros H. destruct (IH _ H) as [Hex|[-> Hex]];
      [left | right; split; [done|]]; by apply Exists_cons_tl.
  - intros H. destruct (IH _ H) as [Hex|[-> Hex]];
      [left | right; split; [done|]]; by apply Exists_cons_tl.
  - intros [= <-]. destruct Hrun as [Hrej|[-> H5]];
      [left | right; split; [done|]]; by apply Exists_cons_hd.
Qed.

Lemma five_with_link_raises record :
  five_with_link record -> api_record record = Raise IndexError.
Proof.
  intros (Hlen & h & link & Hh & Hlink). unfold api_record.
  destruct record as [|r0 [|r1 [|r2 [|r3 [|r4 [|r5 rest]]]]]];
    simpl in Hlen; try lia.
  injection Hh as ->. unfold py_index. cbn. by rewrite Hlink.
Qed.

Lemma api_records_loop_breaks data reports :
  Forall (parsed_at 4) data -> Exists five_with_link data ->
  (records_loop api_record data reports).1 = Raise IndexError.
Proof.
  intros Hparsed Hex. revert reports.
  induction Hparsed as [|record rest Hrec _ IH]; intros reports;
    [by apply Exists_nil in Hex|]. cbn [records_loop].
  pose proof (api_record_run record) as Hrun.
  destruct (api_record record) as [[r|]|e] eqn:E.
  - destruct Hrun as [_ Hn5].
    apply Exists_cons in Hex as [?|Hex]; [done | by apply IH].
  - destruct Hrun as [_ Hn5].
    apply Exists_cons in Hex as [?|Hex]; [done | by apply IH].
  - destruct Hrun as [(_ & h & Hh & Hrej)|[-> _]]; [|done].
    destruct (Hrec h Hh) as [soup Hsoup]. congruence.
Qed.

(** X20: the loops over the records in [extract_report_links_dynamic].
    Whatever leaves the loop over the DataTable records (strategy 1) is the
    exception with which the parser rejected the fourth field of a record;
    the loop raises no [IndexError] of its own.  The loop over the records
    of the search API (strategy 2) is left by such a rejection of a fifth
    field, or by the [IndexError] of a record that has five fields, the
    fifth holding a link: the date is read from a sixth field that such a
    record lacks.  Where the parser accepts the fifth field of every
    record, that loop raises [IndexError] exactly when there is such a
    record.  The reports gathered before the exception stay in the list. *)
Theorem records_loops_raise
        (data : list (list string)) (reports : list (gmap string string)) :
  (forall e, (records_loop js_record data reports).1 = Raise e ->
             Exists (rejected_at 3 e) data)
  /\ (forall e, (records_loop api_record data reports).1 = Raise e ->
                Exists (rejected_at 4 e) data
                \/ (e = IndexError /\ Exists five_with_link data))
  /\ (Forall (parsed_at 4) data ->
      ((records_loop api_record data reports).1 = Raise IndexError <->
       Exists five_with_link data))
  /\ (exists more, (records_loop js_record data reports).2 = reports ++ more)
  /\ (exists more, (records_loop api_record data reports).2 = reports ++ more).
Proof.
  split; [intros e; apply js_records_loop_raise|].
  split; [intros e; apply api_records_loop_raise|].
  split; [|split; apply records_loop_extends].
  intros Hparsed. split; [|by apply api_records_loop_breaks].
  intros H. apply api_records_loop_raise in H as [Hrej|[_ H5]]; [|done].
  exfalso. apply Exists_exists in Hrej as (record & Hin & _ & h & Hh & Hrej).
  rewrite Forall_forall in Hparsed.
  destruct (Hparsed record Hin h Hh) as [soup Hs].
  congruence.
Qed.

Lemma flow_of_loop (r : res unit) (reports : list (gmap string string)) :
  Forall complete_reference reports ->
  keeps (W:=W) (fun f => Forall complete_reference (flow_reports f))
        (match r with
         | Ok _ =>
             if list_truthy reports then ret (Return reports)
             else ret (Continue reports)
         | Raise _ => ret (Continue reports)
         end).
Proof.
  intros H. destruct r; [destruct (list_truthy reports)|]; by apply keeps_ret.
Qed.

Lemma js_strategy_keeps reports :
  Forall complete_reference reports ->
  keeps (W:=W) (fun f => Forall complete_reference (flow_reports f))
        (js_strategy reports).
Proof.
  intros H. unfold js_strategy.
  apply keeps_try_except; [|intros _; by apply keeps_ret].
  eapply keeps_bind; [apply keeps_unrecorded|]. intros data _.
  destruct (records_loop_complete js_record data reports) as [Hall _];
    [|done|].
  { intros record r Hr. pose proof (js_record_run record) as Hrun.
    rewrite Hr in Hrun. by apply Hrun. }
  destruct (records_loop js_record data reports) as [r reports'].
  by apply flow_of_loop.
Qed.

Lemma api_strategy_keeps start_date end_date reports :
  Forall complete_reference reports ->
  keeps (W:=W) (fun f => Forall complete_reference (flow_reports f))
        (api_strategy start_date end_date reports).
Proof.
  intros H. unfold api_strategy.
  apply keeps_try_except; [|intros _; by apply keeps_ret].
  eapply keeps_bind; [apply keeps_perform|]. intros response _.
  destruct (_ =? _)%Z; [|by apply keeps_ret].
  eapply keeps_bind; [apply keeps_lift|]. intros data _.
  destruct (records_loop_complete api_record data reports) as [Hall _];
    [|done|].
  { intros record r Hr. pose proof (api_record_run record) as Hrun.
    rewrite Hr in Hrun. by apply Hrun. }
  destruct (records_loop api_record data reports) as [r reports'].
  by apply flow_of_loop.
Qed.

Lemma table_strategy_keeps reports :
  Forall complete_reference reports ->
  keeps (W:=W) (Forall complete_reference) (table_strategy reports).
Proof.
  intros H. unfold table_strategy.
  apply keeps_try_except; [|intros _; by apply keeps_ret].
  eapply keeps_bind; [apply keeps_perform|]. intros page_source _.
  eapply keeps_bind; [apply keeps_lift|]. intros soup _.
  destruct (find_by_id _ _ _) as [table|]; [|by apply keeps_ret].
  cbv zeta. destruct (no_matching _); [by apply keeps_ret|].
  apply keeps_ret. by apply result_rows_loop_complete.
Qed.

Lemma extract_report_links_keeps start_date end_date :
  keeps (W:=W) (Forall complete_reference)
        (extract_report_links_dynamic start_date end_date).
Proof.
  unfold extract_report_links_dynamic, sleep.
  eapply keeps_bind; [by apply keeps_any|]. intros _ _.
  apply (keeps_bind (fun _ => True)).
  { apply keeps_try_except; [|intros _; by apply keeps_ret].
    unfold save_results_page, now_strftime.
    eapply keeps_bind; [apply keeps_perform|]. intros stamp _.
    eapply keeps_bind; [apply keeps_perform|]. intros _ _.
    eapply keeps_bind; [apply keeps_perform|]. intros page _.
    apply keeps_unrecorded. }
  intros _ _. apply (keeps_bind (fun _ => True)).
  { apply keeps_try_except; [|intros _; by apply keeps_ret].
    unfold wait_for_processing.
    eapply keeps_bind; [apply keeps_unrecorded|]. intros _ _.
    apply keeps_unrecorded. }
  intros _ _. eapply keeps_bind; [apply keeps_perform|]. intros _ _.
  eapply keeps_bind; [by apply js_strategy_keeps|].
  intros [reports|reports] Hrep; cbn in Hrep; [by apply keeps_ret|].
  eapply keeps_bind; [by apply api_strategy_keeps|].
  intros [reports'|reports'] Hrep'; cbn in Hrep'; [by apply keeps_ret|].
  by apply table_strategy_keeps.
Qed.

Lemma extract_report_links_total start_date end_date :
  total (W:=W) (extract_report_links_dynamic start_date end_date).
Proof.
  unfold extract_report_links_dynamic.
  apply total_bind; [apply total_log|]. intros _.
  apply total_bind; [apply total_try_except; intros _; apply total_ret|].
  intros _.
  apply total_bind; [apply total_try_except; intros _; apply total_ret|].
  intros _. apply total_bind; [apply total_sleep|]. intros _.
  apply total_bind;
    [unfold js_strategy; apply total_try_except; intros _; apply total_ret|].
  intros [reports|reports]; [apply total_ret|].
  apply total_bind;
    [unfold api_strategy; apply total_try_except; intros _; apply total_ret|].
  intros [reports'|reports']; [apply total_ret|].
  unfold table_strategy. apply total_try_except. intros _. apply total_ret.
Qed.

(** X21: [extract_report_links_dynamic] never raises, whatever the browser,
    the network and the file system do, and leaves the flag of the subclass
    alone.  Every reference that it returns has the five keys name, office,
    report_type, date_filed and link, the link being an address on the
    site; so [process_report] finds the name and the link of each. *)
Theorem extract_report_links_outcome
        (start_date end_date : string) (s : state W) :
  exists reports s' tr,
    extract_report_links_dynamic start_date end_date s = (Ok reports, s', tr)
    /\ session_established s' = session_established s
    /\ Forall complete_reference reports
    /\ Forall (fun r => r !! "name" <> None /\ r !! "link" <> None) reports.
Proof.
  destruct (extract_report_links_total start_date end_date s) as [reports E].
  destruct (extract_report_links_keeps start_date end_date s) as [Hflag Hall].
  destruct (extract_report_links_dynamic start_date end_date s)
    as [[r s'] tr]. cbn in *. subst r.
  exists reports, s', tr. split; [done|]. split; [done|].
  specialize (Hall reports eq_refl). split; [done|].
  eapply Forall_impl; [exact Hall|].
  intros r (nm & off & rt & df & href & ->). unfold found_report.
  split; by simplify_map_eq.
Qed.

End Links.

(** The first record of [api_records] has six fields and becomes a
    reference; the second has five, and the loop ends with [IndexError],
    the first reference still in the list. *)
Lemma api_records_example :
  Scraper.records_loop (Scraper.api_record (env := link_env)) api_records []
  = (Raise IndexError, [jane_doe_reference]).
Proof. vm_compute. reflexivity. Qed.

(** ** The heuristic tier, block by block *)

Lemma parsed_is_likely text t :
  parse_transaction_text text = Some t -> is_likely_transaction text = true.
Proof.
  unfold parse_transaction_text. intros H.
  destruct (search_group1 false asset_re text) as [asset|]; [|done].
  destruct (search_group1 true _ text) as [type|]; [|done].
  destruct (search_group1 false (RGroup 1 date_shape) text) as [date|]; [|done].
  destruct (search_group1 false (RGroup 1 amount_shape) text)
    as [amount|] eqn:Hm; [|done].
  apply search_group1_whole in Hm as (pre & post & cs & -> & Hm).
  apply amount_shape_denotes in Hm.
  eapply dollar_is_likely; [|exact Hm]. by exists pre, post.
Qed.

Lemma parsed_truthy text t :
  parse_transaction_text text = Some t -> dict_truthy t = true.
Proof.
  intros H. apply parse_transaction_text_fields in H as (Ho & _).
  unfold dict_truthy. rewrite bool_decide_eq_false_2; [done|].
  intros ->. by rewrite lookup_empty in Ho.
Qed.

(** X22: the heuristic tier yields, in document order, one transaction for
    every [div] with a class matching transaction|asset whose stripped text
    [parse_transaction_text] accepts, and nothing else; the test
    [is_likely_transaction] turns away none of the blocks that would have
    been parsed. *)
Theorem parse_alternative_by_block (soup : node) :
  parse_alternative soup
  = omap (fun div => parse_transaction_text (get_text_strip div))
         (List.filter (class_search true transaction_class)
                      (find_all ["div"] soup)).
Proof.
  unfold parse_alternative. cbv zeta.
  generalize (List.filter (class_search true transaction_class)
                          (find_all ["div"] soup)).
  intros divs. rewrite <- (app_nil_l (omap _ divs)).
  generalize (@nil (gmap string pyval)). 
  induction divs as [|div divs IH]; intros acc;
    cbn [divs_loop omap list_omap]; [by rewrite app_nil_r|].
  destruct (parse_transaction_text (get_text_strip div)) as [t|] eqn:Ht.
  - rewrite (parsed_is_likely _ _ Ht), (parsed_truthy _ _ Ht), IH.
    by rewrite <- app_assoc.
  - destruct (is_likely_transaction _); apply IH.
Qed.

(** ** The fetcher and the normalizer, on the methods themselves *)

Section Claims.
Context {W : Type} {env : Env W}.
Implicit Types (s : state W) (tr : list event).

Lemma short_row_doc_breaks :
  Exists table_breaks (find_all ["table"] short_row_doc).
Proof.
  destruct (tables_loop_outcome (find_all ["table"] short_row_doc) [])
    as [[H _]|[_ [txs E]]]; [done|].
  exfalso. revert E. change (parse_tables short_row_doc <> Ok txs).
  assert (parse_tables short_row_doc = Raise IndexError) as -> by compute_done.
  done.
Qed.

(** C6: the chain does not return the first non-empty result for every
    document.  When the parser reads the document as one with a table of at
    least two rows that has, below its header, a row of three cells or more
    without a column to which the header maps a field, the chain raises
    [IndexError]: it returns no list, and neither the second nor the third
    strategy is run, whatever they would have found. *)
Theorem chain_breaks_with_table (html : string) (s : state W) (soup : node) :
  BeautifulSoup html = Ok soup ->
  Exists table_breaks (find_all ["table"] soup) ->
  extract_transactions_with_fallback html s
  = (Raise IndexError, s,
     [ECall "extract_transactions_with_fallback"; ECall "parse_tables"]).
Proof.
  intros Hsoup Hbreaks.
  assert (Hpt : parse_tables soup = Raise IndexError).
  { unfold parse_tables.
    destruct (tables_loop_outcome (find_all ["table"] soup) [])
      as [[_ E]|[Hn _]]; [exact E | done]. }
  unfold extract_transactions_with_fallback, invoke, bind, log, lift.
  by rewrite Hsoup, Hpt.
Qed.

Lemma attempts_loop_none url max_retries attempts s s' tr :
  attempts_loop url max_retries attempts s = (Ok None, s', tr) ->
  attempts_made tr = length attempts.
Proof.
  intros H.
  destruct (attempts_loop_run url max_retries attempts s)
    as (out & s1 & t1 & E & _ & Hnone).
  rewrite E in H. injection H as -> _ ->. by apply Hnone.
Qed.

(** The loop after attempts that have all failed. *)
Lemma attempts_loop_app url max_retries l1 l2 s s1 t1 :
  attempts_loop url max_retries l1 s = (Ok None, s1, t1) ->
  attempts_loop url max_retries (l1 ++ l2) s
  = ((attempts_loop url max_retries l2 s1).1.1,
     (attempts_loop url max_retries l2 s1).1.2,
     t1 ++ (attempts_loop url max_retries l2 s1).2).
Proof.
  revert s t1. induction l1 as [|attempt l1 IH]; intros s t1 H;
    cbn [attempts_loop app] in *.
  - injection H as <- <-. by destruct (attempts_loop _ _ l2 s) as [[r s2] t2].
  - destruct (attempt_body_run url max_retries attempt s)
      as (out & sa & ta & Ha & _).
    unfold bind in *. rewrite Ha in *.
    destruct out as [html|]; [done|].
    destruct (attempts_loop url max_retries l1 sa) as [[r1 sb] tb] eqn:E1.
    injection H as -> -> <-.
    rewrite (IH _ _ E1). cbn [fst snd app]. by rewrite <- app_assoc.
Qed.

Lemma range_split (max_retries : Z) (k : nat) :
  (Z.of_nat k < max_retries)%Z ->
  range max_retries
  = map Z.of_nat (seq 0 k)
    ++ Z.of_nat k :: map Z.of_nat (seq (S k) (Z.to_nat max_retries - S k)).
Proof.
  intros Hk. unfold range.
  replace (Z.to_nat max_retries)
    with (k + S (Z.to_nat max_retries - S k))%nat at 1 by lia.
  by rewrite seq_app, map_app.
Qed.

(** C5: a browser attempt of [download_report_with_enhanced_retry] whose
    page shows the home marker.  Let the [k] attempts before it have failed
    ([k < 3], within [max_retries]).  Then the download goes on with attempt
    [k]: it loads the address, re-establishes the session exactly once and
    loads the same address exactly once more, without starting another
    attempt in between; all of this belongs to the one iteration [k] of the
    [max_retries] that the loop has.  When that iteration yields the
    document the download returns it.  When it yields none (as it does when
    the page shows the marker a second time, and then without a back-off),
    the attempt is used up: the download goes on with the loop over the
    attempts [k+1 .. max_retries-1].  In all, no more than [max_retries]
    attempts are started. *)
Theorem refresh_within_attempt
        (report_data : gmap string string) (url name : string)
        (max_retries : Z) (k : nat) (s s_k : state W) (tr_k : list event)
        (w1 w2 : W) (title : string) :
  report_data !! "link" = Some url ->
  report_data !! "name" = Some name ->
  (k < 3)%nat -> (Z.of_nat k < max_retries)%Z ->
  attempts_loop url max_retries (map Z.of_nat (seq 0 k)) s
  = (Ok None, s_k, tr_k) ->
  driver_get url (world s_k) = (Ok tt, w1) ->
  driver_title (time_sleep 3 w1) = (Ok title, w2) ->
  contains home_marker title = true ->
  exists b s_sess tr_sess out s' tail r s_end tr_rest,
    establish_session (with_world s_k w2) = (Ok b, s_sess, tr_sess)
    /\ download_report_with_enhanced_retry report_data max_retries s
       = (r, s_end,
          ECall "download_report_with_enhanced_retry"
            :: tr_k
            ++ ([EAttempt (Z.of_nat k); EDriverGet url; ESleep 3; ETitle]
                  ++ tr_sess ++ EDriverGet url :: tail)
            ++ tr_rest)
    /\ attempts_made tr_k = k
    /\ calls_of "establish_session" tr_sess = 1%nat
    /\ calls_of "establish_session" tail = 0%nat
    /\ Forall (fun e => is_fetch url e = false) tail
    /\ Forall (fun e => is_attempt e = false) (tr_sess ++ EDriverGet url :: tail)
    /\ match out with
       | Some html_content =>
           r = Ok (Some html_content) /\ s_end = s' /\ tr_rest = []
       | None =>
           attempts_loop url max_retries
             (map Z.of_nat (seq (S k) (Z.to_nat max_retries - S k))) s'
           = (r, s_end, tr_rest)
       end
    /\ (forall w3 title2 w4,
           driver_get url (world s_sess) = (Ok tt, w3) ->
           driver_title (time_sleep 3 w3) = (Ok title2, w4) ->
           contains home_marker title2 = true ->
           out = None /\ tail = [ESleep 3; ETitle] /\ s' = with_world s_sess w4)
    /\ (attempts_made
          (download_report_with_enhanced_retry report_data max_retries s).2
        <= Z.to_nat max_retries)%nat.
Proof.
  intros Hlink Hname Hk3 Hk Hbefore Hget Htitle Hmarker.
  destruct (refresh_once_then_refetch url max_retries (Z.of_nat k) s_k
              w1 w2 title ltac:(lia) Hget Htitle Hmarker)
    as (b & s_sess & tr_sess & out & s' & tail
        & Hsess & Hbody & Hc1 & Hc2 & Hfetch & Hnoatt & Hsecond).
  set (rest := map Z.of_nat (seq (S k) (Z.to_nat max_retries - S k))).
  set (after := match out with
                | Some html_content => (Ok (Some html_content), s', [])
                | None => attempts_loop url max_retries rest s'
                end).
  exists b, s_sess, tr_sess, out, s', tail, after.1.1, after.1.2, after.2.
  split; [exact Hsess|].
  assert (Hloop : attempts_loop url max_retries (range max_retries) s
                  = (after.1.1, after.1.2,
                     tr_k ++ ([EAttempt (Z.of_nat k); EDriverGet url;
                               ESleep 3; ETitle]
                                ++ tr_sess ++ EDriverGet url :: tail)
                          ++ after.2)).
  { rewrite (range_split max_retries k Hk).
    rewrite (attempts_loop_app _ _ _ _ _ _ _ Hbefore).
    cbn [attempts_loop]. unfold bind. rewrite Hbody. fold rest.
    subst after. destruct out as [html|].
    - unfold ret. by cbn [fst snd].
    - destruct (attempts_loop url max_retries rest s') as [[r2 s2] t2].
      by cbn [fst snd]. }
  assert (Hdl : download_report_with_enhanced_retry report_data max_retries s
                = (after.1.1, after.1.2,
                   ECall "download_report_with_enhanced_retry"
                     :: tr_k
                     ++ ([EAttempt (Z.of_nat k); EDriverGet url;
                          ESleep 3; ETitle]
                           ++ tr_sess ++ EDriverGet url :: tail)
                     ++ after.2)).
  { unfold download_report_with_enhanced_retry, bind, log, lift, dict_item.
    by rewrite Hlink, Hname, Hloop. }
  split; [exact Hdl|].
  split; [rewrite (attempts_loop_none _ _ _ _ _ _ Hbefore);
          by rewrite length_map, length_seq|].
  split; [exact Hc1|]. split; [exact Hc2|]. split; [exact Hfetch|].
  split; [exact Hnoatt|].
  split.
  { subst after. destruct out as [html|]; [done|].
    by destruct (attempts_loop url max_retries rest s') as [[r2 s2] t2]. }
  split; [exact Hsecond|].
  destruct (attempts_loop_run url max_retries (range max_retries) s)
    as (out' & s'' & tr'' & E & Hle & _).
  unfold download_report_with_enhanced_retry, bind, log, lift, dict_item.
  rewrite Hlink, Hname, E. cbn. by rewrite length_range in Hle.
Qed.

Lemma extraction_success_true_iff
      (report_data : gmap string string) (name link : string)
      (transactions : list (gmap string pyval)) (html_content now : string) :
  extraction_success
    (report_result report_data name link transactions html_content now) = true
  <-> transactions <> [] \/ occurs_in "No transactions" html_content.
Proof.
  pose proof (extraction_success_false_iff report_data name link transactions
                html_content now) as Hfalse.
  destruct (extraction_success _) eqn:Hs.
  - split; [intros _|done].
    destruct transactions as [|t txs]; [|by left]. right.
    apply contains_spec.
    destruct (contains "No transactions" html_content) eqn:Hc; [done|].
    assert (true = false) as Habs; [|done].
    apply Hfalse. split; [done|]. rewrite <- contains_spec. by rewrite Hc.
  - split; [done|]. intros Hor. destruct Hfalse as [[-> Hno] _]; [done|].
    by destruct Hor.
Qed.

(** C7: [process_report] and the [extraction_success] of its record.
    Whenever the reference has its name and its link, the download delivers
    a non-empty document, the chain makes a list of transactions of it and
    the raw file can be written, [process_report] returns a record with
    that list, and every record that [process_report] returns comes about
    in this way.  The record has [extraction_success] false exactly when the
    list is empty and the text "No transactions" does not occur in the
    document, and true otherwise. *)
Theorem extraction_success_of_report
        (report_data : gmap string string) (s : state W) :
  (forall name link html s1 t1 txs w4,
      report_data !! "name" = Some name ->
      report_data !! "link" = Some link ->
      download_report_with_enhanced_retry report_data default_max_retries s
      = (Ok (Some html), s1, t1) ->
      html <> EmptyString ->
      (extract_transactions_with_fallback html s1).1.1 = Ok txs ->
      write_file (raw_html_path name) html
                 (datetime_now_isoformat (world s1)).2 = (Ok tt, w4) ->
      exists rep tr,
        process_report report_data s = (Ok (Some rep), with_world s1 w4, tr)
        /\ transactions rep = txs
        /\ (extraction_success rep = false <->
            txs = [] /\ ~ occurs_in "No transactions" html)
        /\ (extraction_success rep = true <->
            txs <> [] \/ occurs_in "No transactions" html))
  /\ (forall rep s' tr,
         process_report report_data s = (Ok (Some rep), s', tr) ->
         exists html s1 t1,
           download_report_with_enhanced_retry
             report_data default_max_retries s
           = (Ok (Some html), s1, t1)
           /\ (extract_transactions_with_fallback html s1).1.1
              = Ok (transactions rep)
           /\ (extraction_success rep = false <->
               transactions rep = [] /\ ~ occurs_in "No transactions" html)
           /\ (extraction_success rep = true <->
               transactions rep <> [] \/ occurs_in "No transactions" html)).
Proof.
  split.
  - intros name link html s1 t1 txs w4 Hname Hlink Hdl Hhtml Hchain Hwrite.
    destruct (chain_run html s1) as (r2 & t2 & Ex & _).
    rewrite Ex in Hchain. cbn in Hchain. subst r2.
    unfold process_report, bind, log, lift, dict_item, perform, ret.
    rewrite Hname, Hdl. cbv beta iota.
    destruct html as [|c html]; [done|]. cbv beta iota.
    rewrite Ex. cbv beta iota. rewrite Hlink. cbv beta iota.
    destruct (datetime_now_isoformat (world s1)) as [now w3].
    cbv beta iota zeta. cbn [world session_established snd] in *.
    rewrite Hwrite. cbv beta iota.
    eexists _, _. split; [reflexivity|]. split; [reflexivity|].
    split; [apply extraction_success_false_iff
           |apply extraction_success_true_iff].
  - intros rep s' tr.
    unfold process_report, bind, log, lift, dict_item, perform, ret.
    destruct (report_data !! "name") as [name|]; [|by intros [=]].
    destruct (download_report_with_enhanced_retry _ _ _)
      as [[[[html|]|e] s1] t1]; cbv beta iota; try by intros [=].
    destruct html as [|c html]; cbv beta iota; [by intros [=]|].
    destruct (extract_transactions_with_fallback (String c html) s1)
      as [[[txs|e] s2] t2] eqn:Ex; cbv beta iota; [|by intros [=]].
    destruct (report_data !! "link") as [link|]; cbv beta iota;
      [|by intros [=]].
    destruct (datetime_now_isoformat (world s2)) as [now w3].
    cbv beta iota zeta. cbn [world session_established].
    destruct (write_file (raw_html_path name) (String c html) w3)
      as [[[]|e] w4]; [|by intros [=]].
    intros [= <- _ _]. exists (String c html), s1, t1.
    split; [reflexivity|]. split; [by rewrite Ex|].
    split; [apply extraction_success_false_iff
           |apply extraction_success_true_iff].
Qed.

End Claims.

(** A document that the parser reads as [short_row_doc]: the third strategy
    would have found the Goldman transaction, and is never asked. *)
Lemma chain_breaks_with_table_witness :
  extract_transactions_with_fallback (env := short_row_env) goldman_text
    (toy_state offline false)
  = (Raise IndexError, toy_state offline false,
     [ECall "extract_transactions_with_fallback"; ECall "parse_tables"]).
Proof.
  apply (chain_breaks_with_table (env := short_row_env) goldman_text
           (toy_state offline false) short_row_doc).
  - reflexivity.
  - apply short_row_doc_breaks.
Defined.

(** The browser is sent to the home page twice during the first attempt and
    delivers the document on the second. *)
Lemma refresh_within_attempt_witness :
  exists b s_sess tr_sess out s' tail r s_end tr_rest,
    establish_session (with_world (toy_state bounced_twice false) bounced_once)
    = (Ok b, s_sess, tr_sess)
    /\ download_report_with_enhanced_retry some_report 5
         (toy_state bounced_twice false)
       = (r, s_end,
          ECall "download_report_with_enhanced_retry"
            :: []
            ++ ([EAttempt (Z.of_nat 0); EDriverGet some_url; ESleep 3; ETitle]
                  ++ tr_sess ++ EDriverGet some_url :: tail)
            ++ tr_rest)
    /\ attempts_made [] = 0%nat
    /\ calls_of "establish_session" tr_sess = 1%nat
    /\ calls_of "establish_session" tail = 0%nat
    /\ Forall (fun e => is_fetch some_url e = false) tail
    /\ Forall (fun e => is_attempt e = false)
              (tr_sess ++ EDriverGet some_url :: tail)
    /\ match out with
       | Some html_content =>
           r = Ok (Some html_content) /\ s_end = s' /\ tr_rest = []
       | None =>
           attempts_loop some_url 5
             (map Z.of_nat (seq 1 (Z.to_nat 5 - 1))) s'
           = (r, s_end, tr_rest)
       end
    /\ (forall w3 title2 w4,
           driver_get some_url (world s_sess) = (Ok tt, w3) ->
           driver_title (time_sleep 3 w3) = (Ok title2, w4) ->
           contains home_marker title2 = true ->
           out = None /\ tail = [ESleep 3; ETitle] /\ s' = with_world s_sess w4)
    /\ (attempts_made
          (download_report_with_enhanced_retry some_report 5
             (toy_state bounced_twice false)).2
        <= Z.to_nat 5)%nat.
Proof.
  apply (refresh_within_attempt some_report some_url "Jane Doe" 5 0
           (toy_state bounced_twice false) (toy_state bounced_twice false) []
           bounced_twice bounced_once "eFD: Home");
    [reflexivity | reflexivity | lia | lia | reflexivity | reflexivity
    | reflexivity | reflexivity].
Defined.

(** The report of the Goldman document: it is returned, and it is marked as
    a success because its list is not empty. *)
Lemma extraction_success_of_report_witness :
  exists rep tr,
    process_report some_report (toy_state bounced_twice false)
    = (Ok (Some rep), with_world (toy_state at_once_read false) at_once_read, tr)
    /\ transactions rep = [goldman_transaction]
    /\ (extraction_success rep = false <->
        [goldman_transaction] = []
        /\ ~ occurs_in "No transactions" goldman_text)
    /\ (extraction_success rep = true <->
        [goldman_transaction] <> []
        \/ occurs_in "No transactions" goldman_text).
Proof.
  apply (proj1 (extraction_success_of_report some_report
                  (toy_state bounced_twice false))
           "Jane Doe" some_url goldman_text (toy_state at_once_read false)
           (download_report_with_enhanced_retry some_report default_max_retries
              (toy_state bounced_twice false)).2);
    [reflexivity | reflexivity | vm_compute; reflexivity | done
    | vm_compute; reflexivity | reflexivity].
Defined.
